(** * Pharmaceutical supply-chain Monte Carlo simulator

    A shallow embedding of the three simulation scripts

      - [distribution_mc.py]          (per-shipment loop, module [MC])
      - [distribution_regression.py]  (per-shipment loop with the unified
                                       missing counter, module [Regression])
      - [distribution_batch.py]       (aggregate counts, module [Batch])

    and the properties of their counters.  Module [Journey] restates the
    fate of one shipment as a stage pipeline with a terminal status, to
    compare the shipment loops with; module [Tape] is a generator that
    replays a recorded stream of draws.

    Modelling conventions.
      - Python integers are [Z]; [range(N)] runs [Z.to_nat N] times, so a
        negative [N] gives an empty loop, as in Python.
      - Python floats and [np.float64] values are the rationals they
        denote, in [Q]; the places where NumPy can produce a non-finite
        value ([np.mean] of an empty list, a NumPy division by zero) use
        [float64], which adds [NaN] and the infinities.  The float
        operations whose rounding decides a counter are rounded as IEEE
        doubles are, by [round64]: the sum of the transit-time legs
        ([np_add]) and the on-time share of the batch script
        ([np_true_divide], [np_multiply], [py_mul]).  The statistics of a
        whole run (the quotient of two counters, the total and the average
        transit time, [np.mean]) are kept as exact rationals; what is
        stated of them below (ranges, and the two class fractions of a run
        adding up to one) is kept by rounding to nearest.  Overflow to
        infinity is not modelled.
      - The process-wide NumPy random state is an explicit state of type
        [rng G], threaded through every draw by the monad [M].  The
        generator [G] itself is external to the scripts and stays abstract;
        [GeneratorLaws] records the support of each distribution.
      - Python exceptions are results [Raise e]; the random state reached
        when the exception is raised is kept, as the global state is in
        Python. *)

From Stdlib Require Import ZArith QArith Qround Qfield Qpower Qabs.
From Stdlib Require Import List Lia Lqa Bool.
Import ListNotations.

Open Scope Z_scope.

(** ** Rational helpers *)

(** [x < y] on floats, as a boolean. *)
Definition Qltb (x y : Q) : bool :=
  (Qnum x * QDen y <? Qnum y * QDen x)%Z.

(** Truncation toward zero: Python's [int(x)] on a finite float. *)
Definition Qtrunc (x : Q) : Z := Z.quot (Qnum x) (QDen x).

Fixpoint Qsum (l : list Q) : Q :=
  match l with
  | [] => 0%Q
  | x :: l' => (x + Qsum l')%Q
  end.

(** ** IEEE doubles

    A finite double is the rational it denotes.  [round64 x] is the double
    nearest to [x], ties to the even significand: 53 significant bits, and
    a spacing of [2 ^ -1074] in the subnormal range. *)

(** The floor of the binary logarithm of a positive rational. *)
Definition Qlog2 (x : Q) : Z :=
  let e := Z.log2 (Qnum x) - Z.log2 (QDen x) in
  if Qle_bool (2 ^ e) x then e else e - 1.

(** Rounding to the nearest integer, ties to even. *)
Definition rne (x : Q) : Z :=
  let f := Qfloor x in
  match Qcompare (x - inject_Z f) (1 # 2) with
  | Lt => f
  | Gt => f + 1
  | Eq => if Z.even f then f else f + 1
  end.

(** The exponent of the spacing of the doubles around [x]. *)
Definition ulp_exponent (x : Q) : Z :=
  Z.max (Qlog2 (Qabs x) - 52) (-1074).

Definition round64 (x : Q) : Q :=
  if Qeq_bool x 0 then 0%Q
  else
    let k := ulp_exponent x in
    Qred (inject_Z (rne (x / 2 ^ k)) * 2 ^ k)%Q.

(** ** The NumPy interface *)

Module Numpy.

Inductive exn : Type :=
| ZeroDivisionError
| ValueError
| OverflowError.

Inductive Res (A : Type) : Type :=
| Ok (a : A)
| Raise (e : exn).
Arguments Ok {A} a.
Arguments Raise {A} e.

(** [np.float64] results that may be non-finite. *)
Inductive float64 : Type :=
| Fin (q : Q)
| Inf (negative : bool)
| NaN.

(** The legacy global generator behind [np.random.*]: one function per
    distribution used by the scripts, each mapping the current state to a
    draw and the next state. *)
Record Generator : Type := {
  rng : Type;
  gen_seed : Z -> rng;
  gen_random : rng -> Q * rng;
  gen_uniform : Q -> Q -> rng -> Q * rng;
  gen_beta : Q -> Q -> rng -> Q * rng;
  gen_normal : Q -> Q -> rng -> Q * rng;
  gen_poisson : Q -> rng -> Z * rng;
  gen_binomial : Z -> Q -> rng -> Z * rng;
  (* [np.sqrt]: not a rational function, so left to the environment *)
  gen_sqrt : Q -> Q
}.

(** The support of each distribution. *)
Record GeneratorLaws (G : Generator) : Prop := {
  random_range : forall s,
    (0 <= fst (gen_random G s))%Q /\ (fst (gen_random G s) < 1)%Q;
  uniform_range : forall a b s, (a <= b)%Q ->
    (a <= fst (gen_uniform G a b s))%Q /\ (fst (gen_uniform G a b s) <= b)%Q;
  beta_range : forall a b s,
    (0 <= fst (gen_beta G a b s))%Q /\ (fst (gen_beta G a b s) <= 1)%Q;
  poisson_range : forall lam s, 0 <= fst (gen_poisson G lam s);
  binomial_range : forall n p s, 0 <= n ->
    0 <= fst (gen_binomial G n p s) <= n
}.

Section Monad.
Context {G : Generator}.

(** Computations over the global random state that may raise. *)
Definition M (A : Type) : Type := rng G -> Res A * rng G.

Definition ret {A} (a : A) : M A := fun s => (Ok a, s).

Definition raise {A} (e : exn) : M A := fun s => (Raise e, s).

Definition bind {A B} (m : M A) (f : A -> M B) : M B :=
  fun s =>
    match m s with
    | (Ok a, s') => f a s'
    | (Raise e, s') => (Raise e, s')
    end.

(** A draw that cannot raise. *)
Definition draw {A} (f : rng G -> A * rng G) : M A :=
  fun s => let (a, s') := f s in (Ok a, s').

(** [np.random.seed(n)]; the seed of the legacy generator is an unsigned
    32-bit integer, anything else is refused. *)
Definition np_seed (n : Z) : M unit :=
  if (n <? 0) || (2 ^ 32 - 1 <? n) then raise ValueError
  else fun _ => (Ok tt, gen_seed G n).

(** [np.random.random()] *)
Definition np_random : M Q := draw (gen_random G).

(** [np.random.uniform(low, high)] *)
Definition np_uniform (low high : Q) : M Q := draw (gen_uniform G low high).

(** [np.random.beta(a, b)]; raises on a non-positive parameter. *)
Definition np_beta (a b : Q) : M Q :=
  if Qle_bool a 0 || Qle_bool b 0 then raise ValueError
  else draw (gen_beta G a b).

(** [np.random.normal(loc, scale)].  NumPy raises only on a negative
    scale; every call in the scripts passes [np.sqrt] of a positive
    literal, so that check never fires and is left out. *)
Definition np_normal (loc scale : Q) : M Q := draw (gen_normal G loc scale).

(** [np.random.poisson(lam)]; raises on a negative rate. *)
Definition np_poisson (lam : Q) : M Z :=
  if Qltb lam 0 then raise ValueError
  else draw (gen_poisson G lam).

(** [np.random.binomial(n, p)]: [n] is first converted to a C [long],
    which overflows outside 64 bits; then the call raises when [n < 0] or
    [p] is not a probability. *)
Definition np_binomial (n : Z) (p : Q) : M Z :=
  if (n <? - 2 ^ 63) || (2 ^ 63 - 1 <? n) then raise OverflowError
  else if (n <? 0) || Qltb p 0 || Qltb 1 p then raise ValueError
  else draw (gen_binomial G n p).

(** [np.sqrt(x)] on a literal. *)
Definition np_sqrt (x : Q) : Q := gen_sqrt G x.

(** [for _ in range(n): body], the loop body acting on the loop-carried
    variables [a]. *)
Fixpoint for_range {A} (n : nat) (body : A -> M A) (a : A) : M A :=
  match n with
  | O => ret a
  | S n' => bind (body a) (for_range n' body)
  end.

(** [np.random.normal(loc, scale, n)]: an array of [n] draws, filled in
    order from the same stream; raises on a negative size.  The memory the
    array takes is not modelled. *)
Fixpoint normal_fill (n : nat) (loc scale : Q) : M (list Q) :=
  match n with
  | O => ret []
  | S n' =>
      bind (np_normal loc scale) (fun x =>
      bind (normal_fill n' loc scale) (fun xs => ret (x :: xs)))
  end.

Definition np_normal_n (loc scale : Q) (n : Z) : M (list Q) :=
  if n <? 0 then raise ValueError
  else normal_fill (Z.to_nat n) loc scale.

(** Python's [a / b] on two integers: the quotient, kept exact (Python
    returns the double nearest to it). *)
Definition py_truediv (a b : Z) : M Q :=
  if b =? 0 then raise ZeroDivisionError
  else ret (inject_Z a / inject_Z b)%Q.

(** Python's [int(x)] on a float. *)
Definition py_int (x : float64) : M Z :=
  match x with
  | Fin q => ret (Qtrunc q)
  | Inf _ => raise OverflowError
  | NaN => raise ValueError
  end.

End Monad.

Arguments M G A : clear implicits.
Arguments np_sqrt G x : clear implicits.

(** [x + y] on two floats. *)
Definition np_add (x y : Q) : Q := round64 (x + y).

(** [k * x] for a Python integer [k] and a float [x]: the integer is
    converted to a double, then the product is rounded. *)
Definition py_mul (k : Z) (x : Q) : Q :=
  round64 (round64 (inject_Z k) * x).

(** NumPy scalar division [a / b] of an [np.int64] by an integer, both
    converted to doubles: a warning and a non-finite value when [b] is
    zero, never an exception. *)
Definition np_true_divide (a b : Z) : float64 :=
  if b =? 0 then (if a =? 0 then NaN else Inf (a <? 0))
  else Fin (round64 (round64 (inject_Z a) / round64 (inject_Z b)))%Q.

(** [k * x] for an integer [k] and an [np.float64] [x]. *)
Definition np_multiply (k : Z) (x : float64) : float64 :=
  match x with
  | Fin q => Fin (py_mul k q)
  | Inf negative => if k =? 0 then NaN else Inf (xorb negative (k <? 0))
  | NaN => NaN
  end.

(** [x / n] for an [np.float64] [x] and an integer [n]; the quotient is
    kept exact. *)
Definition np_divide (x : float64) (n : Z) : float64 :=
  match x with
  | Fin q =>
      if n =? 0 then (if Qeq_bool q 0 then NaN else Inf (Qltb q 0))
      else Fin (q / inject_Z n)%Q
  | Inf negative => Inf (xorb negative (n <? 0))
  | NaN => NaN
  end.

(** [np.mean(l)]: the arithmetic mean, [nan] on an empty list.  The order
    in which NumPy adds the entries is not part of its interface, so the
    mean is kept exact; only its range is relied on. *)
Definition np_mean (l : list Q) : float64 :=
  match l with
  | [] => NaN
  | _ => Fin (Qsum l / inject_Z (Z.of_nat (length l)))%Q
  end.

(** [np.sum(mask)] of a boolean array. *)
Definition np_sum_mask (mask : list bool) : Z :=
  Z.of_nat (length (filter (fun b => b) mask)).

End Numpy.

Import Numpy.

Declare Scope np_scope.
Delimit Scope np_scope with np.
Notation "x <- m ;; k" := (bind m (fun x => k))
  (at level 61, m at next level, right associativity) : np_scope.
Notation "' p <- m ;; k" := (bind m (fun p => k))
  (at level 61, p pattern, m at next level, right associativity) : np_scope.
Open Scope np_scope.

(** ** [distribution_mc.py] *)

Module MC.

(** The stage probabilities drawn at the top of [simulate_imported_drugs]. *)
Record Probs : Type := {
  p_counterfeit : Q;
  p_seized_export_counterfeit : Q;
  p_seized_export_legit : Q;
  p_seized_import_counterfeit : Q;
  p_seized_import_legit : Q;
  p_warehouse_theft : Q;
  p_last_mile_theft : Q
}.

(** The counters carried by the shipment loop. *)
Record Counters : Type := {
  legit_total : Z;
  counterfeit_total : Z;
  final_legit_on_time : Z;
  final_counterfeit_on_time : Z
}.

(** The dictionary returned by [simulate_imported_drugs]. *)
Record Results : Type := {
  r_final_legit_on_time : Z;
  r_final_counterfeit_on_time : Z;
  r_final_legit_total : Z;
  r_final_counterfeit_total : Z;
  r_total_surviving : Z
}.

(** The dictionary returned by [simulate_local_drugs]. *)
Record LocalResults : Type := {
  l_results : Results;
  l_p_counterfeit_local : Q;
  l_p_warehouse_theft_local : Q;
  l_p_last_mile_theft_local : Q
}.

Definition count_class (is_counterfeit : bool) (c : Counters) : Counters :=
  if is_counterfeit
  then {| legit_total := legit_total c;
          counterfeit_total := counterfeit_total c + 1;
          final_legit_on_time := final_legit_on_time c;
          final_counterfeit_on_time := final_counterfeit_on_time c |}
  else {| legit_total := legit_total c + 1;
          counterfeit_total := counterfeit_total c;
          final_legit_on_time := final_legit_on_time c;
          final_counterfeit_on_time := final_counterfeit_on_time c |}.

Definition count_on_time (is_counterfeit : bool) (c : Counters) : Counters :=
  if is_counterfeit
  then {| legit_total := legit_total c;
          counterfeit_total := counterfeit_total c;
          final_legit_on_time := final_legit_on_time c;
          final_counterfeit_on_time := final_counterfeit_on_time c + 1 |}
  else {| legit_total := legit_total c;
          counterfeit_total := counterfeit_total c;
          final_legit_on_time := final_legit_on_time c + 1;
          final_counterfeit_on_time := final_counterfeit_on_time c |}.

Definition zero_counters : Counters :=
  {| legit_total := 0; counterfeit_total := 0;
     final_legit_on_time := 0; final_counterfeit_on_time := 0 |}.

Definition compile_results (c : Counters) : Results :=
  {| r_final_legit_on_time := final_legit_on_time c;
     r_final_counterfeit_on_time := final_counterfeit_on_time c;
     r_final_legit_total := legit_total c;
     r_final_counterfeit_total := counterfeit_total c;
     r_total_surviving := final_legit_on_time c + final_counterfeit_on_time c |}.

Definition base_mean : Q := 4.74.
Definition base_var : Q := 0.785.

Section WithGenerator.
Variable G : Generator.

(** [for _stop in range(num_stops)]: each stop adds its time and then
    checks for warehouse theft; a theft breaks out of the loop.  Returns
    the transit time and the [stolen] flag. *)
Fixpoint stops_loop (num_stops : nat) (p_theft : Q) (transit_time : Q)
  : M G (Q * bool) :=
  match num_stops with
  | O => ret (transit_time, false)
  | S n =>
      extra_time <- np_normal 0.5 (np_sqrt G 0.6) ;;
      let transit_time := np_add transit_time extra_time in
      u <- np_random ;;
      if Qltb u p_theft then ret (transit_time, true)
      else stops_loop n p_theft transit_time
  end.

(** [num_stops = max(1, np.random.poisson(lambda_stops))]: the stop
    count, at least one since the Poisson draw can be zero. *)
Definition draw_num_stops (lambda_stops : Q) : M G Z :=
  num_stops <- np_poisson lambda_stops ;;
  ret (Z.max 1 num_stops).

(** The body of the shipment loop of [simulate_imported_drugs]; every
    [continue] is a return of the counters as they stand. *)
Definition imported_shipment (p : Probs) (c : Counters) : M G Counters :=
  (* A *)
  u <- np_random ;;
  let is_counterfeit := Qltb u (p_counterfeit p) in
  let c := count_class is_counterfeit c in
  (* B *)
  seized <- (if is_counterfeit
             then u <- np_random ;; ret (Qltb u (p_seized_export_counterfeit p))
             else u <- np_random ;; ret (Qltb u (p_seized_export_legit p))) ;;
  if seized : bool then ret c else
  (* C *)
  transit_time <- np_normal base_mean (np_sqrt G base_var) ;;
  (* D *)
  seized <- (if is_counterfeit
             then u <- np_random ;; ret (Qltb u (p_seized_import_counterfeit p))
             else u <- np_random ;; ret (Qltb u (p_seized_import_legit p))) ;;
  if seized : bool then ret c else
  (* E *)
  let lambda_stops := 3%Q in
  num_stops <- draw_num_stops lambda_stops ;;
  ' (transit_time, stolen) <-
      stops_loop (Z.to_nat num_stops) (p_warehouse_theft p) transit_time ;;
  if stolen : bool then ret c else
  (* F *)
  u <- np_random ;;
  if Qltb u (p_last_mile_theft p) then ret c else
  (* G *)
  if Qltb transit_time 7
  then ret (count_on_time is_counterfeit c)
  else ret c.

Definition draw_probs : M G Probs :=
  p_counterfeit <- np_uniform 0.1 0.2 ;;
  p_seized_export_counterfeit <- np_uniform 0.0001 0.001 ;;
  p_seized_export_legit <- np_beta 3 10000 ;;
  p_seized_import_counterfeit <- np_uniform 0.001 0.005 ;;
  p_seized_import_legit <- np_beta 3 10000 ;;
  p_warehouse_theft <- np_uniform 0.0000014 0.00001 ;;
  p_last_mile_theft <- np_uniform 0.0001 0.001 ;;
  ret {| p_counterfeit := p_counterfeit;
         p_seized_export_counterfeit := p_seized_export_counterfeit;
         p_seized_export_legit := p_seized_export_legit;
         p_seized_import_counterfeit := p_seized_import_counterfeit;
         p_seized_import_legit := p_seized_import_legit;
         p_warehouse_theft := p_warehouse_theft;
         p_last_mile_theft := p_last_mile_theft |}.

Definition simulate_imported_drugs (N : Z) : M G Results :=
  p <- draw_probs ;;
  c <- for_range (Z.to_nat N) (imported_shipment p) zero_counters ;;
  ret (compile_results c).

(** The body of the shipment loop of [simulate_local_drugs]. *)
Definition local_shipment
  (p_counterfeit_local p_warehouse_theft_local p_last_mile_theft_local : Q)
  (c : Counters) : M G Counters :=
  u <- np_random ;;
  let is_counterfeit := Qltb u p_counterfeit_local in
  let c := count_class is_counterfeit c in
  let transit_time := 0.0%Q in
  let lambda_stops := 1%Q in
  num_stops <- draw_num_stops lambda_stops ;;
  ' (transit_time, stolen) <-
      stops_loop (Z.to_nat num_stops) p_warehouse_theft_local transit_time ;;
  if stolen : bool then ret c else
  u <- np_random ;;
  if Qltb u p_last_mile_theft_local then ret c else
  if Qltb transit_time 7
  then ret (count_on_time is_counterfeit c)
  else ret c.

Definition simulate_local_drugs (N : Z) : M G LocalResults :=
  p_counterfeit_local <- np_uniform 0.1 0.25 ;;
  p_warehouse_theft_local <- np_uniform 0.0000014 0.00001 ;;
  p_last_mile_theft_local <- np_uniform 0.0001 0.001 ;;
  c <- for_range (Z.to_nat N)
         (local_shipment p_counterfeit_local p_warehouse_theft_local
                         p_last_mile_theft_local)
         zero_counters ;;
  ret {| l_results := compile_results c;
         l_p_counterfeit_local := p_counterfeit_local;
         l_p_warehouse_theft_local := p_warehouse_theft_local;
         l_p_last_mile_theft_local := p_last_mile_theft_local |}.

(** The eight lists filled by [main_simulation]. *)
Record Series : Type := {
  imported_legit_arrivals : list Q;
  imported_counterfeit_arrivals : list Q;
  local_legit_arrivals : list Q;
  local_counterfeit_arrivals : list Q;
  imported_legit_fraction : list Q;
  imported_counterfeit_fraction : list Q;
  local_legit_fraction : list Q;
  local_counterfeit_fraction : list Q
}.

Definition empty_series : Series :=
  {| imported_legit_arrivals := []; imported_counterfeit_arrivals := [];
     local_legit_arrivals := []; local_counterfeit_arrivals := [];
     imported_legit_fraction := []; imported_counterfeit_fraction := [];
     local_legit_fraction := []; local_counterfeit_fraction := [] |}.

(** The dictionary [results_summary]. *)
Record Summary : Type := {
  imported_mean_legit_fraction : float64;
  imported_mean_counterfeit_fraction : float64;
  local_mean_legit_fraction : float64;
  local_mean_counterfeit_fraction : float64;
  imported_legit_on_time : float64;
  imported_counterfeit_on_time : float64;
  local_legit_on_time : float64;
  local_counterfeit_on_time : float64
}.

(** [on_time / total if total > 0 else 0], written in the script as an
    [if]/[else] statement. *)
Definition arrived_fraction (on_time total : Z) : M G Q :=
  if total >? 0 then py_truediv on_time total else ret 0%Q.

(** One iteration of the loop of [main_simulation]. *)
Definition main_iteration (N : Z) (acc : Series) : M G Series :=
  imported_res <- simulate_imported_drugs N ;;
  local_res <- simulate_local_drugs N ;;
  let local_res := l_results local_res in
  (* Imported *)
  frac_legit_imported <- py_truediv (r_final_legit_total imported_res) N ;;
  frac_counterfeit_imported <-
    py_truediv (r_final_counterfeit_total imported_res) N ;;
  frac_legit_arrived <-
    arrived_fraction (r_final_legit_on_time imported_res)
                     (r_final_legit_total imported_res) ;;
  frac_counterfeit_arrived <-
    arrived_fraction (r_final_counterfeit_on_time imported_res)
                     (r_final_counterfeit_total imported_res) ;;
  (* Local *)
  frac_legit_local <- py_truediv (r_final_legit_total local_res) N ;;
  frac_counterfeit_local <-
    py_truediv (r_final_counterfeit_total local_res) N ;;
  frac_legit_local_arrived <-
    arrived_fraction (r_final_legit_on_time local_res)
                     (r_final_legit_total local_res) ;;
  frac_counterfeit_local_arrived <-
    arrived_fraction (r_final_counterfeit_on_time local_res)
                     (r_final_counterfeit_total local_res) ;;
  ret {| imported_legit_arrivals :=
           imported_legit_arrivals acc ++ [frac_legit_arrived];
         imported_counterfeit_arrivals :=
           imported_counterfeit_arrivals acc ++ [frac_counterfeit_arrived];
         local_legit_arrivals :=
           local_legit_arrivals acc ++ [frac_legit_local_arrived];
         local_counterfeit_arrivals :=
           local_counterfeit_arrivals acc ++ [frac_counterfeit_local_arrived];
         imported_legit_fraction :=
           imported_legit_fraction acc ++ [frac_legit_imported];
         imported_counterfeit_fraction :=
           imported_counterfeit_fraction acc ++ [frac_counterfeit_imported];
         local_legit_fraction :=
           local_legit_fraction acc ++ [frac_legit_local];
         local_counterfeit_fraction :=
           local_counterfeit_fraction acc ++ [frac_counterfeit_local] |}.

Definition summarise (acc : Series) : Summary :=
  {| imported_mean_legit_fraction := np_mean (imported_legit_fraction acc);
     imported_mean_counterfeit_fraction :=
       np_mean (imported_counterfeit_fraction acc);
     local_mean_legit_fraction := np_mean (local_legit_fraction acc);
     local_mean_counterfeit_fraction :=
       np_mean (local_counterfeit_fraction acc);
     imported_legit_on_time := np_mean (imported_legit_arrivals acc);
     imported_counterfeit_on_time :=
       np_mean (imported_counterfeit_arrivals acc);
     local_legit_on_time := np_mean (local_legit_arrivals acc);
     local_counterfeit_on_time := np_mean (local_counterfeit_arrivals acc) |}.

Definition main_simulation (num_sims N : Z) : M G Summary :=
  acc <- for_range (Z.to_nat num_sims) (main_iteration N) empty_series ;;
  ret (summarise acc).

(** The [__main__] block up to the printing of the summary, with the
    seed and the two arguments as parameters; the script itself is
    [seeded_simulation 42 1000 10000]. *)
Definition seeded_simulation (seed num_sims N : Z) : M G Summary :=
  _ <- np_seed seed ;;
  main_simulation num_sims N.

End WithGenerator.

End MC.

(** ** [distribution_regression.py] *)

Module Regression.

(** The shipment loop uses the same stage probabilities as [MC]. *)
Definition Probs : Type := MC.Probs.

(** The counters carried by the shipment loop. *)
Record Counters : Type := {
  legit_total : Z;
  counterfeit_total : Z;
  final_legit_on_time : Z;
  final_counterfeit_on_time : Z;
  total_transit_time : Q;
  arrived_shipments : Z;
  final_missing : Z
}.

Definition zero_counters : Counters :=
  {| legit_total := 0; counterfeit_total := 0;
     final_legit_on_time := 0; final_counterfeit_on_time := 0;
     total_transit_time := 0.0; arrived_shipments := 0;
     final_missing := 0 |}.

Definition count_class (is_counterfeit : bool) (c : Counters) : Counters :=
  if is_counterfeit
  then {| legit_total := legit_total c;
          counterfeit_total := counterfeit_total c + 1;
          final_legit_on_time := final_legit_on_time c;
          final_counterfeit_on_time := final_counterfeit_on_time c;
          total_transit_time := total_transit_time c;
          arrived_shipments := arrived_shipments c;
          final_missing := final_missing c |}
  else {| legit_total := legit_total c + 1;
          counterfeit_total := counterfeit_total c;
          final_legit_on_time := final_legit_on_time c;
          final_counterfeit_on_time := final_counterfeit_on_time c;
          total_transit_time := total_transit_time c;
          arrived_shipments := arrived_shipments c;
          final_missing := final_missing c |}.

Definition count_on_time (is_counterfeit : bool) (c : Counters) : Counters :=
  if is_counterfeit
  then {| legit_total := legit_total c;
          counterfeit_total := counterfeit_total c;
          final_legit_on_time := final_legit_on_time c;
          final_counterfeit_on_time := final_counterfeit_on_time c + 1;
          total_transit_time := total_transit_time c;
          arrived_shipments := arrived_shipments c;
          final_missing := final_missing c |}
  else {| legit_total := legit_total c;
          counterfeit_total := counterfeit_total c;
          final_legit_on_time := final_legit_on_time c + 1;
          final_counterfeit_on_time := final_counterfeit_on_time c;
          total_transit_time := total_transit_time c;
          arrived_shipments := arrived_shipments c;
          final_missing := final_missing c |}.

(** [final_missing += 1] *)
Definition count_missing (c : Counters) : Counters :=
  {| legit_total := legit_total c;
     counterfeit_total := counterfeit_total c;
     final_legit_on_time := final_legit_on_time c;
     final_counterfeit_on_time := final_counterfeit_on_time c;
     total_transit_time := total_transit_time c;
     arrived_shipments := arrived_shipments c;
     final_missing := final_missing c + 1 |}.

(** [arrived_shipments += 1; total_transit_time += transit_time] *)
Definition count_arrival (transit_time : Q) (c : Counters) : Counters :=
  {| legit_total := legit_total c;
     counterfeit_total := counterfeit_total c;
     final_legit_on_time := final_legit_on_time c;
     final_counterfeit_on_time := final_counterfeit_on_time c;
     total_transit_time := (total_transit_time c + transit_time)%Q;
     arrived_shipments := arrived_shipments c + 1;
     final_missing := final_missing c |}.

(** The counter entries of the dictionary returned by both simulators. *)
Record Results : Type := {
  r_final_legit_on_time : Z;
  r_final_counterfeit_on_time : Z;
  r_final_missing : Z;
  r_final_legit_total : Z;
  r_final_counterfeit_total : Z;
  r_total_surviving : Z;
  r_avg_transit_time : Q
}.

(** [simulate_imported_drugs] adds the probabilities it drew. *)
Record ImportedResults : Type := {
  i_results : Results;
  i_probs : Probs
}.

Record LocalResults : Type := {
  l_results : Results;
  l_p_counterfeit_local : Q;
  l_p_warehouse_theft_local : Q;
  l_p_last_mile_theft_local : Q
}.

Definition compile_results (c : Counters) : Results :=
  let avg_transit_time :=
    if arrived_shipments c >? 0
    then (total_transit_time c / inject_Z (arrived_shipments c))%Q
    else 0.0%Q in
  {| r_final_legit_on_time := final_legit_on_time c;
     r_final_counterfeit_on_time := final_counterfeit_on_time c;
     r_final_missing := final_missing c;
     r_final_legit_total := legit_total c;
     r_final_counterfeit_total := counterfeit_total c;
     r_total_surviving := final_legit_on_time c + final_counterfeit_on_time c;
     r_avg_transit_time := avg_transit_time |}.

(** One row of [imported_data]. *)
Record ImportedRow : Type := {
  row_p_counterfeit : Q;
  row_p_seized_export_counterfeit : Q;
  row_p_seized_export_legit : Q;
  row_p_seized_import_counterfeit : Q;
  row_p_seized_import_legit : Q;
  row_p_warehouse_theft : Q;
  row_p_last_mile_theft : Q;
  row_avg_transit_time : Q;
  row_missing_frac : Q
}.

(** One row of [local_data]. *)
Record LocalRow : Type := {
  lrow_p_counterfeit_local : Q;
  lrow_p_warehouse_theft_local : Q;
  lrow_p_last_mile_theft_local : Q;
  lrow_avg_transit_time_local : Q;
  lrow_missing_frac : Q
}.

Definition base_mean : Q := 4.74.
Definition base_var : Q := 0.785.

Section WithGenerator.
Variable G : Generator.

(** The stop loop; a warehouse theft counts the shipment as missing
    inside the loop, sets [stolen] and breaks. *)
Fixpoint stops_loop (num_stops : nat) (p_theft : Q) (transit_time : Q)
  (c : Counters) : M G (Q * bool * Counters) :=
  match num_stops with
  | O => ret (transit_time, false, c)
  | S n =>
      extra_time <- np_normal 0.5 (np_sqrt G 0.6) ;;
      let transit_time := np_add transit_time extra_time in
      u <- np_random ;;
      if Qltb u p_theft then ret (transit_time, true, count_missing c)
      else stops_loop n p_theft transit_time c
  end.

(** [num_stops = max(1, np.random.poisson(lambda_stops))] *)
Definition draw_num_stops (lambda_stops : Q) : M G Z :=
  num_stops <- np_poisson lambda_stops ;;
  ret (Z.max 1 num_stops).

(** The body of the shipment loop of [simulate_imported_drugs]. *)
Definition imported_shipment (p : Probs) (c : Counters) : M G Counters :=
  (* A *)
  u <- np_random ;;
  let is_counterfeit := Qltb u (MC.p_counterfeit p) in
  let c := count_class is_counterfeit c in
  (* B *)
  seized <- (if is_counterfeit
             then u <- np_random ;;
                  ret (Qltb u (MC.p_seized_export_counterfeit p))
             else u <- np_random ;;
                  ret (Qltb u (MC.p_seized_export_legit p))) ;;
  if seized : bool then ret (count_missing c) else
  (* C *)
  transit_time <- np_normal base_mean (np_sqrt G base_var) ;;
  (* D *)
  seized <- (if is_counterfeit
             then u <- np_random ;;
                  ret (Qltb u (MC.p_seized_import_counterfeit p))
             else u <- np_random ;;
                  ret (Qltb u (MC.p_seized_import_legit p))) ;;
  if seized : bool then ret (count_missing c) else
  (* E *)
  let lambda_stops := 3%Q in
  num_stops <- draw_num_stops lambda_stops ;;
  ' (transit_time, stolen, c) <-
      stops_loop (Z.to_nat num_stops) (MC.p_warehouse_theft p)
                 transit_time c ;;
  if stolen : bool then ret c else
  (* F *)
  u <- np_random ;;
  if Qltb u (MC.p_last_mile_theft p) then ret (count_missing c) else
  let c := count_arrival transit_time c in
  (* G *)
  if Qltb transit_time 7
  then ret (count_on_time is_counterfeit c)
  else ret (count_missing c).

Definition simulate_imported_drugs (N : Z) : M G ImportedResults :=
  p <- MC.draw_probs G ;;
  c <- for_range (Z.to_nat N) (imported_shipment p) zero_counters ;;
  ret {| i_results := compile_results c; i_probs := p |}.

(** The body of the shipment loop of [simulate_local_drugs]. *)
Definition local_shipment
  (p_counterfeit_local p_warehouse_theft_local p_last_mile_theft_local : Q)
  (c : Counters) : M G Counters :=
  u <- np_random ;;
  let is_counterfeit := Qltb u p_counterfeit_local in
  let c := count_class is_counterfeit c in
  let transit_time := 0.0%Q in
  let lambda_stops := 1%Q in
  num_stops <- draw_num_stops lambda_stops ;;
  ' (transit_time, stolen, c) <-
      stops_loop (Z.to_nat num_stops) p_warehouse_theft_local
                 transit_time c ;;
  if stolen : bool then ret c else
  u <- np_random ;;
  if Qltb u p_last_mile_theft_local then ret (count_missing c) else
  let c := count_arrival transit_time c in
  if Qltb transit_time 7
  then ret (count_on_time is_counterfeit c)
  else ret (count_missing c).

Definition simulate_local_drugs (N : Z) : M G LocalResults :=
  p_counterfeit_local <- np_uniform 0.1 0.25 ;;
  p_warehouse_theft_local <- np_uniform 0.0000014 0.00001 ;;
  p_last_mile_theft_local <- np_uniform 0.0001 0.001 ;;
  c <- for_range (Z.to_nat N)
         (local_shipment p_counterfeit_local p_warehouse_theft_local
                         p_last_mile_theft_local)
         zero_counters ;;
  ret {| l_results := compile_results c;
         l_p_counterfeit_local := p_counterfeit_local;
         l_p_warehouse_theft_local := p_warehouse_theft_local;
         l_p_last_mile_theft_local := p_last_mile_theft_local |}.

(** One iteration of the loop of [main_simulation], appending one row to
    each of [imported_data] and [local_data]. *)
Definition main_iteration (N : Z)
  (acc : list ImportedRow * list LocalRow)
  : M G (list ImportedRow * list LocalRow) :=
  let (imported_data, local_data) := acc in
  imported_res <- simulate_imported_drugs N ;;
  local_res <- simulate_local_drugs N ;;
  missing_fraction_imported <-
    py_truediv (r_final_missing (i_results imported_res)) N ;;
  missing_fraction_local <-
    py_truediv (r_final_missing (l_results local_res)) N ;;
  let p := i_probs imported_res in
  ret (imported_data ++
         [ {| row_p_counterfeit := MC.p_counterfeit p;
              row_p_seized_export_counterfeit :=
                MC.p_seized_export_counterfeit p;
              row_p_seized_export_legit := MC.p_seized_export_legit p;
              row_p_seized_import_counterfeit :=
                MC.p_seized_import_counterfeit p;
              row_p_seized_import_legit := MC.p_seized_import_legit p;
              row_p_warehouse_theft := MC.p_warehouse_theft p;
              row_p_last_mile_theft := MC.p_last_mile_theft p;
              row_avg_transit_time :=
                r_avg_transit_time (i_results imported_res);
              row_missing_frac := missing_fraction_imported |} ],
       local_data ++
         [ {| lrow_p_counterfeit_local := l_p_counterfeit_local local_res;
              lrow_p_warehouse_theft_local :=
                l_p_warehouse_theft_local local_res;
              lrow_p_last_mile_theft_local :=
                l_p_last_mile_theft_local local_res;
              lrow_avg_transit_time_local :=
                r_avg_transit_time (l_results local_res);
              lrow_missing_frac := missing_fraction_local |} ]).

(** Returns the two data frames, as the lists of their rows. *)
Definition main_simulation (num_sims N : Z)
  : M G (list ImportedRow * list LocalRow) :=
  for_range (Z.to_nat num_sims) (main_iteration N) ([], []).

End WithGenerator.

End Regression.

(** ** [distribution_batch.py] *)

Module Batch.

(** The tuple returned by [simulate_imported_batch]. *)
Record BatchResult : Type := {
  final_legit : Z;
  final_counterfeit : Z;
  legit_import : Z;
  counterfeit_import : Z
}.

(** The four lists filled by [batch_simulation]. *)
Record Series : Type := {
  imported_legit_arrivals : list Q;
  imported_counterfeit_arrivals : list Q;
  imported_legit_total : list Z;
  imported_counterfeit_total : list Z
}.

Definition empty_series : Series :=
  {| imported_legit_arrivals := []; imported_counterfeit_arrivals := [];
     imported_legit_total := []; imported_counterfeit_total := [] |}.

(** The dictionary [results_summary]. *)
Record Summary : Type := {
  imported_mean_legit_fraction : float64;
  imported_mean_counterfeit_fraction : float64;
  imported_legit_on_time : float64;
  imported_counterfeit_on_time : float64
}.

Section WithGenerator.
Variable G : Generator.

Definition simulate_imported_batch (N : Z) : M G BatchResult :=
  (* 1. Counterfeit vs. legit *)
  p_counterfeit <- np_uniform 0.1 0.2 ;;
  counterfeit_import <- np_binomial N p_counterfeit ;;
  let legit_import := N - counterfeit_import in
  (* 2. Export customs seizure *)
  p_seized_export_counterfeit <- np_uniform 0.0001 0.001 ;;
  p_seized_export_legit <- np_beta 3 10000 ;;
  let lambda_export_counterfeit :=
    py_mul counterfeit_import p_seized_export_counterfeit in
  let lambda_export_legit :=
    py_mul legit_import p_seized_export_legit in
  seized_export_counterfeit <- np_poisson lambda_export_counterfeit ;;
  seized_export_legit <- np_poisson lambda_export_legit ;;
  let remaining_counterfeit_export :=
    Z.max 0 (counterfeit_import - seized_export_counterfeit) in
  let remaining_legit_export :=
    Z.max 0 (legit_import - seized_export_legit) in
  (* 3. Import customs seizure *)
  p_seized_import_counterfeit <- np_uniform 0.001 0.005 ;;
  p_seized_import_legit <- np_beta 3 10000 ;;
  let lambda_import_counterfeit :=
    py_mul remaining_counterfeit_export p_seized_import_counterfeit in
  let lambda_import_legit :=
    py_mul remaining_legit_export p_seized_import_legit in
  seized_import_counterfeit <- np_poisson lambda_import_counterfeit ;;
  seized_import_legit <- np_poisson lambda_import_legit ;;
  let remaining_counterfeit_import :=
    Z.max 0 (remaining_counterfeit_export - seized_import_counterfeit) in
  let remaining_legit_import :=
    Z.max 0 (remaining_legit_export - seized_import_legit) in
  (* 4. Transit time *)
  transit_times <- np_normal_n 4.74 (np_sqrt G 0.785) N ;;
  let on_time_mask := map (fun t => Qltb t 7) transit_times in
  let frac_on_time := np_true_divide (np_sum_mask on_time_mask) N in
  legit_on_time_import <-
    py_int (np_multiply remaining_legit_import frac_on_time) ;;
  counterf_on_time_import <-
    py_int (np_multiply remaining_counterfeit_import frac_on_time) ;;
  (* 5. Warehouse theft *)
  p_warehouse_theft <- np_uniform 0.0000014 0.00001 ;;
  let lambda_warehouse_theft_legit :=
    py_mul legit_on_time_import p_warehouse_theft in
  let lambda_warehouse_theft_counterfeit :=
    py_mul counterf_on_time_import p_warehouse_theft in
  theft_legit_warehouse <- np_poisson lambda_warehouse_theft_legit ;;
  theft_counterfeit_warehouse <-
    np_poisson lambda_warehouse_theft_counterfeit ;;
  let remaining_legit_warehouse :=
    Z.max 0 (legit_on_time_import - theft_legit_warehouse) in
  let remaining_counterfeit_warehouse :=
    Z.max 0 (counterf_on_time_import - theft_counterfeit_warehouse) in
  (* 6. Last-mile theft *)
  p_last_mile_theft <- np_uniform 0.0001 0.001 ;;
  let lambda_last_mile_theft_legit :=
    py_mul remaining_legit_warehouse p_last_mile_theft in
  let lambda_last_mile_theft_counterfeit :=
    py_mul remaining_counterfeit_warehouse p_last_mile_theft in
  theft_legit_last_mile <- np_poisson lambda_last_mile_theft_legit ;;
  theft_counterfeit_last_mile <-
    np_poisson lambda_last_mile_theft_counterfeit ;;
  let final_legit :=
    Z.max 0 (remaining_legit_warehouse - theft_legit_last_mile) in
  let final_counterfeit :=
    Z.max 0 (remaining_counterfeit_warehouse - theft_counterfeit_last_mile) in
  ret {| final_legit := final_legit;
         final_counterfeit := final_counterfeit;
         legit_import := legit_import;
         counterfeit_import := counterfeit_import |}.

(** [on_time / total if total > 0 else 0] *)
Definition arrived_fraction (on_time total : Z) : M G Q :=
  if total >? 0 then py_truediv on_time total else ret 0%Q.

(** One iteration of the loop of [batch_simulation]. *)
Definition batch_iteration (N : Z) (acc : Series) : M G Series :=
  r <- simulate_imported_batch N ;;
  let imp_legit := final_legit r in
  let imp_counter := final_counterfeit r in
  let imp_legit_tot := legit_import r in
  let imp_counter_tot := counterfeit_import r in
  legit_arrival <- arrived_fraction imp_legit imp_legit_tot ;;
  counterfeit_arrival <- arrived_fraction imp_counter imp_counter_tot ;;
  ret {| imported_legit_arrivals :=
           imported_legit_arrivals acc ++ [legit_arrival];
         imported_counterfeit_arrivals :=
           imported_counterfeit_arrivals acc ++ [counterfeit_arrival];
         imported_legit_total :=
           imported_legit_total acc ++ [imp_legit_tot];
         imported_counterfeit_total :=
           imported_counterfeit_total acc ++ [imp_counter_tot] |}.

Definition summarise (N : Z) (acc : Series) : Summary :=
  {| imported_mean_legit_fraction :=
       np_divide (np_mean (map inject_Z (imported_legit_total acc))) N;
     imported_mean_counterfeit_fraction :=
       np_divide (np_mean (map inject_Z (imported_counterfeit_total acc))) N;
     imported_legit_on_time := np_mean (imported_legit_arrivals acc);
     imported_counterfeit_on_time :=
       np_mean (imported_counterfeit_arrivals acc) |}.

Definition batch_simulation (num_sims N : Z) : M G Summary :=
  acc <- for_range (Z.to_nat num_sims) (batch_iteration N) empty_series ;;
  ret (summarise N acc).

(** The [__main__] block up to the printing of the summary, with the
    seed and the two arguments as parameters; the script itself is
    [seeded_simulation 42 1000 10000]. *)
Definition seeded_simulation (seed num_sims N : Z) : M G Summary :=
  _ <- np_seed seed ;;
  batch_simulation num_sims N.

End WithGenerator.

End Batch.

(** ** The journey of one shipment, as the specification words it

    The stage pipeline of one shipment with its terminal status, and the two
    ways of folding an outcome into the counters of a run.  The shipment
    bodies of [MC] and [Regression] are compared with these below. *)

Module Journey.

Inductive path : Type := imported | local.

Inductive terminal_status : Type :=
| seized_export
| seized_import
| stolen_warehouse
| stolen_last_mile
| late_arrival
| on_time.

Record ShipmentOutcome : Type := {
  is_counterfeit : bool;
  transit_time : Q;
  status : terminal_status
}.

(** The shipment reached the arrival check. *)
Definition arrived (o : ShipmentOutcome) : bool :=
  match status o with
  | on_time | late_arrival => true
  | _ => false
  end.

(** Terminated by a seizure or a theft before the arrival check. *)
Definition terminated_early (o : ShipmentOutcome) : bool :=
  match status o with
  | seized_export | seized_import | stolen_warehouse | stolen_last_mile => true
  | _ => false
  end.

Definition is_on_time (o : ShipmentOutcome) : bool :=
  match status o with
  | on_time => true
  | _ => false
  end.

(** What the outcome adds to the on-time count of a class. *)
Definition on_time_count (counterfeit : bool) (o : ShipmentOutcome) : Z :=
  if is_on_time o && Bool.eqb (is_counterfeit o) counterfeit then 1 else 0.

(** On time: arrived with a transit time strictly below seven days. *)
Definition on_time_spec (o : ShipmentOutcome) : Prop :=
  status o = on_time <-> arrived o = true /\ (transit_time o < 7)%Q.

Section WithGenerator.
Variable G : Generator.

(** A seizure stage: one uniform draw against the probability of the
    shipment's class. *)
Definition seizure (counterfeit : bool) (p_if_counterfeit p_if_legit : Q)
  : M G bool :=
  u <- np_random ;;
  ret (Qltb u (if counterfeit then p_if_counterfeit else p_if_legit)).

(** Step 5: the stops in order; each adds its time, a sum of doubles, then
    checks for warehouse theft; a hit abandons the remaining stops. *)
Fixpoint stop_sequence (stops : nat) (p_theft : Q) (t : Q)
  : M G (Q * bool) :=
  match stops with
  | O => ret (t, false)
  | S n =>
      leg <- np_normal 0.5 (np_sqrt G 0.6) ;;
      u <- np_random ;;
      if Qltb u p_theft then ret (np_add t leg, true)
      else stop_sequence n p_theft (np_add t leg)
  end.

(** Steps 5 to 7, common to both paths. *)
Definition stops_to_arrival (lambda : Q) (p : MC.Probs)
  (counterfeit : bool) (t : Q) : M G ShipmentOutcome :=
  k <- np_poisson lambda ;;
  ' (t, stolen) <-
      stop_sequence (Z.to_nat (Z.max 1 k)) (MC.p_warehouse_theft p) t ;;
  if stolen : bool
  then ret {| is_counterfeit := counterfeit; transit_time := t;
              status := stolen_warehouse |}
  else
    u <- np_random ;;
    if Qltb u (MC.p_last_mile_theft p)
    then ret {| is_counterfeit := counterfeit; transit_time := t;
                status := stolen_last_mile |}
    else ret {| is_counterfeit := counterfeit; transit_time := t;
                status := if Qltb t 7.0 then on_time else late_arrival |}.

(** Steps 1 to 7.  The local path has no seizure stage and no base leg;
    of the stage probabilities it reads the counterfeit rate and the two
    theft rates. *)
Definition journey (via : path) (p : MC.Probs) : M G ShipmentOutcome :=
  u <- np_random ;;
  let counterfeit := Qltb u (MC.p_counterfeit p) in
  match via with
  | imported =>
      seized <- seizure counterfeit (MC.p_seized_export_counterfeit p)
                        (MC.p_seized_export_legit p) ;;
      if seized : bool
      then ret {| is_counterfeit := counterfeit; transit_time := 0.0;
                  status := seized_export |}
      else
        t <- np_normal 4.74 (np_sqrt G 0.785) ;;
        seized <- seizure counterfeit (MC.p_seized_import_counterfeit p)
                          (MC.p_seized_import_legit p) ;;
        if seized : bool
        then ret {| is_counterfeit := counterfeit; transit_time := t;
                    status := seized_import |}
        else stops_to_arrival 3 p counterfeit t
  | local => stops_to_arrival 1 p counterfeit 0.0
  end.

End WithGenerator.

(** Mode A (basic): the class total, and the on-time count of the class. *)
Definition fold_basic (o : ShipmentOutcome) (c : MC.Counters) : MC.Counters :=
  let c := MC.count_class (is_counterfeit o) c in
  match status o with
  | on_time => MC.count_on_time (is_counterfeit o) c
  | _ => c
  end.

(** Mode B (unified missing): every status other than on-time counts as
    missing; the transit time is added to the run total for arrived
    shipments only. *)
Definition fold_unified (o : ShipmentOutcome) (c : Regression.Counters)
  : Regression.Counters :=
  let c := Regression.count_class (is_counterfeit o) c in
  let c := if arrived o
           then Regression.count_arrival (transit_time o) c else c in
  match status o with
  | on_time => Regression.count_on_time (is_counterfeit o) c
  | _ => Regression.count_missing c
  end.

(** The stage probabilities [p] with the warehouse-theft probability set to
    [q]. *)
Definition with_warehouse_theft (p : MC.Probs) (q : Q) : MC.Probs :=
  {| MC.p_counterfeit := MC.p_counterfeit p;
     MC.p_seized_export_counterfeit := MC.p_seized_export_counterfeit p;
     MC.p_seized_export_legit := MC.p_seized_export_legit p;
     MC.p_seized_import_counterfeit := MC.p_seized_import_counterfeit p;
     MC.p_seized_import_legit := MC.p_seized_import_legit p;
     MC.p_warehouse_theft := q;
     MC.p_last_mile_theft := MC.p_last_mile_theft p |}.

(** The stage probabilities of a local run, in the shape [journey] reads. *)
Definition local_probs
  (p_counterfeit_local p_warehouse_theft_local p_last_mile_theft_local : Q)
  : MC.Probs :=
  {| MC.p_counterfeit := p_counterfeit_local;
     MC.p_seized_export_counterfeit := 0;
     MC.p_seized_export_legit := 0;
     MC.p_seized_import_counterfeit := 0;
     MC.p_seized_import_legit := 0;
     MC.p_warehouse_theft := p_warehouse_theft_local;
     MC.p_last_mile_theft := p_last_mile_theft_local |}.

End Journey.

(** ** A replayable generator

    A concrete [Generator] whose state is the list of values still to be
    drawn: each draw takes the head of the list and brings it into the
    support of the distribution asked for; an exhausted list gives zeros.
    It plays the part of a mocked [np.random] in a test. *)

Module Tape.

Definition next (s : list Q) : Q * list Q :=
  match s with
  | [] => (0%Q, [])
  | x :: s' => (x, s')
  end.

Definition clamp (lo hi x : Q) : Q :=
  if Qltb x lo then lo else if Qltb hi x then hi else x.

Definition frac (x : Q) : Q := (x - inject_Z (Qfloor x))%Q.

Definition random (s : list Q) : Q * list Q :=
  let (x, s') := next s in (frac x, s').

Definition uniform (low high : Q) (s : list Q) : Q * list Q :=
  let (x, s') := next s in (clamp low high x, s').

Definition beta (a b : Q) (s : list Q) : Q * list Q :=
  let (x, s') := next s in (clamp 0 1 x, s').

Definition normal (loc scale : Q) (s : list Q) : Q * list Q := next s.

Definition poisson (lam : Q) (s : list Q) : Z * list Q :=
  let (x, s') := next s in (Z.max 0 (Qfloor x), s').

Definition binomial (n : Z) (p : Q) (s : list Q) : Z * list Q :=
  let (x, s') := next s in (Z.max 0 (Z.min n (Qfloor x)), s').

(** A rational approximation of the square root, to six decimals. *)
Definition sqrt (x : Q) : Q :=
  Z.sqrt (Qnum x * QDen x * 10 ^ 12) # (Qden x * 10 ^ 6).

(** A recorded stream: the seven stage probabilities of an imported run,
    then the draws of one legitimate shipment that makes two stops and
    arrives after 5.7 days. *)
Definition sample : list Q :=
  [0.15; 0.0005; 0.0003; 0.003; 0.0003; 0.000005; 0.0005;
   0.5; 0.5; 4.7; 0.5; 2; 0.5; 0.5; 0.5; 0.5; 0.5]%Q.

(** A stream and stage probabilities on which a warehouse theft changes
    which draws the next shipment reads. *)
Definition shifted : list Q :=
  [0.5; 0.5; 4.7; 0.5; 2; 0.5; 0.000005;
   0.5; 0.5; 4.0; 0.5; 1; 0.5; 0.5; 0.5]%Q.

Definition probs_lo : MC.Probs :=
  {| MC.p_counterfeit := 0.15;
     MC.p_seized_export_counterfeit := 0.0005;
     MC.p_seized_export_legit := 0.0003;
     MC.p_seized_import_counterfeit := 0.003;
     MC.p_seized_import_legit := 0.0003;
     MC.p_warehouse_theft := 0.000002;
     MC.p_last_mile_theft := 0.0005 |}.

Definition generator : Generator :=
  {| rng := list Q;
     gen_seed := fun _ => [];
     gen_random := random;
     gen_uniform := uniform;
     gen_beta := beta;
     gen_normal := normal;
     gen_poisson := poisson;
     gen_binomial := binomial;
     gen_sqrt := sqrt |}.

End Tape.

(** ** Invariants of the shipment loops *)

(** The basic shipment loop after [k] shipments. *)
Definition basic_inv (k : nat) (c : MC.Counters) : Prop :=
  MC.legit_total c + MC.counterfeit_total c = Z.of_nat k /\
  0 <= MC.final_legit_on_time c <= MC.legit_total c /\
  0 <= MC.final_counterfeit_on_time c <= MC.counterfeit_total c.

(** The unified-missing shipment loop after [k] shipments. *)
Definition unified_inv (k : nat) (c : Regression.Counters) : Prop :=
  Regression.legit_total c + Regression.counterfeit_total c = Z.of_nat k /\
  Regression.final_legit_on_time c + Regression.final_counterfeit_on_time c
    + Regression.final_missing c = Z.of_nat k /\
  0 <= Regression.final_legit_on_time c /\
  0 <= Regression.final_counterfeit_on_time c /\
  0 <= Regression.final_missing c.

(** The unified-missing counters of a finished run of [n] shipments. *)
Definition unified_results (n : Z) (r : Regression.Results) : Prop :=
  Regression.r_final_legit_total r + Regression.r_final_counterfeit_total r = n /\
  Regression.r_final_legit_on_time r + Regression.r_final_counterfeit_on_time r
    + Regression.r_final_missing r = n /\
  0 <= Regression.r_final_missing r <= n.

(** A fraction of the shipments of a run. *)
Definition in_unit_interval (q : Q) : Prop := (0 <= q)%Q /\ (q <= 1)%Q.

(** The counts returned by a batch run of [n] shipments. *)
Definition batch_results (n : Z) (r : Batch.BatchResult) : Prop :=
  Batch.legit_import r + Batch.counterfeit_import r = n /\
  0 <= Batch.final_legit r <= Batch.legit_import r /\
  0 <= Batch.final_counterfeit r <= Batch.counterfeit_import r.

(** ** Notions for the further properties *)

(** The counters that the unified-missing loop shares with the basic one. *)
Definition basic_of (c : Regression.Counters) : MC.Counters :=
  {| MC.legit_total := Regression.legit_total c;
     MC.counterfeit_total := Regression.counterfeit_total c;
     MC.final_legit_on_time := Regression.final_legit_on_time c;
     MC.final_counterfeit_on_time := Regression.final_counterfeit_on_time c |}.

(** A finite mean that is a fraction. *)
Definition finite_fraction (x : float64) : Prop :=
  exists q, x = Fin q /\ in_unit_interval q.

(** Two series of per-run fractions that add up to one run by run. *)
Definition complementary_series (l1 l2 : list Q) : Prop :=
  Forall2 (fun a b => (a + b == 1)%Q) l1 l2.

(** The eight series of [main_simulation] after [n] runs. *)
Definition mc_series_ok (n : nat) (acc : MC.Series) : Prop :=
  (length (MC.imported_legit_arrivals acc) = n /\
   length (MC.imported_counterfeit_arrivals acc) = n /\
   length (MC.local_legit_arrivals acc) = n /\
   length (MC.local_counterfeit_arrivals acc) = n /\
   length (MC.imported_legit_fraction acc) = n /\
   length (MC.imported_counterfeit_fraction acc) = n /\
   length (MC.local_legit_fraction acc) = n /\
   length (MC.local_counterfeit_fraction acc) = n) /\
  (Forall in_unit_interval (MC.imported_legit_arrivals acc) /\
   Forall in_unit_interval (MC.imported_counterfeit_arrivals acc) /\
   Forall in_unit_interval (MC.local_legit_arrivals acc) /\
   Forall in_unit_interval (MC.local_counterfeit_arrivals acc) /\
   Forall in_unit_interval (MC.imported_legit_fraction acc) /\
   Forall in_unit_interval (MC.imported_counterfeit_fraction acc) /\
   Forall in_unit_interval (MC.local_legit_fraction acc) /\
   Forall in_unit_interval (MC.local_counterfeit_fraction acc)) /\
  complementary_series (MC.imported_legit_fraction acc)
                       (MC.imported_counterfeit_fraction acc) /\
  complementary_series (MC.local_legit_fraction acc)
                       (MC.local_counterfeit_fraction acc).

(** The counters of a finished basic run of [n] shipments. *)
Definition basic_results (n : Z) (r : MC.Results) : Prop :=
  MC.r_final_legit_total r + MC.r_final_counterfeit_total r = n /\
  0 <= MC.r_final_legit_on_time r <= MC.r_final_legit_total r /\
  0 <= MC.r_final_counterfeit_on_time r <= MC.r_final_counterfeit_total r /\
  MC.r_total_surviving r
  = MC.r_final_legit_on_time r + MC.r_final_counterfeit_on_time r.

(** The unified-missing loop after [k] shipments of which none is missing:
    all of them arrived, each in less than seven days. *)
Definition punctual_inv (k : nat) (c : Regression.Counters) : Prop :=
  0 <= Regression.final_missing c /\
  (Regression.final_missing c = 0 ->
   Regression.arrived_shipments c = Z.of_nat k /\
   (Regression.total_transit_time c <= 7 * inject_Z (Z.of_nat k))%Q /\
   (0 < Z.of_nat k ->
    (Regression.total_transit_time c < 7 * inject_Z (Z.of_nat k))%Q)).

(** The four series of [batch_simulation] after [n] runs of [N] shipments. *)
Definition batch_series_ok (N : Z) (n : nat) (acc : Batch.Series) : Prop :=
  length (Batch.imported_legit_arrivals acc) = n /\
  length (Batch.imported_counterfeit_arrivals acc) = n /\
  length (Batch.imported_legit_total acc) = n /\
  Forall in_unit_interval (Batch.imported_legit_arrivals acc) /\
  Forall in_unit_interval (Batch.imported_counterfeit_arrivals acc) /\
  Forall (fun t => 0 <= t <= N) (Batch.imported_legit_total acc) /\
  Forall (fun t => 0 <= t <= N) (Batch.imported_counterfeit_total acc) /\
  Forall2 (fun a b => a + b = N) (Batch.imported_legit_total acc)
          (Batch.imported_counterfeit_total acc).

(** The basic counters [c'] show no more on-time shipments than [c], over the
    same class totals. *)
Definition no_more_on_time (c' c : MC.Counters) : Prop :=
  MC.legit_total c' = MC.legit_total c /\
  MC.counterfeit_total c' = MC.counterfeit_total c /\
  MC.final_legit_on_time c' <= MC.final_legit_on_time c /\
  MC.final_counterfeit_on_time c' <= MC.final_counterfeit_on_time c.

(** The same for the unified-missing counters, with no fewer missing. *)
Definition no_fewer_missing (c' c : Regression.Counters) : Prop :=
  Regression.legit_total c' = Regression.legit_total c /\
  Regression.counterfeit_total c' = Regression.counterfeit_total c /\
  Regression.final_legit_on_time c' <= Regression.final_legit_on_time c /\
  Regression.final_counterfeit_on_time c'
    <= Regression.final_counterfeit_on_time c /\
  Regression.final_missing c <= Regression.final_missing c'.

(** The stage probabilities [p] with the last-mile theft probability set to
    [q]. *)
Definition with_last_mile_theft (p : MC.Probs) (q : Q) : MC.Probs :=
  {| MC.p_counterfeit := MC.p_counterfeit p;
     MC.p_seized_export_counterfeit := MC.p_seized_export_counterfeit p;
     MC.p_seized_export_legit := MC.p_seized_export_legit p;
     MC.p_seized_import_counterfeit := MC.p_seized_import_counterfeit p;
     MC.p_seized_import_legit := MC.p_seized_import_legit p;
     MC.p_warehouse_theft := MC.p_warehouse_theft p;
     MC.p_last_mile_theft := q |}.

(** ** Normal returns *)

Section Returns.
Context {G : Generator}.

(** [m], run from the state [s], raises nothing and ends with a value and a
    state that satisfy [post]. *)
Definition returns {A} (m : M G A) (s : rng G)
  (post : A -> rng G -> Prop) : Prop :=
  match m s with
  | (Ok a, s') => post a s'
  | (Raise _, _) => False
  end.

(** Partial correctness: if [m] returns normally from [s], the value and the
    state satisfy [post]. *)
Definition partial {A} (m : M G A) (s : rng G)
  (post : A -> rng G -> Prop) : Prop :=
  match m s with
  | (Ok a, s') => post a s'
  | (Raise _, _) => True
  end.

(** [m], run from [s], raises [e]. *)
Definition raises {A} (e : exn) (m : M G A) (s : rng G) : Prop :=
  exists s', m s = (Raise e, s').

(** [m] raises nothing but [e]. *)
Definition raises_only {A} (e : exn) (m : M G A) : Prop :=
  forall s, match m s with
            | (Ok _, _) => True
            | (Raise e', _) => e' = e
            end.

Lemma returns_iff {A} (m : M G A) s post :
  returns m s post <-> exists a s', m s = (Ok a, s') /\ post a s'.
Proof.
  unfold returns. destruct (m s) as [[a | e] s']; split.
  - intros H. now exists a, s'.
  - intros (a' & s'' & E & H). now inversion E; subst.
  - intros [].
  - intros (a' & s'' & E & _). discriminate.
Qed.

Lemma returns_ret {A} (a : A) s (post : A -> rng G -> Prop) :
  post a s -> returns (ret a) s post.
Proof. intros H; exact H. Qed.

Lemma returns_bind {A B} (m : M G A) (f : A -> M G B) s post :
  returns m s (fun a s' => returns (f a) s' post) ->
  returns (bind m f) s post.
Proof.
  unfold returns, bind. destruct (m s) as [[a | e] s']; auto.
Qed.

Lemma returns_weaken {A} (m : M G A) s (P Q : A -> rng G -> Prop) :
  returns m s P -> (forall a s', P a s' -> Q a s') -> returns m s Q.
Proof.
  unfold returns. destruct (m s) as [[a | e] s']; auto.
Qed.

Lemma returns_draw {A} (f : rng G -> A * rng G) s post :
  post (fst (f s)) (snd (f s)) -> returns (draw f) s post.
Proof.
  unfold returns, draw. destruct (f s); auto.
Qed.

(** The loop rule: an invariant indexed by the number of iterations done. *)
Lemma returns_for_range {A} (I : nat -> A -> Prop) (body : A -> M G A) n :
  (forall k a s, (k < n)%nat -> I k a ->
                 returns (body a) s (fun a' _ => I (S k) a')) ->
  forall a s, I O a -> returns (for_range n body a) s (fun a' _ => I n a').
Proof.
  intros Hbody.
  assert (Hgen : forall m k a s, (k + m = n)%nat -> I k a ->
            returns (for_range m body a) s (fun a' _ => I n a')).
  { induction m as [| m IH]; intros k a s Hk Ha; simpl.
    - apply returns_ret. replace n with k by lia. exact Ha.
    - apply returns_bind.
      apply returns_weaken with (P := fun a' _ => I (S k) a').
      + apply Hbody; [lia | exact Ha].
      + intros a' s' Ha'. apply (IH (S k)); [lia | exact Ha']. }
  intros a s Ha. apply (Hgen n O); [lia | exact Ha].
Qed.

End Returns.

(** ** Facts on the rational helpers *)

Lemma Qltb_lt (x y : Q) : Qltb x y = true <-> (x < y)%Q.
Proof. unfold Qltb, Qlt. apply Z.ltb_lt. Qed.

Lemma Qltb_ge (x y : Q) : Qltb x y = false <-> (y <= x)%Q.
Proof. unfold Qltb, Qle. apply Z.ltb_ge. Qed.

(** The comparison with the threshold does not depend on how 7 is written. *)
Lemma Qltb_seven (t : Q) : Qltb t 7.0 = Qltb t 7.
Proof.
  unfold Qltb. cbn [Qnum Qden]. change (Qnum 7) with 7.
  destruct (Z.ltb_spec (Qnum t * 10) (70 * QDen t));
    destruct (Z.ltb_spec (Qnum t * 1) (7 * QDen t)); auto; lia.
Qed.

Lemma Qtrunc_bounds (q : Q) (r : Z) :
  (0 <= q)%Q -> (q <= inject_Z r)%Q -> 0 <= Qtrunc q <= r.
Proof.
  intros H0 Hr. unfold Qtrunc.
  assert (Hn : 0 <= Qnum q).
  { unfold Qle in H0. simpl in H0. lia. }
  rewrite Z.quot_div_nonneg by lia.
  replace (Qnum q / QDen q) with (Qfloor q) by (now destruct q).
  split.
  - change 0 with (Qfloor 0). now apply Qfloor_resp_le.
  - rewrite <- (Qfloor_Z r). now apply Qfloor_resp_le.
Qed.

Lemma Zfraction_bounds (a b : Z) :
  0 <= a <= b -> 0 < b ->
  (0 <= inject_Z a / inject_Z b)%Q /\ (inject_Z a / inject_Z b <= 1)%Q.
Proof.
  intros [Ha Hab] Hb.
  assert (Hb' : (0 < inject_Z b)%Q).
  { change 0%Q with (inject_Z 0). now rewrite <- Zlt_Qlt. }
  split.
  - apply Qle_shift_div_l; [exact Hb' |].
    rewrite Qmult_0_l. change 0%Q with (inject_Z 0). now rewrite <- Zle_Qle.
  - apply Qle_shift_div_r; [exact Hb' |].
    rewrite Qmult_1_l. now rewrite <- Zle_Qle.
Qed.

(** ** Rounding to a double *)

Lemma rne_le (x : Q) (m : Z) : (x <= inject_Z m)%Q -> rne x <= m.
Proof.
  intros H. unfold rne.
  pose proof (Qfloor_le x) as Hf.
  assert (Hfm : Qfloor x <= m).
  { rewrite Zle_Qle. now apply Qle_trans with x. }
  destruct (Z.eq_dec (Qfloor x) m) as [E | E].
  - assert (Hx : (x - inject_Z (Qfloor x) ?= 1 # 2)%Q = Lt).
    { apply Qlt_alt. rewrite E. unfold Qminus.
      apply Qle_lt_trans with (inject_Z m + - inject_Z m)%Q;
        [now apply Qplus_le_l | now rewrite Qplus_opp_r]. }
    now rewrite Hx.
  - destruct (_ ?= _)%Q; [destruct (Z.even _) | |]; lia.
Qed.

Lemma rne_ge (x : Q) (m : Z) : (inject_Z m <= x)%Q -> m <= rne x.
Proof.
  intros H. unfold rne.
  assert (Hfm : m <= Qfloor x).
  { rewrite <- (Qfloor_Z m). now apply Qfloor_resp_le. }
  destruct (_ ?= _)%Q; [destruct (Z.even _) | |]; lia.
Qed.

Lemma Qpow2_pos (k : Z) : (0 < 2 ^ k)%Q.
Proof. now apply Qpower_0_lt. Qed.

Lemma Qpow2_nonneg_exp (n : Z) : 0 <= n -> (2 ^ n == inject_Z (2 ^ n))%Q.
Proof. intros H. now rewrite Zpower_Qpower. Qed.

Lemma Qlog2_le (x : Q) : (0 < x)%Q -> (2 ^ Qlog2 x <= x)%Q.
Proof.
  intros Hx. unfold Qlog2.
  destruct (Qle_bool _ x) eqn:E; [now apply Qle_bool_iff |].
  destruct x as [n d]. cbn [Qnum Qden].
  assert (Hn : 0 < n) by (unfold Qlt in Hx; simpl in Hx; lia).
  destruct (Z.log2_spec n Hn) as [Hn1 _].
  destruct (Z.log2_spec (Z.pos d) (Pos2Z.is_pos d)) as [_ Hd2].
  pose proof (Z.log2_nonneg n) as Ln. pose proof (Z.log2_nonneg (Z.pos d)) as Ld.
  replace (Z.log2 n - Z.log2 (Z.pos d) - 1)
    with (Z.log2 n - Z.succ (Z.log2 (Z.pos d))) by lia.
  rewrite Qpower_minus by discriminate.
  rewrite !Qpow2_nonneg_exp by lia.
  rewrite (Qmake_Qdiv n d).
  assert (A : (0 < inject_Z (2 ^ Z.succ (Z.log2 (Z.pos d))))%Q).
  { rewrite <- Qpow2_nonneg_exp by lia. apply Qpow2_pos. }
  assert (B : (0 < inject_Z (Z.pos d))%Q) by reflexivity.
  apply Qle_shift_div_l; [exact B |].
  unfold Qdiv. rewrite <- Qmult_assoc, (Qmult_comm (/ _)), Qmult_assoc.
  apply Qle_shift_div_r; [exact A |].
  rewrite <- !inject_Z_mult. rewrite <- Zle_Qle. nia.
Qed.

Lemma Qabs_nonneg_eq (x : Q) : (0 <= x)%Q -> Qabs x = x.
Proof.
  destruct x as [n d]. unfold Qle. cbn [Qnum Qden Qabs]. intros H.
  f_equal. apply Z.abs_eq. lia.
Qed.

Lemma ulp_exponent_small (x : Q) :
  (0 < x)%Q -> (x < 2 ^ 53)%Q -> ulp_exponent x <= 0.
Proof.
  intros H0 H1. unfold ulp_exponent. rewrite Qabs_nonneg_eq by now apply Qlt_le_weak.
  assert (Qlog2 x < 53); [| lia].
  apply Qpower_lt_compat_l_inv with (q := 2%Q); [| reflexivity].
  eapply Qle_lt_trans; [apply Qlog2_le, H0 | exact H1].
Qed.

(** For [k <= 0] the grid of spacing [2 ^ k] contains the integers. *)
Lemma grid_int (k c : Z) :
  k <= 0 -> (inject_Z c / 2 ^ k == inject_Z (c * 2 ^ (- k)))%Q.
Proof.
  intros Hk. replace k with (- (- k)) at 1 by lia.
  rewrite Qpower_opp, Qpow2_nonneg_exp by lia.
  rewrite inject_Z_mult. unfold Qdiv. now rewrite Qinv_involutive.
Qed.

Lemma round64_zero : round64 0 = 0%Q.
Proof. reflexivity. Qed.

Lemma round64_unfold (x : Q) :
  ~ (x == 0)%Q ->
  (round64 x == inject_Z (rne (x / 2 ^ ulp_exponent x)) * 2 ^ ulp_exponent x)%Q.
Proof.
  intros H. unfold round64.
  destruct (Qeq_bool x 0) eqn:E; [apply Qeq_bool_iff in E; contradiction |].
  apply Qred_correct.
Qed.

Lemma round64_nonneg (x : Q) : (0 <= x)%Q -> (0 <= round64 x)%Q.
Proof.
  intros H. unfold round64. destruct (Qeq_bool x 0); [apply Qle_refl |].
  rewrite Qred_correct.
  apply Qmult_le_0_compat; [| apply Qlt_le_weak, Qpow2_pos].
  change 0%Q with (inject_Z 0). rewrite <- Zle_Qle. apply rne_ge.
  apply Qle_shift_div_l; [apply Qpow2_pos |]. now rewrite Qmult_0_l.
Qed.

Lemma grid_cancel (k c : Z) :
  k <= 0 -> (inject_Z (c * 2 ^ (- k)) * 2 ^ k == inject_Z c)%Q.
Proof.
  intros Hk. rewrite <- grid_int by exact Hk.
  unfold Qdiv. rewrite <- Qmult_assoc, (Qmult_comm (/ _)), Qmult_inv_r, Qmult_1_r;
    [reflexivity |].
  intros E. pose proof (Qpow2_pos k) as H. rewrite E in H. discriminate.
Qed.

Lemma Qpos_neq (x : Q) : (0 <= x)%Q -> ~ (x == 0)%Q -> (0 < x)%Q.
Proof.
  intros H E. apply Qle_lteq in H. destruct H as [H | H]; [exact H |].
  symmetry in H. contradiction.
Qed.

Lemma round64_le_int (x : Q) (c : Z) :
  (0 <= x)%Q -> (x <= inject_Z c)%Q -> c < 2 ^ 53 -> (round64 x <= inject_Z c)%Q.
Proof.
  intros H0 Hc Hb.
  destruct (Qeq_dec x 0) as [E | E].
  - unfold round64. rewrite (proj2 (Qeq_bool_iff x 0) E).
    now apply Qle_trans with x.
  - pose proof (Qpos_neq x H0 E) as Hx.
    rewrite round64_unfold by exact E.
    set (k := ulp_exponent x).
    assert (Hk : k <= 0).
    { apply ulp_exponent_small; [exact Hx |].
      eapply Qle_lt_trans; [exact Hc |].
      rewrite (Qpow2_nonneg_exp 53) by lia. now rewrite <- Zlt_Qlt. }
    pose proof (Qpow2_pos k) as Hp.
    assert (Hdiv : (x / 2 ^ k <= inject_Z (c * 2 ^ (- k)))%Q).
    { rewrite <- grid_int by exact Hk. unfold Qdiv.
      apply Qmult_le_compat_r; [exact Hc |].
      apply Qlt_le_weak, Qinv_lt_0_compat, Hp. }
    apply rne_le in Hdiv.
    rewrite <- (grid_cancel k c Hk).
    apply Qmult_le_compat_r; [now rewrite <- Zle_Qle | apply Qlt_le_weak, Hp].
Qed.

Lemma round64_ge_int (x : Q) (c : Z) :
  (0 < x)%Q -> (x < 2 ^ 53)%Q -> (inject_Z c <= x)%Q -> (inject_Z c <= round64 x)%Q.
Proof.
  intros Hx Hb Hc.
  assert (E : ~ (x == 0)%Q) by (intros E; rewrite E in Hx; discriminate).
  rewrite round64_unfold by exact E.
  set (k := ulp_exponent x).
  assert (Hk : k <= 0) by now apply ulp_exponent_small.
  pose proof (Qpow2_pos k) as Hp.
  assert (Hdiv : (inject_Z (c * 2 ^ (- k)) <= x / 2 ^ k)%Q).
  { rewrite <- grid_int by exact Hk. unfold Qdiv.
    apply Qmult_le_compat_r; [exact Hc |].
    apply Qlt_le_weak, Qinv_lt_0_compat, Hp. }
  apply rne_ge in Hdiv.
  rewrite <- (grid_cancel k c Hk).
  apply Qmult_le_compat_r; [now rewrite <- Zle_Qle | apply Qlt_le_weak, Hp].
Qed.

(** An integer below [2 ^ 53] is a double. *)
Lemma round64_int (z : Z) :
  0 <= z < 2 ^ 53 -> (round64 (inject_Z z) == inject_Z z)%Q.
Proof.
  intros [H0 H1].
  destruct (Z.eq_dec z 0) as [-> | Hz]; [reflexivity |].
  apply Qle_antisym.
  - apply round64_le_int; [| apply Qle_refl | exact H1].
    change 0%Q with (inject_Z 0). rewrite <- Zle_Qle. exact H0.
  - apply round64_ge_int; [| | apply Qle_refl].
    + change 0%Q with (inject_Z 0). rewrite <- Zlt_Qlt. lia.
    + rewrite (Qpow2_nonneg_exp 53) by lia. now rewrite <- Zlt_Qlt.
Qed.

Lemma inject_Z_nonneg (z : Z) : 0 <= z -> (0 <= inject_Z z)%Q.
Proof. intros H. change 0%Q with (inject_Z 0). now rewrite <- Zle_Qle. Qed.

Lemma round64_unit (x : Q) :
  (0 <= x)%Q -> (x <= 1)%Q -> (0 <= round64 x)%Q /\ (round64 x <= 1)%Q.
Proof.
  intros H0 H1. split; [now apply round64_nonneg |].
  now apply (round64_le_int x 1).
Qed.

Lemma py_mul_nonneg (k : Z) (x : Q) :
  0 <= k -> (0 <= x)%Q -> (0 <= py_mul k x)%Q.
Proof.
  intros Hk Hx. unfold py_mul. apply round64_nonneg.
  apply Qmult_le_0_compat; [| exact Hx].
  now apply round64_nonneg, inject_Z_nonneg.
Qed.

(** A share of a count that a double holds exactly stays within the count. *)
Lemma py_mul_le (k : Z) (x : Q) :
  0 <= k < 2 ^ 53 -> (0 <= x)%Q -> (x <= 1)%Q -> (py_mul k x <= inject_Z k)%Q.
Proof.
  intros Hk H0 H1. unfold py_mul.
  pose proof (inject_Z_nonneg k (proj1 Hk)) as Hk0.
  apply round64_le_int; [| | lia]; rewrite (round64_int k Hk).
  - now apply Qmult_le_0_compat.
  - rewrite <- (Qmult_1_r (inject_Z k)) at 2.
    rewrite (Qmult_comm (inject_Z k)), (Qmult_comm (inject_Z k) 1).
    now apply Qmult_le_compat_r.
Qed.

(** The sum of two legs can round up to the threshold: 4 days and a leg one
    bit short of 3 days make 7 days, which is not on time; and the on-time
    share of 22 shipments of which 15 are on time is 14 of 22, not 15. *)
Example rounding_at_the_threshold :
  np_add 4 (3 - (1 # 2 ^ 51)) = 7%Q /\
  Qltb (np_add 4 (3 - (1 # 2 ^ 51))) 7 = false /\
  np_multiply 22 (np_true_divide 15 22)
  = Fin (8444249301319679 # 562949953421312) /\
  Qtrunc (8444249301319679 # 562949953421312) = 14.
Proof. repeat split; vm_compute; reflexivity. Qed.

(** ** The shipment bodies against the journey of the specification *)

Section Refinement.
Variable G : Generator.

Lemma np_poisson_ok (lam : Q) :
  Qltb lam 0 = false -> np_poisson (G := G) lam = draw (gen_poisson G lam).
Proof. intros H. unfold np_poisson. now rewrite H. Qed.

Lemma mc_stops_loop_sequence n p t s :
  MC.stops_loop G n p t s = Journey.stop_sequence G n p t s.
Proof.
  revert t s. induction n as [| n IH]; intros t s; simpl; [reflexivity |].
  unfold bind, np_normal, np_random, draw, ret.
  destruct (gen_normal G 0.5 (np_sqrt G 0.6) s) as [x s1].
  destruct (gen_random G s1) as [u s2].
  destruct (Qltb u p); [reflexivity | apply IH].
Qed.

Lemma reg_stops_loop_sequence n p t c s :
  Regression.stops_loop G n p t c s =
  bind (Journey.stop_sequence G n p t)
       (fun r => ret (fst r, snd r,
                      if snd r then Regression.count_missing c else c)) s.
Proof.
  revert t s. induction n as [| n IH]; intros t s; simpl; [reflexivity |].
  unfold bind at 1 2 3 4 5. unfold np_normal, np_random, draw, ret.
  destruct (gen_normal G 0.5 (np_sqrt G 0.6) s) as [x s1].
  destruct (gen_random G s1) as [u s2].
  destruct (Qltb u p); [reflexivity |]. rewrite IH. reflexivity.
Qed.

Ltac refine_step :=
  match goal with
  | |- context [Qltb ?a 7.0] => rewrite (Qltb_seven a)
  | |- context [if Qltb ?a ?b then _ else _] => destruct (Qltb a b)
  | |- context [gen_random G ?s] => destruct (gen_random G s) as [? ?]
  | |- context [gen_normal G ?a ?b ?s] =>
      destruct (gen_normal G a b s) as [? ?]
  | |- context [gen_poisson G ?a ?s] =>
      destruct (gen_poisson G a s) as [? ?]
  | |- context [MC.stops_loop G ?n ?p ?t ?s] =>
      rewrite (mc_stops_loop_sequence n p t s)
  | |- context [Regression.stops_loop G ?n ?p ?t ?c ?s] =>
      rewrite (reg_stops_loop_sequence n p t c s); unfold bind, ret
  | |- context [Journey.stop_sequence G ?n ?p ?t ?s] =>
      destruct (Journey.stop_sequence G n p t s) as [[[? [|]] | ?] ?]
  | |- context [if Qltb ?a ?b then _ else _] => destruct (Qltb a b)
  end; cbn [fst snd]; cbv beta iota zeta.

Ltac refine_body :=
  rewrite ?np_poisson_ok by reflexivity;
  unfold bind, np_random, np_normal, draw, ret;
  unfold MC.base_mean, MC.base_var, Regression.base_mean, Regression.base_var;
  unfold Journey.local_probs;
  cbn [MC.p_counterfeit MC.p_warehouse_theft MC.p_last_mile_theft];
  cbv beta iota zeta;
  repeat refine_step; cbn [fst snd];
  rewrite ?Qltb_seven; repeat refine_step;
  try reflexivity.

Lemma mc_imported_journey p c s :
  MC.imported_shipment G p c s =
  bind (Journey.journey G Journey.imported p)
       (fun o => ret (Journey.fold_basic o c)) s.
Proof.
  unfold MC.imported_shipment, Journey.journey, Journey.stops_to_arrival,
    Journey.seizure, MC.draw_num_stops.
  refine_body.
Qed.


Lemma mc_local_journey pc pw pl c s :
  MC.local_shipment G pc pw pl c s =
  bind (Journey.journey G Journey.local (Journey.local_probs pc pw pl))
       (fun o => ret (Journey.fold_basic o c)) s.
Proof.
  unfold MC.local_shipment, Journey.journey, Journey.stops_to_arrival,
    Journey.seizure, MC.draw_num_stops.
  refine_body.
Qed.

Lemma reg_imported_journey p c s :
  Regression.imported_shipment G p c s =
  bind (Journey.journey G Journey.imported p)
       (fun o => ret (Journey.fold_unified o c)) s.
Proof.
  unfold Regression.imported_shipment, Journey.journey, Journey.stops_to_arrival,
    Journey.seizure, Regression.draw_num_stops.
  refine_body.
Qed.

Lemma reg_local_journey pc pw pl c s :
  Regression.local_shipment G pc pw pl c s =
  bind (Journey.journey G Journey.local (Journey.local_probs pc pw pl))
       (fun o => ret (Journey.fold_unified o c)) s.
Proof.
  unfold Regression.local_shipment, Journey.journey, Journey.stops_to_arrival,
    Journey.seizure, Regression.draw_num_stops.
  refine_body.
Qed.
End Refinement.

(** ** Runs of the journey and of the shipment loops *)

Section Runs.
Variable G : Generator.

Lemma np_beta_ok (a b : Q) :
  Qle_bool a 0 || Qle_bool b 0 = false ->
  np_beta (G := G) a b = draw (gen_beta G a b).
Proof. intros H. unfold np_beta. now rewrite H. Qed.

Lemma stop_sequence_returns n p t s :
  returns (Journey.stop_sequence G n p t) s (fun _ _ => True).
Proof.
  revert t s. induction n as [| n IH]; intros t s; simpl.
  - now apply returns_ret.
  - apply returns_bind, returns_draw. apply returns_bind, returns_draw.
    destruct (Qltb _ p); [now apply returns_ret | apply IH].
Qed.

Lemma stops_to_arrival_returns lambda p counterfeit t s :
  Qltb lambda 0 = false ->
  returns (Journey.stops_to_arrival G lambda p counterfeit t) s
          (fun o _ => Journey.on_time_spec o /\ Journey.is_counterfeit o = counterfeit).
Proof.
  intros Hlam. unfold Journey.stops_to_arrival.
  rewrite (np_poisson_ok G lambda Hlam).
  apply returns_bind, returns_draw. apply returns_bind.
  eapply returns_weaken; [apply stop_sequence_returns |].
  intros [t' stolen] s1 _. unfold Journey.on_time_spec, Journey.arrived.
  destruct stolen.
  - apply returns_ret. simpl. intuition discriminate.
  - apply returns_bind, returns_draw.
    destruct (Qltb _ (MC.p_last_mile_theft p)).
    + apply returns_ret. simpl. intuition discriminate.
    + apply returns_ret. simpl. rewrite Qltb_seven.
      destruct (Qltb t' 7) eqn:E; (split; [| reflexivity]).
      * apply Qltb_lt in E. tauto.
      * apply Qltb_ge in E. split; [discriminate |].
        intros [_ Hlt]. exfalso. now apply (Qlt_not_le _ _ Hlt).
Qed.

(** The journey always ends, and ends on time exactly when the shipment
    arrived in less than seven days. *)
Lemma journey_returns via p s :
  returns (Journey.journey G via p) s (fun o _ => Journey.on_time_spec o).
Proof.
  unfold Journey.journey, Journey.seizure.
  apply returns_bind, returns_draw.
  destruct via.
  - apply returns_bind. apply returns_bind, returns_draw. apply returns_ret.
    destruct (Qltb _ _).
    + apply returns_ret. unfold Journey.on_time_spec, Journey.arrived. simpl.
      intuition discriminate.
    + apply returns_bind, returns_draw.
      apply returns_bind. apply returns_bind, returns_draw. apply returns_ret.
      destruct (Qltb _ _).
      * apply returns_ret. unfold Journey.on_time_spec, Journey.arrived. simpl.
        intuition discriminate.
      * eapply returns_weaken;
          [now apply stops_to_arrival_returns | now intros o s' [H _]].
  - eapply returns_weaken;
      [now apply stops_to_arrival_returns | now intros o s' [H _]].
Qed.

(** A loop whose body folds one journey into the counters keeps every
    invariant that the fold keeps. *)
Lemma journey_loop {C} (I : nat -> C -> Prop)
  (body : C -> M G C) (fold : Journey.ShipmentOutcome -> C -> C) via p n :
  (forall c s, body c s =
               bind (Journey.journey G via p) (fun o => ret (fold o c)) s) ->
  (forall k o c, I k c -> I (S k) (fold o c)) ->
  forall c s, I O c -> returns (for_range n body c) s (fun c' _ => I n c').
Proof.
  intros Hbody Hfold. apply returns_for_range.
  intros k c s _ Hc. unfold returns. rewrite Hbody.
  apply returns_bind.
  eapply returns_weaken; [apply journey_returns |].
  intros o s' _. apply returns_ret. now apply Hfold.
Qed.

End Runs.

(** ** The counters of a run *)

Section Counters.
Variable G : Generator.

Lemma draw_probs_returns s :
  returns (MC.draw_probs G) s (fun _ _ => True).
Proof.
  unfold MC.draw_probs. rewrite !np_beta_ok by reflexivity.
  repeat (apply returns_bind, returns_draw). now apply returns_ret.
Qed.

Lemma fold_basic_inv k o c :
  basic_inv k c -> basic_inv (S k) (Journey.fold_basic o c).
Proof.
  unfold basic_inv, Journey.fold_basic.
  destruct o as [[|] t []]; simpl; lia.
Qed.

Lemma fold_unified_inv k o c :
  unified_inv k c -> unified_inv (S k) (Journey.fold_unified o c).
Proof.
  unfold unified_inv, Journey.fold_unified, Journey.arrived.
  destruct o as [[|] t []]; simpl; lia.
Qed.

Lemma mc_imported_run N s :
  returns (MC.simulate_imported_drugs G N) s
    (fun r _ =>
       MC.r_final_legit_total r + MC.r_final_counterfeit_total r
       = Z.of_nat (Z.to_nat N)).
Proof.
  unfold MC.simulate_imported_drugs. apply returns_bind.
  eapply returns_weaken; [apply draw_probs_returns |].
  intros p s1 _. apply returns_bind.
  eapply returns_weaken.
  - apply (journey_loop G basic_inv _ Journey.fold_basic Journey.imported p).
    + apply mc_imported_journey.
    + apply fold_basic_inv.
    + unfold basic_inv; simpl; lia.
  - intros c s2 Hc. apply returns_ret. simpl. apply Hc.
Qed.

Lemma mc_local_run N s :
  returns (MC.simulate_local_drugs G N) s
    (fun r _ =>
       MC.r_final_legit_total (MC.l_results r)
       + MC.r_final_counterfeit_total (MC.l_results r)
       = Z.of_nat (Z.to_nat N)).
Proof.
  unfold MC.simulate_local_drugs.
  do 3 apply returns_bind, returns_draw. apply returns_bind.
  eapply returns_weaken.
  - eapply (journey_loop G basic_inv _ Journey.fold_basic Journey.local).
    + apply mc_local_journey.
    + apply fold_basic_inv.
    + unfold basic_inv; simpl; lia.
  - intros c s2 Hc. apply returns_ret. simpl. apply Hc.
Qed.

Lemma reg_imported_run N s :
  returns (Regression.simulate_imported_drugs G N) s
    (fun r _ => unified_results (Z.of_nat (Z.to_nat N)) (Regression.i_results r)).
Proof.
  unfold Regression.simulate_imported_drugs. apply returns_bind.
  eapply returns_weaken; [apply draw_probs_returns |].
  intros p s1 _. apply returns_bind.
  eapply returns_weaken.
  - apply (journey_loop G unified_inv _ Journey.fold_unified Journey.imported p).
    + apply reg_imported_journey.
    + apply fold_unified_inv.
    + unfold unified_inv; simpl; lia.
  - intros c s2 Hc. apply returns_ret. unfold unified_results, unified_inv in *.
    simpl. lia.
Qed.

Lemma reg_local_run N s :
  returns (Regression.simulate_local_drugs G N) s
    (fun r _ => unified_results (Z.of_nat (Z.to_nat N)) (Regression.l_results r)).
Proof.
  unfold Regression.simulate_local_drugs.
  do 3 apply returns_bind, returns_draw. apply returns_bind.
  eapply returns_weaken.
  - eapply (journey_loop G unified_inv _ Journey.fold_unified Journey.local).
    + apply reg_local_journey.
    + apply fold_unified_inv.
    + unfold unified_inv; simpl; lia.
  - intros c s2 Hc. apply returns_ret. unfold unified_results, unified_inv in *.
    simpl. lia.
Qed.

End Counters.

(** ** A batch run under the laws of the generator *)

Ltac qconst := apply Qle_bool_imp_le; reflexivity.

Section BatchDraws.
Variable G : Generator.
Hypothesis laws : GeneratorLaws G.

Lemma returns_uniform (a b : Q) s post :
  (a <= b)%Q ->
  (forall x s', (a <= x)%Q -> (x <= b)%Q -> post x s') ->
  returns (np_uniform (G := G) a b) s post.
Proof.
  intros Hab H. apply returns_draw.
  destruct (uniform_range G laws a b s Hab). now apply H.
Qed.

Lemma returns_beta (a b : Q) s post :
  Qle_bool a 0 || Qle_bool b 0 = false ->
  (forall x s', (0 <= x)%Q -> (x <= 1)%Q -> post x s') ->
  returns (np_beta (G := G) a b) s post.
Proof.
  intros Hab H. rewrite np_beta_ok by exact Hab. apply returns_draw.
  destruct (beta_range G laws a b s). now apply H.
Qed.

Lemma returns_poisson (lam : Q) s post :
  (0 <= lam)%Q ->
  (forall k s', 0 <= k -> post k s') ->
  returns (np_poisson (G := G) lam) s post.
Proof.
  intros Hlam H. rewrite np_poisson_ok by (now apply Qltb_ge).
  apply returns_draw. apply H. apply (poisson_range G laws).
Qed.

Lemma returns_binomial (n : Z) (p : Q) s post :
  0 <= n < 2 ^ 63 -> (0 <= p)%Q -> (p <= 1)%Q ->
  (forall k s', 0 <= k <= n -> post k s') ->
  returns (np_binomial (G := G) n p) s post.
Proof.
  intros [Hn Hn'] Hp0 Hp1 H. unfold np_binomial.
  replace (n <? - 2 ^ 63) with false by (symmetry; apply Z.ltb_ge; lia).
  replace (2 ^ 63 - 1 <? n) with false by (symmetry; apply Z.ltb_ge; lia).
  replace (n <? 0) with false by (symmetry; apply Z.ltb_ge; lia).
  apply Qltb_ge in Hp0, Hp1. rewrite Hp0, Hp1. simpl.
  apply returns_draw. apply H. now apply (binomial_range G laws).
Qed.

End BatchDraws.

Section BatchRun.
Variable G : Generator.

Lemma normal_fill_returns n loc scale s :
  returns (normal_fill (G := G) n loc scale) s (fun l _ => length l = n).
Proof.
  revert s. induction n as [| n IH]; intros s; simpl.
  - now apply returns_ret.
  - apply returns_bind, returns_draw. apply returns_bind.
    eapply returns_weaken; [apply IH |].
    intros l s' Hl. apply returns_ret. simpl. now rewrite Hl.
Qed.

Lemma returns_normal_n loc scale (n : Z) s (post : list Q -> rng G -> Prop) :
  0 <= n ->
  (forall l s', length l = Z.to_nat n -> post l s') ->
  returns (np_normal_n loc scale n) s post.
Proof.
  intros Hn H. unfold np_normal_n.
  replace (n <? 0) with false by (symmetry; apply Z.ltb_ge; lia).
  eapply returns_weaken; [apply normal_fill_returns | exact H].
Qed.

Lemma np_sum_mask_bounds (mask : list bool) :
  0 <= np_sum_mask mask <= Z.of_nat (length mask).
Proof.
  unfold np_sum_mask. pose proof (filter_length_le (fun b => b) mask). lia.
Qed.

(** The on-time fraction of a run of [n] shipments, [n] a double. *)
Lemma frac_on_time_range (k n : Z) :
  0 <= k <= n -> 0 < n < 2 ^ 53 ->
  exists f, np_true_divide k n = Fin f /\ (0 <= f)%Q /\ (f <= 1)%Q.
Proof.
  intros Hk Hn. unfold np_true_divide.
  replace (n =? 0) with false by (symmetry; apply Z.eqb_neq; lia).
  eexists. split; [reflexivity |].
  apply round64_unit; rewrite !round64_int by lia; apply Zfraction_bounds; lia.
Qed.

(** [int(count * frac)] for the on-time fraction of [n] shipments stays
    within [count]. *)
Lemma on_time_share (count k n : Z) s (post : Z -> rng G -> Prop) :
  0 <= count <= n -> 0 <= k <= n -> 0 < n < 2 ^ 53 ->
  (forall m s', 0 <= m <= count -> post m s') ->
  returns (py_int (np_multiply count (np_true_divide k n))) s post.
Proof.
  intros Hc Hk Hn H.
  destruct (frac_on_time_range k n Hk Hn) as (f & -> & H0 & H1).
  simpl. apply returns_ret. apply H. apply Qtrunc_bounds.
  - now apply py_mul_nonneg.
  - apply py_mul_le; [lia | exact H0 | exact H1].
Qed.

Lemma rate_nonneg (count : Z) (p lo : Q) :
  0 <= count -> (0 <= lo)%Q -> (lo <= p)%Q -> (0 <= py_mul count p)%Q.
Proof.
  intros Hc Hlo Hp. apply py_mul_nonneg; [exact Hc |].
  now apply Qle_trans with lo.
Qed.

Hypothesis laws : GeneratorLaws G.

(** A batch run of [N] shipments, [N] a double: it returns, and the counts
    it returns are within the class totals. *)
Lemma batch_run N s :
  1 <= N < 2 ^ 53 ->
  returns (Batch.simulate_imported_batch G N) s (fun r _ => batch_results N r).
Proof.
  intros HN. unfold Batch.simulate_imported_batch.
  apply returns_bind, (returns_uniform G laws); [qconst |].
  intros p_counterfeit s1 Hp0 Hp1.
  apply returns_bind, (returns_binomial G laws);
    [lia | eapply Qle_trans; [| exact Hp0]; qconst
         | eapply Qle_trans; [exact Hp1 |]; qconst |].
  intros counterfeit_import s2 Hc.
  apply returns_bind, (returns_uniform G laws); [qconst |].
  intros p_sec s3 Hsec _.
  apply returns_bind, (returns_beta G laws); [reflexivity |].
  intros p_sel s4 Hsel _.
  apply returns_bind, (returns_poisson G laws);
    [apply rate_nonneg with (lo := 0.0001%Q); [lia | qconst | exact Hsec] |].
  intros seized_ec s5 Hsec'.
  apply returns_bind, (returns_poisson G laws);
    [apply rate_nonneg with (lo := 0%Q); [lia | qconst | exact Hsel] |].
  intros seized_el s6 Hsel'.
  apply returns_bind, (returns_uniform G laws); [qconst |].
  intros p_sic s7 Hsic _.
  apply returns_bind, (returns_beta G laws); [reflexivity |].
  intros p_sil s8 Hsil _.
  apply returns_bind, (returns_poisson G laws);
    [apply rate_nonneg with (lo := 0.001%Q); [lia | qconst | exact Hsic] |].
  intros seized_ic s9 Hsic'.
  apply returns_bind, (returns_poisson G laws);
    [apply rate_nonneg with (lo := 0%Q); [lia | qconst | exact Hsil] |].
  intros seized_il s10 Hsil'.
  apply returns_bind, returns_normal_n; [lia |].
  intros transit_times s11 Hlen.
  assert (Hmask : 0 <= np_sum_mask (map (fun t => Qltb t 7) transit_times) <= N).
  { pose proof (np_sum_mask_bounds (map (fun t => Qltb t 7) transit_times)) as Hb.
    rewrite length_map, Hlen in Hb. lia. }
  apply returns_bind, on_time_share; [lia | exact Hmask | lia |].
  intros legit_on_time s12 Hlot.
  apply returns_bind, on_time_share; [lia | exact Hmask | lia |].
  intros counterf_on_time s13 Hcot.
  apply returns_bind, (returns_uniform G laws); [qconst |].
  intros p_wt s14 Hwt _.
  apply returns_bind, (returns_poisson G laws);
    [apply rate_nonneg with (lo := 0.0000014%Q); [lia | qconst | exact Hwt] |].
  intros theft_lw s15 Hlw.
  apply returns_bind, (returns_poisson G laws);
    [apply rate_nonneg with (lo := 0.0000014%Q); [lia | qconst | exact Hwt] |].
  intros theft_cw s16 Hcw.
  apply returns_bind, (returns_uniform G laws); [qconst |].
  intros p_lm s17 Hlm _.
  apply returns_bind, (returns_poisson G laws);
    [apply rate_nonneg with (lo := 0.0001%Q); [lia | qconst | exact Hlm] |].
  intros theft_ll s18 Hll.
  apply returns_bind, (returns_poisson G laws);
    [apply rate_nonneg with (lo := 0.0001%Q); [lia | qconst | exact Hlm] |].
  intros theft_cl s19 Hcl.
  apply returns_ret. unfold batch_results. simpl. lia.
Qed.

End BatchRun.

(** ** Partial correctness, and the replayable generator is lawful *)

Section PartialRules.
Context {G : Generator}.

Lemma partial_any {A} (m : M G A) s : partial m s (fun _ _ => True).
Proof. unfold partial. now destruct (m s) as [[a | e] s']. Qed.

Lemma partial_bind {A B} (m : M G A) (f : A -> M G B) s post :
  partial m s (fun a s' => partial (f a) s' post) ->
  partial (bind m f) s post.
Proof. unfold partial, bind. destruct (m s) as [[a | e] s']; auto. Qed.

Lemma partial_weaken {A} (m : M G A) s (P Q : A -> rng G -> Prop) :
  partial m s P -> (forall a s', P a s' -> Q a s') -> partial m s Q.
Proof. unfold partial. destruct (m s) as [[a | e] s']; auto. Qed.

Lemma partial_elim {A} (m : M G A) s post a s' :
  partial m s post -> m s = (Ok a, s') -> post a s'.
Proof. unfold partial. intros H E. now rewrite E in H. Qed.

End PartialRules.

Lemma tape_frac_range (x : Q) : (0 <= Tape.frac x)%Q /\ (Tape.frac x < 1)%Q.
Proof.
  unfold Tape.frac.
  pose proof (Qfloor_le x) as Hlo. pose proof (Qlt_floor x) as Hhi.
  rewrite inject_Z_plus in Hhi. change (inject_Z 1) with 1%Q in Hhi.
  split; lra.
Qed.

Lemma tape_clamp_range (lo hi x : Q) :
  (lo <= hi)%Q -> (lo <= Tape.clamp lo hi x)%Q /\ (Tape.clamp lo hi x <= hi)%Q.
Proof.
  intros H. unfold Tape.clamp.
  destruct (Qltb x lo) eqn:E1; [split; [apply Qle_refl | exact H] |].
  destruct (Qltb hi x) eqn:E2; [split; [exact H | apply Qle_refl] |].
  apply Qltb_ge in E1, E2. now split.
Qed.

Lemma tape_laws : GeneratorLaws Tape.generator.
Proof.
  split; simpl.
  - intros s. unfold Tape.random. destruct (Tape.next s). apply tape_frac_range.
  - intros a b s H. unfold Tape.uniform. destruct (Tape.next s).
    now apply tape_clamp_range.
  - intros a b s. unfold Tape.beta. destruct (Tape.next s).
    apply tape_clamp_range. discriminate.
  - intros lam s. unfold Tape.poisson. destruct (Tape.next s). apply Z.le_max_l.
  - intros n p s H. unfold Tape.binomial. destruct (Tape.next s). cbn [fst].
    split; [apply Z.le_max_l |].
    apply Z.max_lub; [exact H | apply Z.le_min_l].
Qed.

Lemma batch_totals_partial G N s :
  partial (Batch.simulate_imported_batch G N) s
    (fun r _ => Batch.legit_import r + Batch.counterfeit_import r = N).
Proof.
  unfold Batch.simulate_imported_batch.
  repeat (apply partial_bind; eapply partial_weaken;
          [apply partial_any | intros ? ? _]).
  unfold partial, ret. cbn [Batch.legit_import Batch.counterfeit_import]. lia.
Qed.

(** ** The unified-missing counters and the regression tables *)

Section UnifiedMissing.
Variable G : Generator.

(** One shipment adds one to exactly one of the three final counters. *)
Lemma fold_unified_step o c :
  Regression.final_legit_on_time (Journey.fold_unified o c)
  + Regression.final_counterfeit_on_time (Journey.fold_unified o c)
  + Regression.final_missing (Journey.fold_unified o c)
  = Regression.final_legit_on_time c + Regression.final_counterfeit_on_time c
    + Regression.final_missing c + 1.
Proof.
  unfold Journey.fold_unified, Journey.arrived.
  destruct o as [[|] t []]; simpl; lia.
Qed.

Lemma reg_imported_shipment_step p c s :
  returns (Regression.imported_shipment G p c) s
    (fun c' _ =>
       Regression.final_legit_on_time c' + Regression.final_counterfeit_on_time c'
       + Regression.final_missing c'
       = Regression.final_legit_on_time c + Regression.final_counterfeit_on_time c
         + Regression.final_missing c + 1).
Proof.
  unfold returns. rewrite reg_imported_journey. apply returns_bind.
  eapply returns_weaken; [apply journey_returns |].
  intros o s' _. apply returns_ret, fold_unified_step.
Qed.

Lemma reg_local_shipment_step pc pw pl c s :
  returns (Regression.local_shipment G pc pw pl c) s
    (fun c' _ =>
       Regression.final_legit_on_time c' + Regression.final_counterfeit_on_time c'
       + Regression.final_missing c'
       = Regression.final_legit_on_time c + Regression.final_counterfeit_on_time c
         + Regression.final_missing c + 1).
Proof.
  unfold returns. rewrite reg_local_journey. apply returns_bind.
  eapply returns_weaken; [apply journey_returns |].
  intros o s' _. apply returns_ret, fold_unified_step.
Qed.

Lemma returns_truediv (a b : Z) (s : rng G) post :
  b <> 0 -> post (inject_Z a / inject_Z b)%Q s -> returns (py_truediv a b) s post.
Proof.
  intros Hb H. unfold py_truediv.
  replace (b =? 0) with false by (symmetry; now apply Z.eqb_neq).
  now apply returns_ret.
Qed.

Lemma reg_main_iteration_returns N acc s :
  1 <= N ->
  returns (Regression.main_iteration G N acc) s
    (fun acc' _ => exists row lrow,
       acc' = (fst acc ++ [row], snd acc ++ [lrow]) /\
       in_unit_interval (Regression.row_missing_frac row) /\
       in_unit_interval (Regression.lrow_missing_frac lrow)).
Proof.
  intros HN. destruct acc as [imported_data local_data].
  unfold Regression.main_iteration.
  apply returns_bind.
  eapply returns_weaken; [apply reg_imported_run |].
  intros ri s1 (_ & _ & Hi). rewrite Z2Nat.id in Hi by lia.
  apply returns_bind.
  eapply returns_weaken; [apply reg_local_run |].
  intros rl s2 (_ & _ & Hl). rewrite Z2Nat.id in Hl by lia.
  apply returns_bind, returns_truediv; [lia |].
  apply returns_bind, returns_truediv; [lia |].
  apply returns_ret. eexists _, _. split; [reflexivity |].
  split; apply Zfraction_bounds; lia.
Qed.

Lemma reg_main_simulation_returns num_sims N s :
  1 <= N ->
  returns (Regression.main_simulation G num_sims N) s
    (fun dfs _ =>
       length (fst dfs) = Z.to_nat num_sims /\
       length (snd dfs) = Z.to_nat num_sims /\
       Forall (fun row => in_unit_interval (Regression.row_missing_frac row))
              (fst dfs) /\
       Forall (fun row => in_unit_interval (Regression.lrow_missing_frac row))
              (snd dfs)).
Proof.
  intros HN. unfold Regression.main_simulation.
  apply (returns_for_range
           (fun k dfs =>
              length (fst dfs) = k /\ length (snd dfs) = k /\
              Forall (fun row => in_unit_interval (Regression.row_missing_frac row))
                     (fst dfs) /\
              Forall (fun row => in_unit_interval (Regression.lrow_missing_frac row))
                     (snd dfs))).
  - intros k acc s0 _ (L1 & L2 & F1 & F2).
    eapply returns_weaken; [now apply reg_main_iteration_returns |].
    intros acc' _ (row & lrow & -> & Hr & Hl). simpl.
    rewrite !length_app, L1, L2. simpl.
    repeat split; try lia; apply Forall_app; split; auto.
  - simpl. auto.
Qed.

End UnifiedMissing.

(** ** The arrival check *)

Section ArrivalCheck.
Variable G : Generator.

Lemma journey_outcome via p s :
  exists o s', Journey.journey G via p s = (Ok o, s') /\
               Journey.on_time_spec o.
Proof. apply returns_iff, journey_returns. Qed.

Lemma fold_basic_counts o c :
  MC.final_legit_on_time (Journey.fold_basic o c)
    = MC.final_legit_on_time c + Journey.on_time_count false o /\
  MC.final_counterfeit_on_time (Journey.fold_basic o c)
    = MC.final_counterfeit_on_time c + Journey.on_time_count true o.
Proof.
  unfold Journey.fold_basic, Journey.on_time_count, Journey.is_on_time.
  destruct o as [[|] t []]; simpl; lia.
Qed.

Lemma fold_unified_counts o c :
  Regression.final_legit_on_time (Journey.fold_unified o c)
    = Regression.final_legit_on_time c + Journey.on_time_count false o /\
  Regression.final_counterfeit_on_time (Journey.fold_unified o c)
    = Regression.final_counterfeit_on_time c + Journey.on_time_count true o /\
  Regression.final_missing (Journey.fold_unified o c)
    = Regression.final_missing c + (if Journey.is_on_time o then 0 else 1) /\
  Regression.arrived_shipments (Journey.fold_unified o c)
    = Regression.arrived_shipments c + (if Journey.arrived o then 1 else 0) /\
  Regression.total_transit_time (Journey.fold_unified o c)
    = (if Journey.arrived o
       then (Regression.total_transit_time c + Journey.transit_time o)%Q
       else Regression.total_transit_time c).
Proof.
  unfold Journey.fold_unified, Journey.on_time_count, Journey.is_on_time,
    Journey.arrived.
  destruct o as [[|] t []]; simpl; repeat split; lia.
Qed.

(** A theft at a stop ends the stop loop there, whatever the number of stops
    left: the time of that stop is the last one added. *)
Lemma stops_loop_break n q t s :
  let leg := fst (gen_normal G 0.5 (np_sqrt G 0.6) s) in
  let s1 := snd (gen_normal G 0.5 (np_sqrt G 0.6) s) in
  let u := fst (gen_random G s1) in
  let s2 := snd (gen_random G s1) in
  Qltb u q = true ->
  MC.stops_loop G (S n) q t s = (Ok (np_add t leg, true), s2) /\
  forall c, Regression.stops_loop G (S n) q t c s
            = (Ok (np_add t leg, true, Regression.count_missing c), s2).
Proof.
  simpl. unfold bind, np_normal, np_random, draw, ret.
  destruct (gen_normal G 0.5 (np_sqrt G 0.6) s) as [leg s1]. simpl.
  destruct (gen_random G s1) as [u s2]. simpl.
  intros ->. now split.
Qed.

(** A shipment seized at export ends after the two draws of its class and of
    the seizure: no transit time is drawn for it. *)
Lemma export_seizure_exit p c cr s :
  let u := fst (gen_random G s) in
  let s1 := snd (gen_random G s) in
  let v := fst (gen_random G s1) in
  let s2 := snd (gen_random G s1) in
  let counterfeit := Qltb u (MC.p_counterfeit p) in
  Qltb v (if counterfeit then MC.p_seized_export_counterfeit p
          else MC.p_seized_export_legit p) = true ->
  MC.imported_shipment G p c s = (Ok (MC.count_class counterfeit c), s2) /\
  Regression.imported_shipment G p cr s
  = (Ok (Regression.count_missing (Regression.count_class counterfeit cr)), s2).
Proof.
  unfold MC.imported_shipment, Regression.imported_shipment.
  unfold bind, np_random, draw, ret.
  destruct (gen_random G s) as [u s1]. simpl.
  destruct (Qltb u (MC.p_counterfeit p)); simpl;
    destruct (gen_random G s1) as [v s2]; simpl; intros ->; now split.
Qed.

End ArrivalCheck.

(** ** The zero-total guard of the aggregators *)

Section Guard.
Variable G : Generator.

Lemma mc_arrived_fraction_guard (on_time total : Z) (s : rng G) :
  exists q, MC.arrived_fraction G on_time total s = (Ok q, s) /\
            (total = 0 -> q = 0%Q).
Proof.
  unfold MC.arrived_fraction, py_truediv.
  destruct (Z.gtb_spec total 0) as [Hpos | Hle].
  - replace (total =? 0) with false by (symmetry; apply Z.eqb_neq; lia).
    eexists. split; [reflexivity | lia].
  - exists 0%Q. now split.
Qed.

Lemma batch_arrived_fraction_guard (on_time total : Z) (s : rng G) :
  exists q, Batch.arrived_fraction G on_time total s = (Ok q, s) /\
            (total = 0 -> q = 0%Q).
Proof. exact (mc_arrived_fraction_guard on_time total s). Qed.

Lemma truediv_ok (a b : Z) (s : rng G) :
  b <> 0 -> py_truediv a b s = (Ok (inject_Z a / inject_Z b)%Q, s).
Proof.
  intros Hb. unfold py_truediv.
  now replace (b =? 0) with false by (symmetry; now apply Z.eqb_neq).
Qed.

Lemma mc_main_iteration_guard N acc s :
  N <> 0 ->
  exists imported_res local_res s1 s2 acc',
    MC.simulate_imported_drugs G N s = (Ok imported_res, s1) /\
    MC.simulate_local_drugs G N s1 = (Ok local_res, s2) /\
    MC.main_iteration G N acc s = (Ok acc', s2) /\
    (MC.r_final_legit_total imported_res = 0 ->
     MC.imported_legit_arrivals acc' = MC.imported_legit_arrivals acc ++ [0%Q]) /\
    (MC.r_final_counterfeit_total imported_res = 0 ->
     MC.imported_counterfeit_arrivals acc'
     = MC.imported_counterfeit_arrivals acc ++ [0%Q]) /\
    (MC.r_final_legit_total (MC.l_results local_res) = 0 ->
     MC.local_legit_arrivals acc' = MC.local_legit_arrivals acc ++ [0%Q]) /\
    (MC.r_final_counterfeit_total (MC.l_results local_res) = 0 ->
     MC.local_counterfeit_arrivals acc'
     = MC.local_counterfeit_arrivals acc ++ [0%Q]).
Proof.
  intros HN.
  destruct (proj1 (returns_iff _ _ _) (mc_imported_run G N s))
    as (ri & s1 & E1 & _).
  destruct (proj1 (returns_iff _ _ _) (mc_local_run G N s1))
    as (rl & s2 & E2 & _).
  destruct (mc_arrived_fraction_guard (MC.r_final_legit_on_time ri)
              (MC.r_final_legit_total ri) s2) as (q1 & F1 & Z1).
  destruct (mc_arrived_fraction_guard (MC.r_final_counterfeit_on_time ri)
              (MC.r_final_counterfeit_total ri) s2) as (q2 & F2 & Z2).
  destruct (mc_arrived_fraction_guard
              (MC.r_final_legit_on_time (MC.l_results rl))
              (MC.r_final_legit_total (MC.l_results rl)) s2) as (q3 & F3 & Z3).
  destruct (mc_arrived_fraction_guard
              (MC.r_final_counterfeit_on_time (MC.l_results rl))
              (MC.r_final_counterfeit_total (MC.l_results rl)) s2)
    as (q4 & F4 & Z4).
  exists ri, rl, s1, s2. eexists. split; [exact E1 |]. split; [exact E2 |].
  split.
  - unfold MC.main_iteration, bind. rewrite E1, E2.
    rewrite !truediv_ok by exact HN. rewrite F1, F2.
    rewrite !truediv_ok by exact HN. rewrite F3, F4. reflexivity.
  - cbn [MC.imported_legit_arrivals MC.imported_counterfeit_arrivals
           MC.local_legit_arrivals MC.local_counterfeit_arrivals].
    repeat split; intros H0;
      [rewrite (Z1 H0) | rewrite (Z2 H0) | rewrite (Z3 H0) | rewrite (Z4 H0)];
      reflexivity.
Qed.

Lemma batch_iteration_guard N acc s r s1 :
  Batch.simulate_imported_batch G N s = (Ok r, s1) ->
  exists acc',
    Batch.batch_iteration G N acc s = (Ok acc', s1) /\
    (Batch.legit_import r = 0 ->
     Batch.imported_legit_arrivals acc'
     = Batch.imported_legit_arrivals acc ++ [0%Q]) /\
    (Batch.counterfeit_import r = 0 ->
     Batch.imported_counterfeit_arrivals acc'
     = Batch.imported_counterfeit_arrivals acc ++ [0%Q]).
Proof.
  intros E.
  destruct (batch_arrived_fraction_guard (Batch.final_legit r)
              (Batch.legit_import r) s1) as (q1 & F1 & Z1).
  destruct (batch_arrived_fraction_guard (Batch.final_counterfeit r)
              (Batch.counterfeit_import r) s1) as (q2 & F2 & Z2).
  eexists. split.
  - unfold Batch.batch_iteration, bind. rewrite E. cbv zeta.
    rewrite F1, F2. reflexivity.
  - cbn [Batch.imported_legit_arrivals Batch.imported_counterfeit_arrivals].
    split; intros H0; [rewrite (Z1 H0) | rewrite (Z2 H0)]; reflexivity.
Qed.

End Guard.

(** ** The on-time fractions of the batch aggregator *)

Section BatchFractions.
Variable G : Generator.
Hypothesis laws : GeneratorLaws G.

Lemma batch_arrived_fraction_range (on_time total : Z) (s : rng G) post :
  0 <= on_time <= total ->
  (forall q, in_unit_interval q -> post q s) ->
  returns (Batch.arrived_fraction G on_time total) s post.
Proof.
  intros Hb H. unfold Batch.arrived_fraction.
  destruct (Z.gtb_spec total 0) as [Hpos | Hle].
  - apply returns_truediv; [lia |]. apply H, Zfraction_bounds; lia.
  - apply returns_ret, H. split; discriminate.
Qed.

Lemma batch_iteration_returns N acc s :
  1 <= N < 2 ^ 53 ->
  returns (Batch.batch_iteration G N acc) s
    (fun acc' _ => exists fl fc tl tc,
       acc' = {| Batch.imported_legit_arrivals :=
                   Batch.imported_legit_arrivals acc ++ [fl];
                 Batch.imported_counterfeit_arrivals :=
                   Batch.imported_counterfeit_arrivals acc ++ [fc];
                 Batch.imported_legit_total :=
                   Batch.imported_legit_total acc ++ [tl];
                 Batch.imported_counterfeit_total :=
                   Batch.imported_counterfeit_total acc ++ [tc] |} /\
       in_unit_interval fl /\ in_unit_interval fc).
Proof.
  intros HN. unfold Batch.batch_iteration. apply returns_bind.
  eapply returns_weaken; [now apply batch_run |].
  intros r s1 (Hsum & Hl & Hc). cbv zeta.
  apply returns_bind, batch_arrived_fraction_range; [exact Hl |].
  intros fl Hfl.
  apply returns_bind, batch_arrived_fraction_range; [exact Hc |].
  intros fc Hfc.
  apply returns_ret. now eexists fl, fc, _, _.
Qed.

Lemma batch_loop_returns n N s :
  1 <= N < 2 ^ 53 ->
  returns (for_range n (Batch.batch_iteration G N) Batch.empty_series) s
    (fun acc _ =>
       length (Batch.imported_legit_arrivals acc) = n /\
       length (Batch.imported_counterfeit_arrivals acc) = n /\
       Forall in_unit_interval (Batch.imported_legit_arrivals acc) /\
       Forall in_unit_interval (Batch.imported_counterfeit_arrivals acc)).
Proof.
  intros HN.
  apply (returns_for_range
           (fun k acc =>
              length (Batch.imported_legit_arrivals acc) = k /\
              length (Batch.imported_counterfeit_arrivals acc) = k /\
              Forall in_unit_interval (Batch.imported_legit_arrivals acc) /\
              Forall in_unit_interval (Batch.imported_counterfeit_arrivals acc))).
  - intros k acc s0 _ (L1 & L2 & F1 & F2).
    eapply returns_weaken; [now apply batch_iteration_returns |].
    intros acc' _ (fl & fc & tl & tc & -> & Hfl & Hfc). simpl.
    rewrite !length_app, L1, L2. simpl.
    repeat split; try lia; apply Forall_app; split; auto.
  - simpl. auto.
Qed.

End BatchFractions.

(** ** The entry points on an invalid configuration *)

Section NoValidation.
Variable G : Generator.

Lemma raises_bind {A B} e (m : M G A) (f : A -> M G B) s :
  raises_only e m -> (forall a s', raises e (f a) s') ->
  raises e (bind m f) s.
Proof.
  intros Hm Hf. unfold raises, bind. specialize (Hm s).
  destruct (m s) as [[a | e'] s'].
  - apply Hf.
  - subst e'. now exists s'.
Qed.

Lemma draw_never_raises {A} e (f : rng G -> A * rng G) :
  raises_only e (draw f).
Proof. intros s. unfold draw. now destruct (f s). Qed.

Lemma beta_raises_only a b : raises_only ValueError (np_beta (G := G) a b).
Proof.
  intros s. unfold np_beta. destruct (_ || _); [reflexivity |].
  apply draw_never_raises.
Qed.

Lemma poisson_raises_only lam :
  raises_only ValueError (np_poisson (G := G) lam).
Proof.
  intros s. unfold np_poisson. destruct (Qltb lam 0); [reflexivity |].
  apply draw_never_raises.
Qed.

Lemma binomial_raises_only n p :
  - 2 ^ 63 <= n < 2 ^ 63 ->
  raises_only ValueError (np_binomial (G := G) n p).
Proof.
  intros Hn s. unfold np_binomial.
  replace (n <? - 2 ^ 63) with false by (symmetry; apply Z.ltb_ge; lia).
  replace (2 ^ 63 - 1 <? n) with false by (symmetry; apply Z.ltb_ge; lia).
  cbn [orb]. destruct (_ || _); [reflexivity |].
  apply draw_never_raises.
Qed.

(** With [N = 0] the on-time share is [0 / 0], and [int(nan)] raises. *)
Lemma batch_zero_raises s :
  raises ValueError (Batch.simulate_imported_batch G 0) s.
Proof.
  unfold Batch.simulate_imported_batch.
  apply raises_bind; [apply draw_never_raises | intros p_counterfeit s1].
  apply raises_bind; [apply binomial_raises_only; lia | intros counterfeit s2].
  apply raises_bind; [apply draw_never_raises | intros p_sec s3].
  apply raises_bind; [apply beta_raises_only | intros p_sel s4].
  apply raises_bind; [apply poisson_raises_only | intros seized_ec s5].
  apply raises_bind; [apply poisson_raises_only | intros seized_el s6].
  apply raises_bind; [apply draw_never_raises | intros p_sic s7].
  apply raises_bind; [apply beta_raises_only | intros p_sil s8].
  apply raises_bind; [apply poisson_raises_only | intros seized_ic s9].
  apply raises_bind; [apply poisson_raises_only | intros seized_il s10].
  exists s10. reflexivity.
Qed.

Lemma batch_negative_raises N s :
  - 2 ^ 63 <= N < 0 ->
  Batch.simulate_imported_batch G N s
  = (Raise ValueError, snd (gen_uniform G 0.1 0.2 s)).
Proof.
  intros HN. unfold Batch.simulate_imported_batch, bind at 1.
  unfold np_uniform, draw. destruct (gen_uniform G 0.1 0.2 s) as [p s1].
  unfold bind, np_binomial.
  replace (N <? - 2 ^ 63) with false by (symmetry; apply Z.ltb_ge; lia).
  replace (2 ^ 63 - 1 <? N) with false by (symmetry; apply Z.ltb_ge; lia).
  now replace (N <? 0) with true by (symmetry; apply Z.ltb_lt; lia).
Qed.

(** A number of shipments that does not fit a C [long] stops the binomial
    draw before its parameters are checked. *)
Lemma batch_overflow_raises N s :
  N < - 2 ^ 63 \/ 2 ^ 63 <= N ->
  Batch.simulate_imported_batch G N s
  = (Raise OverflowError, snd (gen_uniform G 0.1 0.2 s)).
Proof.
  intros HN. unfold Batch.simulate_imported_batch, bind at 1.
  unfold np_uniform, draw. destruct (gen_uniform G 0.1 0.2 s) as [p s1].
  unfold bind, np_binomial.
  destruct HN as [HN | HN].
  - now replace (N <? - 2 ^ 63) with true by (symmetry; apply Z.ltb_lt; lia).
  - replace (2 ^ 63 - 1 <? N) with true by (symmetry; apply Z.ltb_lt; lia).
    now rewrite orb_true_r.
Qed.

Lemma first_iteration {A} (body : A -> M G A) (a : A) (n : Z) :
  1 <= n ->
  for_range (Z.to_nat n) body a
  = bind (body a) (for_range (Nat.pred (Z.to_nat n)) body).
Proof.
  intros Hn. destruct (Z.to_nat n) as [| k] eqn:E; [lia | reflexivity].
Qed.

Lemma no_iteration {A} (body : A -> M G A) (a : A) (n : Z) :
  n <= 0 -> for_range (Z.to_nat n) body a = ret a.
Proof.
  intros Hn. now replace (Z.to_nat n) with O by lia.
Qed.

Lemma mc_main_iteration_total N acc s :
  N <> 0 -> returns (MC.main_iteration G N acc) s (fun _ _ => True).
Proof.
  intros HN.
  destruct (mc_main_iteration_guard G N acc s HN)
    as (ri & rl & s1 & s2 & acc' & _ & _ & E & _).
  unfold returns. now rewrite E.
Qed.

Lemma reg_main_iteration_total N acc s :
  N <> 0 -> returns (Regression.main_iteration G N acc) s (fun _ _ => True).
Proof.
  intros HN. destruct acc as [imported_data local_data].
  unfold Regression.main_iteration.
  apply returns_bind.
  eapply returns_weaken; [apply reg_imported_run |]. intros ri s1 _.
  apply returns_bind.
  eapply returns_weaken; [apply reg_local_run |]. intros rl s2 _.
  apply returns_bind, returns_truediv; [exact HN |].
  apply returns_bind, returns_truediv; [exact HN |].
  now apply returns_ret.
Qed.

Lemma loop_total {A} (body : A -> M G A) n a s :
  (forall a s, returns (body a) s (fun _ _ => True)) ->
  returns (for_range n body a) s (fun _ _ => True).
Proof.
  intros H.
  apply (returns_for_range (fun _ _ => True)); [| exact I].
  intros k a0 s0 _ _. apply H.
Qed.

Lemma mc_main_returns num_sims N s :
  N <> 0 -> exists r s', MC.main_simulation G num_sims N s = (Ok r, s').
Proof.
  intros HN.
  assert (H : returns (MC.main_simulation G num_sims N) s (fun _ _ => True)).
  { unfold MC.main_simulation. apply returns_bind.
    eapply returns_weaken;
      [apply loop_total; intros; now apply mc_main_iteration_total |].
    intros acc s' _. now apply returns_ret. }
  apply returns_iff in H. destruct H as (r & s' & E & _). now exists r, s'.
Qed.

Lemma reg_main_returns num_sims N s :
  N <> 0 -> exists r s', Regression.main_simulation G num_sims N s = (Ok r, s').
Proof.
  intros HN.
  assert (H : returns (Regression.main_simulation G num_sims N) s
                (fun _ _ => True)).
  { unfold Regression.main_simulation.
    apply loop_total; intros; now apply reg_main_iteration_total. }
  apply returns_iff in H. destruct H as (r & s' & E & _). now exists r, s'.
Qed.

Lemma mc_main_zero_N num_sims s :
  1 <= num_sims ->
  exists r1 s1 r2 s2,
    MC.simulate_imported_drugs G 0 s = (Ok r1, s1) /\
    MC.simulate_local_drugs G 0 s1 = (Ok r2, s2) /\
    MC.main_simulation G num_sims 0 s = (Raise ZeroDivisionError, s2).
Proof.
  intros Hn.
  destruct (proj1 (returns_iff _ _ _) (mc_imported_run G 0 s))
    as (r1 & s1 & E1 & _).
  destruct (proj1 (returns_iff _ _ _) (mc_local_run G 0 s1))
    as (r2 & s2 & E2 & _).
  exists r1, s1, r2, s2. split; [exact E1 |]. split; [exact E2 |].
  unfold MC.main_simulation. rewrite first_iteration by exact Hn.
  unfold bind at 1 2. unfold MC.main_iteration, bind at 1.
  rewrite E1. unfold bind at 1. rewrite E2. reflexivity.
Qed.

Lemma reg_main_zero_N num_sims s :
  1 <= num_sims ->
  exists r1 s1 r2 s2,
    Regression.simulate_imported_drugs G 0 s = (Ok r1, s1) /\
    Regression.simulate_local_drugs G 0 s1 = (Ok r2, s2) /\
    Regression.main_simulation G num_sims 0 s = (Raise ZeroDivisionError, s2).
Proof.
  intros Hn.
  destruct (proj1 (returns_iff _ _ _) (reg_imported_run G 0 s))
    as (r1 & s1 & E1 & _).
  destruct (proj1 (returns_iff _ _ _) (reg_local_run G 0 s1))
    as (r2 & s2 & E2 & _).
  exists r1, s1, r2, s2. split; [exact E1 |]. split; [exact E2 |].
  unfold Regression.main_simulation. rewrite first_iteration by exact Hn.
  unfold bind at 1. unfold Regression.main_iteration, bind at 1.
  rewrite E1. unfold bind at 1. rewrite E2. reflexivity.
Qed.

Lemma batch_main_raises e num_sims N s :
  1 <= num_sims -> raises e (Batch.simulate_imported_batch G N) s ->
  exists s', Batch.simulate_imported_batch G N s = (Raise e, s') /\
             Batch.batch_simulation G num_sims N s = (Raise e, s').
Proof.
  intros Hn [s' E]. exists s'. split; [exact E |].
  unfold Batch.batch_simulation. rewrite first_iteration by exact Hn.
  unfold bind at 1 2. unfold Batch.batch_iteration, bind at 1.
  now rewrite E.
Qed.

End NoValidation.

(** ** The warehouse-theft probability and the on-time count *)

Section Coupling.
Variable G : Generator.

Lemma stop_sequence_coupling n (q q' : Q) t s t' s' :
  (q <= q')%Q ->
  Journey.stop_sequence G n q' t s = (Ok (t', false), s') ->
  Journey.stop_sequence G n q t s = (Ok (t', false), s').
Proof.
  intros Hq. revert t s. induction n as [| n IH]; intros t s; simpl.
  - trivial.
  - unfold bind, np_normal, np_random, draw, ret.
    destruct (gen_normal G 0.5 (np_sqrt G 0.6) s) as [leg s1].
    destruct (gen_random G s1) as [u s2].
    destruct (Qltb u q') eqn:E'; [discriminate |].
    replace (Qltb u q) with false.
    + apply IH.
    + symmetry. apply Qltb_ge. apply Qltb_ge in E'.
      now apply Qle_trans with q'.
Qed.

Lemma bind_ok_inv {A B} (m : M G A) (f : A -> M G B) s b s' :
  bind m f s = (Ok b, s') ->
  exists a s1, m s = (Ok a, s1) /\ f a s1 = (Ok b, s').
Proof.
  unfold bind. destruct (m s) as [[a | e] s1]; [| discriminate].
  intros H. now exists a, s1.
Qed.

Lemma bind_ok {A B} (m : M G A) (f : A -> M G B) s a s1 :
  m s = (Ok a, s1) -> bind m f s = f a s1.
Proof. intros E. unfold bind. now rewrite E. Qed.

Lemma stops_to_arrival_coupling lam p q c t s o s' :
  (MC.p_warehouse_theft p <= q)%Q ->
  Journey.stops_to_arrival G lam (Journey.with_warehouse_theft p q) c t s = (Ok o, s') ->
  Journey.status o = Journey.on_time ->
  Journey.stops_to_arrival G lam p c t s = (Ok o, s').
Proof.
  intros Hq H Ho. unfold Journey.stops_to_arrival in *.
  apply bind_ok_inv in H. destruct H as (k & s1 & E1 & H).
  apply bind_ok_inv in H. destruct H as ([t1 stolen] & s2 & E2 & H).
  cbn [MC.p_warehouse_theft MC.p_last_mile_theft Journey.with_warehouse_theft] in *.
  destruct stolen.
  - inversion H; subst. discriminate.
  - rewrite (bind_ok _ _ _ _ _ E1).
    rewrite (bind_ok _ _ _ _ _ (stop_sequence_coupling _ _ _ _ _ _ _ Hq E2)).
    exact H.
Qed.

Lemma journey_coupling via p q s o s' :
  (MC.p_warehouse_theft p <= q)%Q ->
  Journey.journey G via (Journey.with_warehouse_theft p q) s = (Ok o, s') ->
  Journey.status o = Journey.on_time ->
  Journey.journey G via p s = (Ok o, s').
Proof.
  intros Hq H Ho. unfold Journey.journey in *.
  apply bind_ok_inv in H. destruct H as (u & s1 & E1 & H).
  rewrite (bind_ok _ _ _ _ _ E1).
  cbn [MC.p_counterfeit MC.p_seized_export_counterfeit MC.p_seized_export_legit
       MC.p_seized_import_counterfeit MC.p_seized_import_legit
       Journey.with_warehouse_theft] in *.
  destruct via; [| now apply stops_to_arrival_coupling with q].
  apply bind_ok_inv in H. destruct H as (seized & s2 & E2 & H).
  rewrite (bind_ok _ _ _ _ _ E2).
  destruct seized; [exact H |].
  apply bind_ok_inv in H. destruct H as (t & s3 & E3 & H).
  rewrite (bind_ok _ _ _ _ _ E3).
  apply bind_ok_inv in H. destruct H as (seized & s4 & E4 & H).
  rewrite (bind_ok _ _ _ _ _ E4).
  destruct seized; [exact H |].
  now apply stops_to_arrival_coupling with q.
Qed.

(** Raising the warehouse-theft probability of one shipment, with the stream
    of draws unchanged, cannot add to its on-time count in either script. *)
Lemma imported_shipment_coupling p q c s :
  (MC.p_warehouse_theft p <= q)%Q ->
  forall c' s',
    MC.imported_shipment G (Journey.with_warehouse_theft p q) c s = (Ok c', s') ->
    exists d t',
      MC.imported_shipment G p c s = (Ok d, t') /\
      MC.final_legit_on_time c' <= MC.final_legit_on_time d /\
      MC.final_counterfeit_on_time c' <= MC.final_counterfeit_on_time d.
Proof.
  intros Hq c' s' H.
  destruct (proj1 (returns_iff _ _ _) (journey_returns G Journey.imported p s))
    as (o & t' & Eo & _).
  exists (Journey.fold_basic o c), t'. split.
  - rewrite mc_imported_journey. now rewrite (bind_ok _ _ _ _ _ Eo).
  - rewrite mc_imported_journey in H. apply bind_ok_inv in H.
    destruct H as (o' & s1 & Eo' & H). inversion H; subst. clear H.
    destruct (Journey.status o') eqn:Es;
      try (destruct (fold_basic_counts o c) as [-> ->];
           destruct (fold_basic_counts o' c) as [-> ->];
           unfold Journey.on_time_count at 1 3, Journey.is_on_time;
           rewrite Es; cbn [andb];
           unfold Journey.on_time_count, Journey.is_on_time;
           destruct (Journey.status o), (Journey.is_counterfeit o);
           simpl; lia).
    rewrite (journey_coupling _ _ _ _ _ _ Hq Eo' Es) in Eo.
    inversion Eo; subst. lia.
Qed.

End Coupling.

(** Over a whole run the stream is shared: a theft ends a shipment early, the
    next shipment reads the draws the stolen one left, and the on-time count
    of the run can go up. *)
Example fixed_stream_not_monotone :
  (MC.p_warehouse_theft Tape.probs_lo <= 0.000009)%Q /\
  fst (for_range 2 (MC.imported_shipment Tape.generator Tape.probs_lo)
                 MC.zero_counters Tape.shifted)
  = Ok {| MC.legit_total := 2; MC.counterfeit_total := 0;
          MC.final_legit_on_time := 0; MC.final_counterfeit_on_time := 0 |} /\
  fst (for_range 2
         (MC.imported_shipment Tape.generator
            (Journey.with_warehouse_theft Tape.probs_lo 0.000009))
         MC.zero_counters Tape.shifted)
  = Ok {| MC.legit_total := 2; MC.counterfeit_total := 0;
          MC.final_legit_on_time := 1; MC.final_counterfeit_on_time := 0 |}.
Proof. repeat split; vm_compute; congruence. Qed.

(** A shipment whose legs of 4 days and of one bit less than 3 days add up,
    as doubles, to 7 days: it arrives, late. *)
Example late_by_rounding :
  let s := [0.5; 0.5; 4; 0.5; 1; 3 - (1 # 2 ^ 51); 0.5; 0.5]%Q in
  fst (MC.imported_shipment Tape.generator Tape.probs_lo MC.zero_counters s)
  = Ok (MC.count_class false MC.zero_counters) /\
  fst (Regression.imported_shipment Tape.generator Tape.probs_lo
         Regression.zero_counters s)
  = Ok (Regression.count_missing
          (Regression.count_arrival 7
             (Regression.count_class false Regression.zero_counters))).
Proof. split; vm_compute; reflexivity. Qed.

(** ** The stop count of a shipment *)

Section StopCount.
Variable G : Generator.

Lemma bind_draw {A B} (f : rng G -> A * rng G) (k : A -> M G B) s :
  bind (draw f) k s = k (fst (f s)) (snd (f s)).
Proof. unfold bind, draw. now destruct (f s). Qed.

Lemma bind_assoc {A B C} (m : M G A) (f : A -> M G B) (g : B -> M G C) s :
  bind (bind m f) g s = bind m (fun a => bind (f a) g) s.
Proof. unfold bind. now destruct (m s) as [[a | e] s']. Qed.

Lemma stop_count_succ (k : Z) : exists n, Z.to_nat (Z.max 1 k) = S n.
Proof. exists (Nat.pred (Z.to_nat (Z.max 1 k))). lia. Qed.

Lemma local_stop_count pc pw pl c cr s :
  let u := fst (gen_random G s) in
  let s1 := snd (gen_random G s) in
  let k := fst (gen_poisson G 1 s1) in
  let s2 := snd (gen_poisson G 1 s1) in
  let counterfeit := Qltb u pc in
  let c1 := MC.count_class counterfeit c in
  let cr1 := Regression.count_class counterfeit cr in
  MC.local_shipment G pc pw pl c s
  = (' (t, stolen) <- MC.stops_loop G (Z.to_nat (Z.max 1 k)) pw 0.0 ;;
     if stolen : bool then ret c1 else
     w <- np_random ;;
     if Qltb w pl then ret c1 else
     if Qltb t 7 then ret (MC.count_on_time counterfeit c1) else ret c1) s2 /\
  Regression.local_shipment G pc pw pl cr s
  = (' (t, stolen, c2) <- Regression.stops_loop G (Z.to_nat (Z.max 1 k)) pw 0.0 cr1 ;;
     if stolen : bool then ret c2 else
     w <- np_random ;;
     if Qltb w pl then ret (Regression.count_missing c2) else
     let c3 := Regression.count_arrival t c2 in
     if Qltb t 7 then ret (Regression.count_on_time counterfeit c3)
     else ret (Regression.count_missing c3)) s2.
Proof.
  cbv zeta. split.
  - unfold MC.local_shipment, MC.draw_num_stops, np_random.
    rewrite bind_draw. cbv zeta. rewrite bind_assoc, np_poisson_ok by reflexivity.
    rewrite bind_draw. reflexivity.
  - unfold Regression.local_shipment, Regression.draw_num_stops, np_random.
    rewrite bind_draw. cbv zeta. rewrite bind_assoc, np_poisson_ok by reflexivity.
    rewrite bind_draw. reflexivity.
Qed.

Lemma bind_ret {A B} (a : A) (k : A -> M G B) s : bind (ret a) k s = k a s.
Proof. reflexivity. Qed.

Lemma imported_stop_count p c cr s :
  let u := fst (gen_random G s) in
  let s1 := snd (gen_random G s) in
  let v := fst (gen_random G s1) in
  let s2 := snd (gen_random G s1) in
  let base := fst (gen_normal G 4.74 (np_sqrt G 0.785) s2) in
  let s3 := snd (gen_normal G 4.74 (np_sqrt G 0.785) s2) in
  let w := fst (gen_random G s3) in
  let s4 := snd (gen_random G s3) in
  let k := fst (gen_poisson G 3 s4) in
  let s5 := snd (gen_poisson G 3 s4) in
  let counterfeit := Qltb u (MC.p_counterfeit p) in
  let c1 := MC.count_class counterfeit c in
  let cr1 := Regression.count_class counterfeit cr in
  Qltb v (if counterfeit then MC.p_seized_export_counterfeit p
          else MC.p_seized_export_legit p) = false ->
  Qltb w (if counterfeit then MC.p_seized_import_counterfeit p
          else MC.p_seized_import_legit p) = false ->
  MC.imported_shipment G p c s
  = (' (t, stolen) <-
        MC.stops_loop G (Z.to_nat (Z.max 1 k)) (MC.p_warehouse_theft p) base ;;
     if stolen : bool then ret c1 else
     x <- np_random ;;
     if Qltb x (MC.p_last_mile_theft p) then ret c1 else
     if Qltb t 7 then ret (MC.count_on_time counterfeit c1) else ret c1) s5 /\
  Regression.imported_shipment G p cr s
  = (' (t, stolen, c2) <-
        Regression.stops_loop G (Z.to_nat (Z.max 1 k))
                              (MC.p_warehouse_theft p) base cr1 ;;
     if stolen : bool then ret c2 else
     x <- np_random ;;
     if Qltb x (MC.p_last_mile_theft p)
     then ret (Regression.count_missing c2) else
     let c3 := Regression.count_arrival t c2 in
     if Qltb t 7 then ret (Regression.count_on_time counterfeit c3)
     else ret (Regression.count_missing c3)) s5.
Proof.
  cbv zeta. intros Hv Hw. split.
  - unfold MC.imported_shipment, MC.draw_num_stops, np_random, np_normal,
      MC.base_mean, MC.base_var.
    rewrite bind_draw. cbv zeta.
    destruct (Qltb (fst (gen_random G s)) (MC.p_counterfeit p));
      rewrite bind_assoc, bind_draw, bind_ret, Hv, bind_draw;
      rewrite bind_assoc, bind_draw, bind_ret, Hw;
      cbv zeta; rewrite bind_assoc, np_poisson_ok by reflexivity;
      rewrite bind_draw; reflexivity.
  - unfold Regression.imported_shipment, Regression.draw_num_stops, np_random,
      np_normal, Regression.base_mean, Regression.base_var.
    rewrite bind_draw. cbv zeta.
    destruct (Qltb (fst (gen_random G s)) (MC.p_counterfeit p));
      rewrite bind_assoc, bind_draw, bind_ret, Hv, bind_draw;
      rewrite bind_assoc, bind_draw, bind_ret, Hw;
      cbv zeta; rewrite bind_assoc, np_poisson_ok by reflexivity;
      rewrite bind_draw; reflexivity.
Qed.

(** A theft at the first stop ends a local shipment, whatever the Poisson
    draw was. *)
Lemma local_first_stop pc pw pl c cr s :
  let u := fst (gen_random G s) in
  let s1 := snd (gen_random G s) in
  let s2 := snd (gen_poisson G 1 s1) in
  let s3 := snd (gen_normal G 0.5 (np_sqrt G 0.6) s2) in
  let x := fst (gen_random G s3) in
  let s4 := snd (gen_random G s3) in
  let counterfeit := Qltb u pc in
  Qltb x pw = true ->
  MC.local_shipment G pc pw pl c s = (Ok (MC.count_class counterfeit c), s4) /\
  Regression.local_shipment G pc pw pl cr s
  = (Ok (Regression.count_missing (Regression.count_class counterfeit cr)), s4).
Proof.
  cbv zeta. intros Hx.
  destruct (local_stop_count pc pw pl c cr s) as [E1 E2]. cbv zeta in E1, E2.
  destruct (stop_count_succ (fst (gen_poisson G 1 (snd (gen_random G s)))))
    as [n Hn].
  rewrite Hn in E1, E2. rewrite E1, E2.
  destruct (stops_loop_break G n pw 0.0 _ Hx) as [B1 B2].
  rewrite (bind_ok G _ _ _ _ _ B1), (bind_ok G _ _ _ _ _ (B2 _)).
  split; reflexivity.
Qed.

Lemma imported_first_stop p c cr s :
  let u := fst (gen_random G s) in
  let s1 := snd (gen_random G s) in
  let v := fst (gen_random G s1) in
  let s2 := snd (gen_random G s1) in
  let s3 := snd (gen_normal G 4.74 (np_sqrt G 0.785) s2) in
  let w := fst (gen_random G s3) in
  let s4 := snd (gen_random G s3) in
  let s5 := snd (gen_poisson G 3 s4) in
  let s6 := snd (gen_normal G 0.5 (np_sqrt G 0.6) s5) in
  let x := fst (gen_random G s6) in
  let s7 := snd (gen_random G s6) in
  let counterfeit := Qltb u (MC.p_counterfeit p) in
  Qltb v (if counterfeit then MC.p_seized_export_counterfeit p
          else MC.p_seized_export_legit p) = false ->
  Qltb w (if counterfeit then MC.p_seized_import_counterfeit p
          else MC.p_seized_import_legit p) = false ->
  Qltb x (MC.p_warehouse_theft p) = true ->
  MC.imported_shipment G p c s = (Ok (MC.count_class counterfeit c), s7) /\
  Regression.imported_shipment G p cr s
  = (Ok (Regression.count_missing (Regression.count_class counterfeit cr)), s7).
Proof.
  cbv zeta. intros Hv Hw Hx.
  destruct (imported_stop_count p c cr s Hv Hw) as [E1 E2].
  cbv zeta in E1, E2.
  match type of E1 with context [Z.max 1 ?k] =>
    destruct (stop_count_succ k) as [n Hn] end.
  rewrite Hn in E1, E2. rewrite E1, E2.
  match type of E1 with context [MC.stops_loop G _ _ ?t] =>
    destruct (stops_loop_break G n (MC.p_warehouse_theft p) t _ Hx)
      as [B1 B2] end.
  rewrite (bind_ok G _ _ _ _ _ B1), (bind_ok G _ _ _ _ _ (B2 _)).
  split; reflexivity.
Qed.

End StopCount.

(** ** The claims *)

(** C1.  Every run of the journey model over [N] shipments returns two class
    totals that add up to [N]: the per-shipment simulators of both scripts,
    imported and local, always return and do so; the batch simulator does so
    whenever it returns, and it returns for every [N >= 1] that a double
    holds, [N < 2 ^ 53], when the generator keeps to the support of its
    distributions (on an [N] that does not fit a C [long] the binomial draw
    raises [OverflowError]). *)
Theorem class_totals_partition_N (G : Generator) (N : Z) (s : rng G) :
  0 <= N ->
  (exists r s', MC.simulate_imported_drugs G N s = (Ok r, s') /\
     MC.r_final_legit_total r + MC.r_final_counterfeit_total r = N) /\
  (exists r s', MC.simulate_local_drugs G N s = (Ok r, s') /\
     MC.r_final_legit_total (MC.l_results r)
     + MC.r_final_counterfeit_total (MC.l_results r) = N) /\
  (exists r s', Regression.simulate_imported_drugs G N s = (Ok r, s') /\
     Regression.r_final_legit_total (Regression.i_results r)
     + Regression.r_final_counterfeit_total (Regression.i_results r) = N) /\
  (exists r s', Regression.simulate_local_drugs G N s = (Ok r, s') /\
     Regression.r_final_legit_total (Regression.l_results r)
     + Regression.r_final_counterfeit_total (Regression.l_results r) = N) /\
  (forall r s', Batch.simulate_imported_batch G N s = (Ok r, s') ->
     Batch.legit_import r + Batch.counterfeit_import r = N) /\
  (GeneratorLaws G -> 1 <= N -> N < 2 ^ 53 ->
     exists r s', Batch.simulate_imported_batch G N s = (Ok r, s')).
Proof.
  intros HN. pose proof (Z2Nat.id N HN) as E.
  repeat split.
  - apply returns_iff.
    eapply returns_weaken; [apply mc_imported_run | intros r s' H; cbv beta in *; lia].
  - apply returns_iff.
    eapply returns_weaken; [apply mc_local_run | intros r s' H; cbv beta in *; lia].
  - apply returns_iff.
    eapply returns_weaken; [apply reg_imported_run | intros r s' [H _]; lia].
  - apply returns_iff.
    eapply returns_weaken; [apply reg_local_run | intros r s' [H _]; lia].
  - intros r s' Er. exact (partial_elim _ _ _ _ _ (batch_totals_partial G N s) Er).
  - intros L H1 H2.
    destruct (proj1 (returns_iff _ _ _) (batch_run G L N s (conj H1 H2)))
      as (r & s' & Er & _). now exists r, s'.
Qed.

Lemma class_totals_partition_N_witness :
  0 <= 1 /\
  (exists r s',
     MC.simulate_imported_drugs Tape.generator 1 Tape.sample = (Ok r, s') /\
     MC.r_final_legit_total r + MC.r_final_counterfeit_total r = 1) /\
  (exists r s',
     Batch.simulate_imported_batch Tape.generator 1 Tape.sample = (Ok r, s')).
Proof.
  split; [lia |].
  destruct (class_totals_partition_N Tape.generator 1 Tape.sample)
    as (H1 & _ & _ & _ & _ & H6); [lia |].
  split; [exact H1 | apply H6; [exact tape_laws | lia | lia]].
Defined.

(** C2.  In the unified-missing variant every shipment adds one to exactly
    one of [final_legit_on_time], [final_counterfeit_on_time] and
    [final_missing], on the imported and on the local path, so a run over [N]
    shipments returns counters with
    [final_legit_on_time + final_counterfeit_on_time + final_missing = N]. *)
Theorem unified_counters_sum_to_N (G : Generator) (N : Z) (s : rng G) :
  0 <= N ->
  (exists r s', Regression.simulate_imported_drugs G N s = (Ok r, s') /\
     Regression.r_final_legit_on_time (Regression.i_results r)
     + Regression.r_final_counterfeit_on_time (Regression.i_results r)
     + Regression.r_final_missing (Regression.i_results r) = N) /\
  (exists r s', Regression.simulate_local_drugs G N s = (Ok r, s') /\
     Regression.r_final_legit_on_time (Regression.l_results r)
     + Regression.r_final_counterfeit_on_time (Regression.l_results r)
     + Regression.r_final_missing (Regression.l_results r) = N) /\
  (forall p c s0, exists c' s',
     Regression.imported_shipment G p c s0 = (Ok c', s') /\
     Regression.final_legit_on_time c' + Regression.final_counterfeit_on_time c'
     + Regression.final_missing c'
     = Regression.final_legit_on_time c + Regression.final_counterfeit_on_time c
       + Regression.final_missing c + 1) /\
  (forall pc pw pl c s0, exists c' s',
     Regression.local_shipment G pc pw pl c s0 = (Ok c', s') /\
     Regression.final_legit_on_time c' + Regression.final_counterfeit_on_time c'
     + Regression.final_missing c'
     = Regression.final_legit_on_time c + Regression.final_counterfeit_on_time c
       + Regression.final_missing c + 1).
Proof.
  intros HN. pose proof (Z2Nat.id N HN) as E.
  repeat split.
  - apply returns_iff.
    eapply returns_weaken; [apply reg_imported_run | intros r s' (_ & H & _); lia].
  - apply returns_iff.
    eapply returns_weaken; [apply reg_local_run | intros r s' (_ & H & _); lia].
  - intros p c s0. apply returns_iff, reg_imported_shipment_step.
  - intros pc pw pl c s0. apply returns_iff, reg_local_shipment_step.
Qed.

Lemma unified_counters_sum_to_N_witness :
  0 <= 1 /\
  (exists r s',
     Regression.simulate_imported_drugs Tape.generator 1 Tape.sample = (Ok r, s') /\
     Regression.r_final_legit_on_time (Regression.i_results r)
     + Regression.r_final_counterfeit_on_time (Regression.i_results r)
     + Regression.r_final_missing (Regression.i_results r) = 1).
Proof.
  split; [lia |].
  apply (unified_counters_sum_to_N Tape.generator 1 Tape.sample). lia.
Defined.

(** C6.  For [N >= 1] the regression [main_simulation] returns its two
    tables, one row per run, and every [missing_frac] in them lies in [0,1];
    the count behind it satisfies [0 <= final_missing <= N] on both paths. *)
Theorem missing_frac_in_unit_interval
  (G : Generator) (num_sims N : Z) (s : rng G) :
  1 <= N ->
  (exists imported_df local_df s',
     Regression.main_simulation G num_sims N s = (Ok (imported_df, local_df), s') /\
     length imported_df = Z.to_nat num_sims /\
     length local_df = Z.to_nat num_sims /\
     Forall (fun row => (0 <= Regression.row_missing_frac row)%Q /\
                        (Regression.row_missing_frac row <= 1)%Q) imported_df /\
     Forall (fun row => (0 <= Regression.lrow_missing_frac row)%Q /\
                        (Regression.lrow_missing_frac row <= 1)%Q) local_df) /\
  (exists r s', Regression.simulate_imported_drugs G N s = (Ok r, s') /\
     0 <= Regression.r_final_missing (Regression.i_results r) <= N) /\
  (exists r s', Regression.simulate_local_drugs G N s = (Ok r, s') /\
     0 <= Regression.r_final_missing (Regression.l_results r) <= N).
Proof.
  intros HN. assert (E : Z.of_nat (Z.to_nat N) = N) by (apply Z2Nat.id; lia).
  repeat split.
  - destruct (proj1 (returns_iff _ _ _)
                (reg_main_simulation_returns G num_sims N s HN))
      as ([imported_df local_df] & s' & Es & L1 & L2 & F1 & F2).
    now exists imported_df, local_df, s'.
  - apply returns_iff.
    eapply returns_weaken; [apply reg_imported_run | intros r s' (_ & _ & H); lia].
  - apply returns_iff.
    eapply returns_weaken; [apply reg_local_run | intros r s' (_ & _ & H); lia].
Qed.

Lemma missing_frac_in_unit_interval_witness :
  1 <= 1 /\
  (exists imported_df local_df s',
     Regression.main_simulation Tape.generator 2 1 Tape.sample
       = (Ok (imported_df, local_df), s') /\
     length imported_df = Z.to_nat 2 /\
     length local_df = Z.to_nat 2 /\
     Forall (fun row => (0 <= Regression.row_missing_frac row)%Q /\
                        (Regression.row_missing_frac row <= 1)%Q) imported_df /\
     Forall (fun row => (0 <= Regression.lrow_missing_frac row)%Q /\
                        (Regression.lrow_missing_frac row <= 1)%Q) local_df).
Proof.
  split; [lia |].
  apply (missing_frac_in_unit_interval Tape.generator 2 1 Tape.sample). lia.
Defined.

(** C3.  Each shipment body of the per-shipment scripts runs the journey of
    one shipment and folds its outcome into the counters.  The outcome is on
    time exactly when the shipment reached the arrival check with a transit
    time strictly below seven days, and only an on-time outcome adds to an
    on-time counter; the transit time is the sum of the legs as doubles add
    up, [np_add] after [np_add].  The transit time is compared with the
    threshold, and
    added to the run total of the regression variant, for the shipments that
    reached the arrival check and for no others: a shipment ended by a
    seizure or a theft only counts for its class (and as missing).  Once a
    stage has ended a shipment nothing more is drawn or added for it: a
    shipment seized at export draws no transit time at all, and a theft at a
    stop leaves the stop loop with the time of that stop as the last one
    added, whatever the number of stops left. *)
Theorem on_time_iff_arrived_under_seven_days (G : Generator) :
  (forall p c cr s, exists o s',
     Journey.journey G Journey.imported p s = (Ok o, s') /\
     MC.imported_shipment G p c s = (Ok (Journey.fold_basic o c), s') /\
     Regression.imported_shipment G p cr s
       = (Ok (Journey.fold_unified o cr), s') /\
     (Journey.status o = Journey.on_time <->
      Journey.arrived o = true /\ (Journey.transit_time o < 7)%Q)) /\
  (forall pc pw pl c cr s, exists o s',
     Journey.journey G Journey.local (Journey.local_probs pc pw pl) s
       = (Ok o, s') /\
     MC.local_shipment G pc pw pl c s = (Ok (Journey.fold_basic o c), s') /\
     Regression.local_shipment G pc pw pl cr s
       = (Ok (Journey.fold_unified o cr), s') /\
     (Journey.status o = Journey.on_time <->
      Journey.arrived o = true /\ (Journey.transit_time o < 7)%Q)) /\
  (forall o c,
     MC.final_legit_on_time (Journey.fold_basic o c)
       = MC.final_legit_on_time c + Journey.on_time_count false o /\
     MC.final_counterfeit_on_time (Journey.fold_basic o c)
       = MC.final_counterfeit_on_time c + Journey.on_time_count true o) /\
  (forall o c,
     Regression.final_legit_on_time (Journey.fold_unified o c)
       = Regression.final_legit_on_time c + Journey.on_time_count false o /\
     Regression.final_counterfeit_on_time (Journey.fold_unified o c)
       = Regression.final_counterfeit_on_time c + Journey.on_time_count true o /\
     Regression.final_missing (Journey.fold_unified o c)
       = Regression.final_missing c + (if Journey.is_on_time o then 0 else 1) /\
     Regression.arrived_shipments (Journey.fold_unified o c)
       = Regression.arrived_shipments c + (if Journey.arrived o then 1 else 0) /\
     Regression.total_transit_time (Journey.fold_unified o c)
       = (if Journey.arrived o
          then (Regression.total_transit_time c + Journey.transit_time o)%Q
          else Regression.total_transit_time c)) /\
  (forall o c cr,
     Journey.terminated_early o = true ->
     Journey.fold_basic o c = MC.count_class (Journey.is_counterfeit o) c /\
     Journey.fold_unified o cr
     = Regression.count_missing
         (Regression.count_class (Journey.is_counterfeit o) cr)) /\
  (forall p c cr s,
     let u := fst (gen_random G s) in
     let s1 := snd (gen_random G s) in
     let v := fst (gen_random G s1) in
     let s2 := snd (gen_random G s1) in
     let counterfeit := Qltb u (MC.p_counterfeit p) in
     Qltb v (if counterfeit then MC.p_seized_export_counterfeit p
             else MC.p_seized_export_legit p) = true ->
     MC.imported_shipment G p c s = (Ok (MC.count_class counterfeit c), s2) /\
     Regression.imported_shipment G p cr s
     = (Ok (Regression.count_missing (Regression.count_class counterfeit cr)),
        s2)) /\
  (forall n q t s,
     let leg := fst (gen_normal G 0.5 (np_sqrt G 0.6) s) in
     let s1 := snd (gen_normal G 0.5 (np_sqrt G 0.6) s) in
     let u := fst (gen_random G s1) in
     let s2 := snd (gen_random G s1) in
     Qltb u q = true ->
     MC.stops_loop G (S n) q t s = (Ok (np_add t leg, true), s2) /\
     forall c, Regression.stops_loop G (S n) q t c s
               = (Ok (np_add t leg, true, Regression.count_missing c), s2)).
Proof.
  split; [| split; [| split; [| split; [| split; [| split]]]]].
  - intros p c cr s.
    destruct (journey_outcome G Journey.imported p s) as (o & s' & E & Ho).
    exists o, s'. split; [exact E |]. split; [| split; [| exact Ho]].
    + rewrite mc_imported_journey. unfold bind. now rewrite E.
    + rewrite reg_imported_journey. unfold bind. now rewrite E.
  - intros pc pw pl c cr s.
    destruct (journey_outcome G Journey.local (Journey.local_probs pc pw pl) s)
      as (o & s' & E & Ho).
    exists o, s'. split; [exact E |]. split; [| split; [| exact Ho]].
    + rewrite mc_local_journey. unfold bind. now rewrite E.
    + rewrite reg_local_journey. unfold bind. now rewrite E.
  - apply fold_basic_counts.
  - apply fold_unified_counts.
  - intros o c cr. unfold Journey.terminated_early, Journey.fold_basic,
      Journey.fold_unified, Journey.arrived.
    destruct (Journey.status o); (discriminate || now split).
  - apply export_seizure_exit.
  - apply stops_loop_break.
Qed.

Lemma on_time_iff_arrived_under_seven_days_witness :
  let o := {| Journey.is_counterfeit := false; Journey.transit_time := 4.7;
              Journey.status := Journey.seized_import |} in
  Journey.terminated_early o = true /\
  Journey.fold_basic o MC.zero_counters
  = MC.count_class false MC.zero_counters /\
  Journey.fold_unified o Regression.zero_counters
  = Regression.count_missing
      (Regression.count_class false Regression.zero_counters).
Proof.
  intros o. split; [reflexivity |].
  apply (on_time_iff_arrived_under_seven_days Tape.generator). reflexivity.
Defined.

(** C5.  The aggregators guard the per-class division: in a run whose class
    total is zero the on-time fraction appended for that class is 0, and no
    exception is raised.  For [main_simulation] of [distribution_mc.py] this
    holds in every iteration with [N <> 0] (the iteration also divides by
    [N]); for [batch_simulation] in every iteration whose batch run
    returned. *)
Theorem zero_class_total_gives_zero_fraction
  (G : Generator) (N : Z) (s : rng G) :
  N <> 0 ->
  (forall acc, exists imported_res local_res s1 s2 acc',
     MC.simulate_imported_drugs G N s = (Ok imported_res, s1) /\
     MC.simulate_local_drugs G N s1 = (Ok local_res, s2) /\
     MC.main_iteration G N acc s = (Ok acc', s2) /\
     (MC.r_final_legit_total imported_res = 0 ->
      MC.imported_legit_arrivals acc' = MC.imported_legit_arrivals acc ++ [0%Q]) /\
     (MC.r_final_counterfeit_total imported_res = 0 ->
      MC.imported_counterfeit_arrivals acc'
      = MC.imported_counterfeit_arrivals acc ++ [0%Q]) /\
     (MC.r_final_legit_total (MC.l_results local_res) = 0 ->
      MC.local_legit_arrivals acc' = MC.local_legit_arrivals acc ++ [0%Q]) /\
     (MC.r_final_counterfeit_total (MC.l_results local_res) = 0 ->
      MC.local_counterfeit_arrivals acc'
      = MC.local_counterfeit_arrivals acc ++ [0%Q])) /\
  (forall acc r s1,
     Batch.simulate_imported_batch G N s = (Ok r, s1) ->
     exists acc',
       Batch.batch_iteration G N acc s = (Ok acc', s1) /\
       (Batch.legit_import r = 0 ->
        Batch.imported_legit_arrivals acc'
        = Batch.imported_legit_arrivals acc ++ [0%Q]) /\
       (Batch.counterfeit_import r = 0 ->
        Batch.imported_counterfeit_arrivals acc'
        = Batch.imported_counterfeit_arrivals acc ++ [0%Q])) /\
  (forall on_time s0,
     MC.arrived_fraction G on_time 0 s0 = (Ok 0%Q, s0) /\
     Batch.arrived_fraction G on_time 0 s0 = (Ok 0%Q, s0)).
Proof.
  intros HN. split; [| split].
  - intros acc. now apply mc_main_iteration_guard.
  - intros acc r s1. apply batch_iteration_guard.
  - intros on_time s0. split; reflexivity.
Qed.

Lemma zero_class_total_gives_zero_fraction_witness :
  1 <> 0 /\
  (forall on_time s0,
     MC.arrived_fraction Tape.generator on_time 0 s0 = (Ok 0%Q, s0) /\
     Batch.arrived_fraction Tape.generator on_time 0 s0 = (Ok 0%Q, s0)).
Proof.
  split; [lia |].
  apply (zero_class_total_gives_zero_fraction Tape.generator 1 Tape.sample).
  lia.
Defined.

(** C7.  In both per-shipment scripts the stop count of a shipment is
    [max(1, k)] for [k] drawn from [np.random.poisson(lambda_stops)], with
    [lambda_stops] 1 on the local path, where every shipment draws it right
    after its class, and 3 on the imported path, where the shipments that
    passed both customs draw it: from the state left by that draw the
    shipment body runs the stop loop [max(1, k)] times, which is at least
    once, and then the last-mile and the arrival checks.  So a first stop is
    made whatever the Poisson draw, zero included: a theft at that stop ends
    the shipment. *)
Theorem num_stops_at_least_one (G : Generator) :
  (forall pc pw pl c cr s,
     let u := fst (gen_random G s) in
     let s1 := snd (gen_random G s) in
     let k := fst (gen_poisson G 1 s1) in
     let s2 := snd (gen_poisson G 1 s1) in
     let counterfeit := Qltb u pc in
     let c1 := MC.count_class counterfeit c in
     let cr1 := Regression.count_class counterfeit cr in
     exists n,
       Z.to_nat (Z.max 1 k) = S n /\
       MC.local_shipment G pc pw pl c s
       = (' (t, stolen) <- MC.stops_loop G (S n) pw 0.0 ;;
          if stolen : bool then ret c1 else
          w <- np_random ;;
          if Qltb w pl then ret c1 else
          if Qltb t 7 then ret (MC.count_on_time counterfeit c1)
          else ret c1) s2 /\
       Regression.local_shipment G pc pw pl cr s
       = (' (t, stolen, c2) <- Regression.stops_loop G (S n) pw 0.0 cr1 ;;
          if stolen : bool then ret c2 else
          w <- np_random ;;
          if Qltb w pl then ret (Regression.count_missing c2) else
          let c3 := Regression.count_arrival t c2 in
          if Qltb t 7 then ret (Regression.count_on_time counterfeit c3)
          else ret (Regression.count_missing c3)) s2) /\
  (forall p c cr s,
     let u := fst (gen_random G s) in
     let s1 := snd (gen_random G s) in
     let v := fst (gen_random G s1) in
     let s2 := snd (gen_random G s1) in
     let base := fst (gen_normal G MC.base_mean (np_sqrt G MC.base_var) s2) in
     let s3 := snd (gen_normal G MC.base_mean (np_sqrt G MC.base_var) s2) in
     let w := fst (gen_random G s3) in
     let s4 := snd (gen_random G s3) in
     let k := fst (gen_poisson G 3 s4) in
     let s5 := snd (gen_poisson G 3 s4) in
     let counterfeit := Qltb u (MC.p_counterfeit p) in
     let c1 := MC.count_class counterfeit c in
     let cr1 := Regression.count_class counterfeit cr in
     Qltb v (if counterfeit then MC.p_seized_export_counterfeit p
             else MC.p_seized_export_legit p) = false ->
     Qltb w (if counterfeit then MC.p_seized_import_counterfeit p
             else MC.p_seized_import_legit p) = false ->
     exists n,
       Z.to_nat (Z.max 1 k) = S n /\
       MC.imported_shipment G p c s
       = (' (t, stolen) <-
             MC.stops_loop G (S n) (MC.p_warehouse_theft p) base ;;
          if stolen : bool then ret c1 else
          x <- np_random ;;
          if Qltb x (MC.p_last_mile_theft p) then ret c1 else
          if Qltb t 7 then ret (MC.count_on_time counterfeit c1)
          else ret c1) s5 /\
       Regression.imported_shipment G p cr s
       = (' (t, stolen, c2) <-
             Regression.stops_loop G (S n) (MC.p_warehouse_theft p) base cr1 ;;
          if stolen : bool then ret c2 else
          x <- np_random ;;
          if Qltb x (MC.p_last_mile_theft p)
          then ret (Regression.count_missing c2) else
          let c3 := Regression.count_arrival t c2 in
          if Qltb t 7 then ret (Regression.count_on_time counterfeit c3)
          else ret (Regression.count_missing c3)) s5) /\
  (forall pc pw pl c cr s,
     let u := fst (gen_random G s) in
     let s1 := snd (gen_random G s) in
     let s2 := snd (gen_poisson G 1 s1) in
     let s3 := snd (gen_normal G 0.5 (np_sqrt G 0.6) s2) in
     let x := fst (gen_random G s3) in
     let s4 := snd (gen_random G s3) in
     let counterfeit := Qltb u pc in
     Qltb x pw = true ->
     MC.local_shipment G pc pw pl c s
     = (Ok (MC.count_class counterfeit c), s4) /\
     Regression.local_shipment G pc pw pl cr s
     = (Ok (Regression.count_missing
              (Regression.count_class counterfeit cr)), s4)) /\
  (forall p c cr s,
     let u := fst (gen_random G s) in
     let s1 := snd (gen_random G s) in
     let v := fst (gen_random G s1) in
     let s2 := snd (gen_random G s1) in
     let s3 := snd (gen_normal G MC.base_mean (np_sqrt G MC.base_var) s2) in
     let w := fst (gen_random G s3) in
     let s4 := snd (gen_random G s3) in
     let s5 := snd (gen_poisson G 3 s4) in
     let s6 := snd (gen_normal G 0.5 (np_sqrt G 0.6) s5) in
     let x := fst (gen_random G s6) in
     let s7 := snd (gen_random G s6) in
     let counterfeit := Qltb u (MC.p_counterfeit p) in
     Qltb v (if counterfeit then MC.p_seized_export_counterfeit p
             else MC.p_seized_export_legit p) = false ->
     Qltb w (if counterfeit then MC.p_seized_import_counterfeit p
             else MC.p_seized_import_legit p) = false ->
     Qltb x (MC.p_warehouse_theft p) = true ->
     MC.imported_shipment G p c s
     = (Ok (MC.count_class counterfeit c), s7) /\
     Regression.imported_shipment G p cr s
     = (Ok (Regression.count_missing
              (Regression.count_class counterfeit cr)), s7)).
Proof.
  split; [| split; [| split]].
  - intros pc pw pl c cr s. cbv zeta.
    destruct (stop_count_succ (fst (gen_poisson G 1 (snd (gen_random G s)))))
      as [n Hn].
    exists n. split; [exact Hn |]. rewrite <- Hn.
    apply local_stop_count.
  - intros p c cr s. cbv zeta. intros Hv Hw.
    match goal with |- context [Z.max 1 ?k] =>
      destruct (stop_count_succ k) as [n Hn] end.
    exists n. split; [exact Hn |]. rewrite <- Hn.
    now apply imported_stop_count.
  - apply local_first_stop.
  - apply imported_first_stop.
Qed.

Lemma num_stops_at_least_one_witness :
  (let s := [0.5; 0; 0.5; 0.1; 0.5]%Q in
   fst (gen_poisson Tape.generator 1 (snd (gen_random Tape.generator s))) = 0 /\
   MC.local_shipment Tape.generator 0.15 0.5 0.0005 MC.zero_counters s
   = (Ok (MC.count_class false MC.zero_counters), [0.5%Q])) /\
  (let p := Journey.with_warehouse_theft Tape.probs_lo 0.9 in
   Regression.imported_shipment Tape.generator p Regression.zero_counters
     Tape.shifted
   = (Ok (Regression.count_missing
            (Regression.count_class false Regression.zero_counters)),
      [0.5; 0.5; 4.0; 0.5; 1; 0.5; 0.5; 0.5]%Q)).
Proof.
  split.
  - intros s. split; [reflexivity |].
    apply (proj1 (proj1 (proj2 (proj2 (num_stops_at_least_one Tape.generator)))
                   0.15%Q 0.5%Q 0.0005%Q MC.zero_counters
                   Regression.zero_counters s eq_refl)).
  - intros p.
    apply (proj2 (proj2 (proj2 (proj2 (num_stops_at_least_one Tape.generator)))
                   p MC.zero_counters Regression.zero_counters Tape.shifted
                   eq_refl eq_refl eq_refl)).
Defined.

(** C10.  In the batch variant, when the generator keeps to the support of
    its distributions and [1 <= N < 2 ^ 53] (every count of the run is then a
    double, so that the on-time share [int(remaining * frac_on_time)] cannot
    round above [remaining]), a run returns non-negative integer counts with
    [final_legit <= legit_total] and [final_counterfeit <= counterfeit_total]:
    each Poisson subtraction is clamped at zero and the on-time share is
    truncated.  So every per-run on-time fraction that [batch_simulation]
    appends lies in [0,1]. *)
Theorem batch_counts_within_totals
  (G : Generator) (num_sims N : Z) (s : rng G) :
  GeneratorLaws G -> 1 <= N -> N < 2 ^ 53 ->
  (exists r s', Batch.simulate_imported_batch G N s = (Ok r, s') /\
     0 <= Batch.final_legit r <= Batch.legit_import r /\
     0 <= Batch.final_counterfeit r <= Batch.counterfeit_import r) /\
  (exists acc s',
     for_range (Z.to_nat num_sims) (Batch.batch_iteration G N)
               Batch.empty_series s = (Ok acc, s') /\
     Batch.batch_simulation G num_sims N s = (Ok (Batch.summarise N acc), s') /\
     length (Batch.imported_legit_arrivals acc) = Z.to_nat num_sims /\
     length (Batch.imported_counterfeit_arrivals acc) = Z.to_nat num_sims /\
     Forall (fun q => (0 <= q)%Q /\ (q <= 1)%Q)
            (Batch.imported_legit_arrivals acc) /\
     Forall (fun q => (0 <= q)%Q /\ (q <= 1)%Q)
            (Batch.imported_counterfeit_arrivals acc)).
Proof.
  intros L HN Hb. split.
  - apply returns_iff.
    eapply returns_weaken; [apply batch_run; [exact L | lia] |].
    now intros r s' (_ & Hl & Hc).
  - destruct (proj1 (returns_iff _ _ _)
                (batch_loop_returns G L (Z.to_nat num_sims) N s (conj HN Hb)))
      as (acc & s' & E & H).
    exists acc, s'. split; [exact E |]. split; [| exact H].
    unfold Batch.batch_simulation, bind. now rewrite E.
Qed.

Lemma batch_counts_within_totals_witness :
  GeneratorLaws Tape.generator /\ 1 <= 22 /\ 22 < 2 ^ 53 /\
  (exists r s',
     Batch.simulate_imported_batch Tape.generator 22 Tape.sample = (Ok r, s') /\
     0 <= Batch.final_legit r <= Batch.legit_import r /\
     0 <= Batch.final_counterfeit r <= Batch.counterfeit_import r).
Proof.
  split; [exact tape_laws |]. split; [lia |]. split; [lia |].
  apply (batch_counts_within_totals Tape.generator 2 22 Tape.sample);
    [exact tape_laws | lia | lia].
Defined.

(** C4, as stated, fails: [main_simulation] of [distribution_mc.py] called
    with [num_sims = 1] and the invalid [N = -1] raises no error; it runs both
    simulators, which draw their ten stage probabilities, and returns a
    summary of zero fractions. *)
Lemma invalid_configuration_is_not_rejected :
  -1 <= 0 /\
  MC.main_simulation Tape.generator 1 (-1) Tape.sample
  = (Ok {| MC.imported_mean_legit_fraction := Fin 0;
           MC.imported_mean_counterfeit_fraction := Fin 0;
           MC.local_mean_legit_fraction := Fin 0;
           MC.local_mean_counterfeit_fraction := Fin 0;
           MC.imported_legit_on_time := Fin 0;
           MC.imported_counterfeit_on_time := Fin 0;
           MC.local_legit_on_time := Fin 0;
           MC.local_counterfeit_on_time := Fin 0 |},
     [0.5; 2; 0.5; 0.5; 0.5; 0.5; 0.5]%Q).
Proof. split; [lia | vm_compute; reflexivity]. Qed.

(** C4, amended.  No entry point checks its configuration.  Called with
    [num_sims <= 0], each returns at once without a draw: the means of the
    empty series are NaN, the regression tables are empty.  Called with
    [num_sims >= 1] and [N < 0], the per-shipment entry points return
    normally, each run simulating no shipment, and [batch_simulation] stops
    on the [ValueError] of [np.random.binomial], after its first draw (on
    its [OverflowError] when [N] does not fit a C [long]).
    Called with [num_sims >= 1] and [N = 0], the per-shipment entry points
    raise [ZeroDivisionError] in the first iteration, once both simulators
    have run, and [batch_simulation] raises [ValueError]. *)
Theorem entry_points_do_not_validate
  (G : Generator) (num_sims N : Z) (s : rng G) :
  (num_sims <= 0 ->
     MC.main_simulation G num_sims N s
       = (Ok (MC.summarise MC.empty_series), s) /\
     Regression.main_simulation G num_sims N s = (Ok ([], []), s) /\
     Batch.batch_simulation G num_sims N s
       = (Ok (Batch.summarise N Batch.empty_series), s)) /\
  (1 <= num_sims -> N < 0 ->
     (exists r s', MC.main_simulation G num_sims N s = (Ok r, s')) /\
     (exists r s', Regression.main_simulation G num_sims N s = (Ok r, s')) /\
     Batch.batch_simulation G num_sims N s
       = (Raise (if N <? - 2 ^ 63 then OverflowError else ValueError),
          snd (gen_uniform G 0.1 0.2 s))) /\
  (1 <= num_sims -> N = 0 ->
     (exists r1 s1 r2 s2,
        MC.simulate_imported_drugs G 0 s = (Ok r1, s1) /\
        MC.simulate_local_drugs G 0 s1 = (Ok r2, s2) /\
        MC.main_simulation G num_sims N s = (Raise ZeroDivisionError, s2)) /\
     (exists r1 s1 r2 s2,
        Regression.simulate_imported_drugs G 0 s = (Ok r1, s1) /\
        Regression.simulate_local_drugs G 0 s1 = (Ok r2, s2) /\
        Regression.main_simulation G num_sims N s
          = (Raise ZeroDivisionError, s2)) /\
     (exists s', Batch.batch_simulation G num_sims N s
                 = (Raise ValueError, s'))).
Proof.
  split; [| split].
  - intros Hn.
    unfold MC.main_simulation, Regression.main_simulation,
      Batch.batch_simulation.
    rewrite !no_iteration by exact Hn. repeat split.
  - intros Hn HN. split; [| split].
    + apply mc_main_returns. lia.
    + apply reg_main_returns. lia.
    + destruct (Z.ltb_spec N (- 2 ^ 63)) as [Ho | Ho].
      * destruct (batch_main_raises G OverflowError num_sims N s Hn)
          as (s' & E & ->).
        -- eexists. apply batch_overflow_raises. now left.
        -- f_equal. rewrite batch_overflow_raises in E by now left.
           congruence.
      * destruct (batch_main_raises G ValueError num_sims N s Hn)
          as (s' & E & ->).
        -- eexists. apply batch_negative_raises. lia.
        -- f_equal. rewrite batch_negative_raises in E by lia. congruence.
  - intros Hn ->. split; [| split].
    + now apply mc_main_zero_N.
    + now apply reg_main_zero_N.
    + destruct (batch_main_raises G ValueError num_sims 0 s Hn
                  (batch_zero_raises G s))
        as (s' & _ & E).
      now exists s'.
Qed.

Lemma entry_points_do_not_validate_witness :
  (0 <= 0 /\
   MC.main_simulation Tape.generator 0 5 Tape.sample
   = (Ok (MC.summarise MC.empty_series), Tape.sample)) /\
  (1 <= 1 /\ -1 < 0 /\
   exists r s',
     Regression.main_simulation Tape.generator 1 (-1) Tape.sample = (Ok r, s')) /\
  (1 <= 1 /\ 0 = 0 /\
   exists s',
     Batch.batch_simulation Tape.generator 1 0 Tape.sample
     = (Raise ValueError, s')).
Proof.
  split; [| split].
  - split; [lia |].
    apply (entry_points_do_not_validate Tape.generator 0 5 Tape.sample). lia.
  - split; [lia |]. split; [lia |].
    apply (entry_points_do_not_validate Tape.generator 1 (-1) Tape.sample); lia.
  - split; [lia |]. split; [reflexivity |].
    apply (entry_points_do_not_validate Tape.generator 1 0 Tape.sample);
      [lia | reflexivity].
Defined.

(** ** Further properties of the scripts *)

Section BasicRun.
Variable G : Generator.

Lemma mc_imported_run_bounds N s :
  returns (MC.simulate_imported_drugs G N) s
    (fun r _ => basic_results (Z.of_nat (Z.to_nat N)) r).
Proof.
  unfold MC.simulate_imported_drugs. apply returns_bind.
  eapply returns_weaken; [apply draw_probs_returns |].
  intros p s1 _. apply returns_bind.
  eapply returns_weaken.
  - apply (journey_loop G basic_inv _ Journey.fold_basic Journey.imported p).
    + apply mc_imported_journey.
    + apply fold_basic_inv.
    + unfold basic_inv; simpl; lia.
  - intros c s2 Hc. apply returns_ret.
    unfold basic_results, basic_inv in *. simpl. lia.
Qed.

Lemma mc_local_run_bounds N s :
  returns (MC.simulate_local_drugs G N) s
    (fun r _ => basic_results (Z.of_nat (Z.to_nat N)) (MC.l_results r)).
Proof.
  unfold MC.simulate_local_drugs.
  do 3 apply returns_bind, returns_draw. apply returns_bind.
  eapply returns_weaken.
  - eapply (journey_loop G basic_inv _ Journey.fold_basic Journey.local).
    + apply mc_local_journey.
    + apply fold_basic_inv.
    + unfold basic_inv; simpl; lia.
  - intros c s2 Hc. apply returns_ret.
    unfold basic_results, basic_inv in *. simpl. lia.
Qed.

End BasicRun.

(** X1.  In [distribution_mc.py] the on-time count of each class never
    exceeds the total of that class, on the imported and on the local path,
    and [total_surviving] lies between 0 and the number of shipments
    simulated, whatever [N] and the draws. *)
Theorem on_time_counts_within_class_totals (G : Generator) (N : Z) (s : rng G) :
  (exists r s', MC.simulate_imported_drugs G N s = (Ok r, s') /\
     0 <= MC.r_final_legit_on_time r <= MC.r_final_legit_total r /\
     0 <= MC.r_final_counterfeit_on_time r <= MC.r_final_counterfeit_total r /\
     0 <= MC.r_total_surviving r <= Z.max 0 N) /\
  (exists r s', MC.simulate_local_drugs G N s = (Ok r, s') /\
     0 <= MC.r_final_legit_on_time (MC.l_results r)
       <= MC.r_final_legit_total (MC.l_results r) /\
     0 <= MC.r_final_counterfeit_on_time (MC.l_results r)
       <= MC.r_final_counterfeit_total (MC.l_results r) /\
     0 <= MC.r_total_surviving (MC.l_results r) <= Z.max 0 N).
Proof.
  split; apply returns_iff.
  - eapply returns_weaken; [apply mc_imported_run_bounds |].
    intros r s' (H1 & H2 & H3 & H4). lia.
  - eapply returns_weaken; [apply mc_local_run_bounds |].
    intros r s' (H1 & H2 & H3 & H4). lia.
Qed.

Section Means.

Lemma Qsum_unit_bounds (l : list Q) :
  Forall in_unit_interval l ->
  (0 <= Qsum l)%Q /\ (Qsum l <= inject_Z (Z.of_nat (length l)))%Q.
Proof.
  induction 1 as [| x l [Hx0 Hx1] _ [IH0 IH1]]; simpl Qsum.
  - split; apply Qle_refl.
  - change (length (x :: l)) with (S (length l)).
    rewrite Nat2Z.inj_succ. unfold Z.succ. rewrite inject_Z_plus.
    change (inject_Z 1) with 1%Q. split; lra.
Qed.

Lemma length_pos_Q {A} (l : list A) :
  l <> [] -> (0 < inject_Z (Z.of_nat (length l)))%Q.
Proof.
  intros Hl. change 0%Q with (inject_Z 0). rewrite <- Zlt_Qlt.
  destruct l; [congruence | simpl; lia].
Qed.

Lemma np_mean_fraction (l : list Q) :
  l <> [] -> Forall in_unit_interval l -> finite_fraction (np_mean l).
Proof.
  intros Hl HF. destruct (Qsum_unit_bounds l HF) as [H0 H1].
  pose proof (length_pos_Q l Hl) as Hlen.
  exists (Qsum l / inject_Z (Z.of_nat (length l)))%Q. split.
  - destruct l; [congruence | reflexivity].
  - split.
    + apply Qle_shift_div_l; [exact Hlen | lra].
    + apply Qle_shift_div_r; [exact Hlen | lra].
Qed.

(** The two class fractions of one run add up to one. *)
Lemma class_fractions_complementary (a b n : Z) :
  a + b = n -> n <> 0 ->
  (inject_Z a / inject_Z n + inject_Z b / inject_Z n == 1)%Q.
Proof.
  intros Hab Hn.
  assert (Hn' : ~ (inject_Z n == 0)%Q).
  { intros E. apply Hn. now apply (inject_Z_injective n 0). }
  subst n. rewrite inject_Z_plus in *. field. exact Hn'.
Qed.

End Means.

Section BasicAggregator.
Variable G : Generator.

Lemma mc_arrived_fraction_range (on_time total : Z) (s : rng G) post :
  0 <= on_time <= total ->
  (forall q, in_unit_interval q -> post q s) ->
  returns (MC.arrived_fraction G on_time total) s post.
Proof.
  intros Hb H. unfold MC.arrived_fraction.
  destruct (Z.gtb_spec total 0) as [Hpos | Hle].
  - apply returns_truediv; [lia |]. apply H, Zfraction_bounds; lia.
  - apply returns_ret, H. split; discriminate.
Qed.

Lemma mc_series_step n acc a1 a2 a3 a4 f1 f2 f3 f4 :
  mc_series_ok n acc ->
  in_unit_interval a1 -> in_unit_interval a2 ->
  in_unit_interval a3 -> in_unit_interval a4 ->
  in_unit_interval f1 -> in_unit_interval f2 ->
  in_unit_interval f3 -> in_unit_interval f4 ->
  (f1 + f2 == 1)%Q -> (f3 + f4 == 1)%Q ->
  mc_series_ok (S n)
    {| MC.imported_legit_arrivals := MC.imported_legit_arrivals acc ++ [a1];
       MC.imported_counterfeit_arrivals :=
         MC.imported_counterfeit_arrivals acc ++ [a2];
       MC.local_legit_arrivals := MC.local_legit_arrivals acc ++ [a3];
       MC.local_counterfeit_arrivals :=
         MC.local_counterfeit_arrivals acc ++ [a4];
       MC.imported_legit_fraction := MC.imported_legit_fraction acc ++ [f1];
       MC.imported_counterfeit_fraction :=
         MC.imported_counterfeit_fraction acc ++ [f2];
       MC.local_legit_fraction := MC.local_legit_fraction acc ++ [f3];
       MC.local_counterfeit_fraction :=
         MC.local_counterfeit_fraction acc ++ [f4] |}.
Proof.
  intros (HL & HF & HC1 & HC2) A1 A2 A3 A4 F1 F2 F3 F4 S1 S2.
  unfold mc_series_ok. simpl.
  rewrite !length_app. simpl.
  split; [intuition lia |].
  split; [repeat split; apply Forall_app; split; auto; tauto |].
  split; apply Forall2_app; auto.
Qed.

Lemma mc_main_iteration_series n N acc s :
  1 <= N -> mc_series_ok n acc ->
  returns (MC.main_iteration G N acc) s
    (fun acc' _ => mc_series_ok (S n) acc').
Proof.
  intros HN Hacc. unfold MC.main_iteration.
  assert (E : Z.of_nat (Z.to_nat N) = N) by (apply Z2Nat.id; lia).
  apply returns_bind.
  eapply returns_weaken; [apply mc_imported_run_bounds |].
  intros ri s1 (Hi1 & Hi2 & Hi3 & _). rewrite E in Hi1.
  apply returns_bind.
  eapply returns_weaken; [apply mc_local_run_bounds |].
  intros rl s2 (Hl1 & Hl2 & Hl3 & _). rewrite E in Hl1. cbv zeta.
  apply returns_bind, returns_truediv; [lia |].
  apply returns_bind, returns_truediv; [lia |].
  apply returns_bind, mc_arrived_fraction_range; [exact Hi2 |]. intros a1 A1.
  apply returns_bind, mc_arrived_fraction_range; [exact Hi3 |]. intros a2 A2.
  apply returns_bind, returns_truediv; [lia |].
  apply returns_bind, returns_truediv; [lia |].
  apply returns_bind, mc_arrived_fraction_range; [exact Hl2 |]. intros a3 A3.
  apply returns_bind, mc_arrived_fraction_range; [exact Hl3 |]. intros a4 A4.
  apply returns_ret.
  apply mc_series_step; auto;
    try (apply Zfraction_bounds; lia);
    apply class_fractions_complementary; lia.
Qed.

Lemma mc_main_loop_series n N s :
  1 <= N ->
  returns (for_range n (MC.main_iteration G N) MC.empty_series) s
    (fun acc _ => mc_series_ok n acc).
Proof.
  intros HN. apply (returns_for_range mc_series_ok).
  - intros k acc s0 _ Hacc. now apply mc_main_iteration_series.
  - unfold mc_series_ok, complementary_series. simpl.
    repeat split; constructor.
Qed.

End BasicAggregator.

(** X2.  For [N >= 1], [main_simulation] of [distribution_mc.py] raises
    nothing, whatever [num_sims]: each of its eight series gets one entry per
    run, every entry is a fraction in [0,1], and in every run the legitimate
    and the counterfeit class fraction add up to one, on both paths. *)
Theorem main_simulation_series_are_fractions
  (G : Generator) (num_sims N : Z) (s : rng G) :
  1 <= N ->
  exists acc s',
    for_range (Z.to_nat num_sims) (MC.main_iteration G N) MC.empty_series s
      = (Ok acc, s') /\
    MC.main_simulation G num_sims N s = (Ok (MC.summarise acc), s') /\
    mc_series_ok (Z.to_nat num_sims) acc.
Proof.
  intros HN.
  destruct (proj1 (returns_iff _ _ _)
              (mc_main_loop_series G (Z.to_nat num_sims) N s HN))
    as (acc & s' & E & H).
  exists acc, s'. split; [exact E |]. split; [| exact H].
  unfold MC.main_simulation, bind. now rewrite E.
Qed.

(** X3.  For [N >= 1] and [1 <= num_sims < 2 ^ 53] (a double then holds
    the number of runs) the eight means that [main_simulation] of
    [distribution_mc.py] returns are finite, not NaN, and lie in [0,1]. *)
Theorem main_simulation_means_are_fractions
  (G : Generator) (num_sims N : Z) (s : rng G) :
  1 <= N -> 1 <= num_sims -> num_sims < 2 ^ 53 ->
  exists r s',
    MC.main_simulation G num_sims N s = (Ok r, s') /\
    finite_fraction (MC.imported_mean_legit_fraction r) /\
    finite_fraction (MC.imported_mean_counterfeit_fraction r) /\
    finite_fraction (MC.local_mean_legit_fraction r) /\
    finite_fraction (MC.local_mean_counterfeit_fraction r) /\
    finite_fraction (MC.imported_legit_on_time r) /\
    finite_fraction (MC.imported_counterfeit_on_time r) /\
    finite_fraction (MC.local_legit_on_time r) /\
    finite_fraction (MC.local_counterfeit_on_time r).
Proof.
  intros HN Hn _.
  destruct (proj1 (returns_iff _ _ _)
              (mc_main_loop_series G (Z.to_nat num_sims) N s HN))
    as (acc & s' & E & (HL & HF & _)).
  exists (MC.summarise acc), s'.
  split; [unfold MC.main_simulation, bind; now rewrite E |].
  assert (Hne : forall l : list Q, length l = Z.to_nat num_sims -> l <> []).
  { intros l Hl ->. simpl in Hl. lia. }
  destruct HL as (L1 & L2 & L3 & L4 & L5 & L6 & L7 & L8).
  destruct HF as (F1 & F2 & F3 & F4 & F5 & F6 & F7 & F8).
  unfold MC.summarise. simpl.
  repeat split; (apply np_mean_fraction; [apply Hne; assumption | assumption]).
Qed.

Lemma main_simulation_series_are_fractions_witness :
  1 <= 1 /\
  exists acc s',
    for_range (Z.to_nat 2) (MC.main_iteration Tape.generator 1)
              MC.empty_series Tape.sample = (Ok acc, s') /\
    MC.main_simulation Tape.generator 2 1 Tape.sample
      = (Ok (MC.summarise acc), s') /\
    mc_series_ok (Z.to_nat 2) acc.
Proof.
  split; [lia |].
  apply (main_simulation_series_are_fractions Tape.generator 2 1 Tape.sample).
  lia.
Defined.

Lemma main_simulation_means_are_fractions_witness :
  1 <= 1 /\ 1 <= 2 /\ 2 < 2 ^ 53 /\
  exists r s',
    MC.main_simulation Tape.generator 2 1 Tape.sample = (Ok r, s') /\
    finite_fraction (MC.imported_mean_legit_fraction r) /\
    finite_fraction (MC.imported_legit_on_time r).
Proof.
  split; [lia |]. split; [lia |]. split; [lia |].
  destruct (main_simulation_means_are_fractions Tape.generator 2 1 Tape.sample)
    as (r & s' & E & H1 & _ & _ & _ & H5 & _); [lia | lia | lia |].
  exists r, s'. split; [exact E |]. split; assumption.
Defined.

Section Agreement.
Variable G : Generator.

Lemma basic_of_fold o c :
  basic_of (Journey.fold_unified o c) = Journey.fold_basic o (basic_of c).
Proof.
  unfold basic_of, Journey.fold_unified, Journey.fold_basic, Journey.arrived.
  destruct o as [[|] t []]; reflexivity.
Qed.

(** Two loops that fold the same journeys, one into the basic counters and
    one into the unified-missing counters, read the same draws and agree on
    the counters they share. *)
Lemma loops_agree (body : MC.Counters -> M G MC.Counters)
  (body_r : Regression.Counters -> M G Regression.Counters) via p n :
  (forall c s, body c s =
     bind (Journey.journey G via p) (fun o => ret (Journey.fold_basic o c)) s) ->
  (forall c s, body_r c s =
     bind (Journey.journey G via p)
          (fun o => ret (Journey.fold_unified o c)) s) ->
  forall c s, exists cr s',
    for_range n body (basic_of c) s = (Ok (basic_of cr), s') /\
    for_range n body_r c s = (Ok cr, s').
Proof.
  intros Hb Hr. induction n as [| n IH]; intros c s; simpl.
  - now exists c, s.
  - destruct (journey_outcome G via p s) as (o & s1 & Eo & _).
    destruct (IH (Journey.fold_unified o c) s1) as (cr & s' & E1 & E2).
    assert (Em : body (basic_of c) s
                 = (Ok (basic_of (Journey.fold_unified o c)), s1)).
    { rewrite Hb, (bind_ok G _ _ _ _ _ Eo), basic_of_fold. reflexivity. }
    assert (Er : body_r c s = (Ok (Journey.fold_unified o c), s1)).
    { rewrite Hr, (bind_ok G _ _ _ _ _ Eo). reflexivity. }
    exists cr, s'.
    rewrite (bind_ok G _ _ _ _ _ Em), (bind_ok G _ _ _ _ _ Er). now split.
Qed.

Lemma imported_runs_agree N s :
  exists rm rr s',
    MC.simulate_imported_drugs G N s = (Ok rm, s') /\
    Regression.simulate_imported_drugs G N s = (Ok rr, s') /\
    Regression.r_final_legit_on_time (Regression.i_results rr)
      = MC.r_final_legit_on_time rm /\
    Regression.r_final_counterfeit_on_time (Regression.i_results rr)
      = MC.r_final_counterfeit_on_time rm /\
    Regression.r_final_legit_total (Regression.i_results rr)
      = MC.r_final_legit_total rm /\
    Regression.r_final_counterfeit_total (Regression.i_results rr)
      = MC.r_final_counterfeit_total rm /\
    Regression.r_total_surviving (Regression.i_results rr)
      = MC.r_total_surviving rm.
Proof.
  destruct (proj1 (returns_iff _ _ _) (draw_probs_returns G s))
    as (p & s1 & Ep & _).
  destruct (loops_agree _ _ Journey.imported p (Z.to_nat N)
              (mc_imported_journey G p) (reg_imported_journey G p)
              Regression.zero_counters s1) as (cr & s' & E1 & E2).
  exists (MC.compile_results (basic_of cr)),
    {| Regression.i_results := Regression.compile_results cr;
       Regression.i_probs := p |}, s'.
  unfold MC.simulate_imported_drugs, Regression.simulate_imported_drugs.
  rewrite !(bind_ok G _ _ _ _ _ Ep).
  change MC.zero_counters with (basic_of Regression.zero_counters).
  rewrite (bind_ok G _ _ _ _ _ E1), (bind_ok G _ _ _ _ _ E2).
  repeat split.
Qed.

Lemma local_runs_agree N s :
  exists rm rr s',
    MC.simulate_local_drugs G N s = (Ok rm, s') /\
    Regression.simulate_local_drugs G N s = (Ok rr, s') /\
    Regression.r_final_legit_on_time (Regression.l_results rr)
      = MC.r_final_legit_on_time (MC.l_results rm) /\
    Regression.r_final_counterfeit_on_time (Regression.l_results rr)
      = MC.r_final_counterfeit_on_time (MC.l_results rm) /\
    Regression.r_final_legit_total (Regression.l_results rr)
      = MC.r_final_legit_total (MC.l_results rm) /\
    Regression.r_final_counterfeit_total (Regression.l_results rr)
      = MC.r_final_counterfeit_total (MC.l_results rm) /\
    Regression.r_total_surviving (Regression.l_results rr)
      = MC.r_total_surviving (MC.l_results rm) /\
    Regression.l_p_counterfeit_local rr = MC.l_p_counterfeit_local rm /\
    Regression.l_p_warehouse_theft_local rr = MC.l_p_warehouse_theft_local rm /\
    Regression.l_p_last_mile_theft_local rr = MC.l_p_last_mile_theft_local rm.
Proof.
  unfold MC.simulate_local_drugs, Regression.simulate_local_drugs.
  unfold bind at 1 5. unfold np_uniform at 1 4, draw.
  destruct (gen_uniform G 0.1 0.25 s) as [pc s1].
  unfold bind at 1 4. unfold np_uniform at 1 3, draw.
  destruct (gen_uniform G 0.0000014 0.00001 s1) as [pw s2].
  unfold bind at 1 3. unfold np_uniform, draw.
  destruct (gen_uniform G 0.0001 0.001 s2) as [pl s3].
  destruct (loops_agree _ _ Journey.local (Journey.local_probs pc pw pl)
              (Z.to_nat N)
              (mc_local_journey G pc pw pl) (reg_local_journey G pc pw pl)
              Regression.zero_counters s3) as (cr & s' & E1 & E2).
  change MC.zero_counters with (basic_of Regression.zero_counters).
  rewrite (bind_ok G _ _ _ _ _ E1), (bind_ok G _ _ _ _ _ E2).
  eexists _, _, s'. repeat split.
Qed.

End Agreement.

(** X4.  From the same generator state the simulators of
    [distribution_regression.py] read the same draws as those of
    [distribution_mc.py]: they end in the same state and return the same
    class totals, on-time counts and [total_surviving] (and, on the local
    path, the same three probabilities); the regression variant only adds
    its own counters. *)
Theorem per_shipment_scripts_agree (G : Generator) (N : Z) (s : rng G) :
  (exists rm rr s',
     MC.simulate_imported_drugs G N s = (Ok rm, s') /\
     Regression.simulate_imported_drugs G N s = (Ok rr, s') /\
     Regression.r_final_legit_on_time (Regression.i_results rr)
       = MC.r_final_legit_on_time rm /\
     Regression.r_final_counterfeit_on_time (Regression.i_results rr)
       = MC.r_final_counterfeit_on_time rm /\
     Regression.r_final_legit_total (Regression.i_results rr)
       = MC.r_final_legit_total rm /\
     Regression.r_final_counterfeit_total (Regression.i_results rr)
       = MC.r_final_counterfeit_total rm /\
     Regression.r_total_surviving (Regression.i_results rr)
       = MC.r_total_surviving rm) /\
  (exists rm rr s',
     MC.simulate_local_drugs G N s = (Ok rm, s') /\
     Regression.simulate_local_drugs G N s = (Ok rr, s') /\
     Regression.r_final_legit_on_time (Regression.l_results rr)
       = MC.r_final_legit_on_time (MC.l_results rm) /\
     Regression.r_final_counterfeit_on_time (Regression.l_results rr)
       = MC.r_final_counterfeit_on_time (MC.l_results rm) /\
     Regression.r_final_legit_total (Regression.l_results rr)
       = MC.r_final_legit_total (MC.l_results rm) /\
     Regression.r_final_counterfeit_total (Regression.l_results rr)
       = MC.r_final_counterfeit_total (MC.l_results rm) /\
     Regression.r_total_surviving (Regression.l_results rr)
       = MC.r_total_surviving (MC.l_results rm) /\
     Regression.l_p_counterfeit_local rr = MC.l_p_counterfeit_local rm /\
     Regression.l_p_warehouse_theft_local rr = MC.l_p_warehouse_theft_local rm /\
     Regression.l_p_last_mile_theft_local rr = MC.l_p_last_mile_theft_local rm).
Proof. split; [apply imported_runs_agree | apply local_runs_agree]. Qed.

Section EmptyRun.
Variable G : Generator.



End EmptyRun.



Section Punctual.
Variable G : Generator.

Lemma journey_loop_spec {C} (I : nat -> C -> Prop)
  (body : C -> M G C) (fold : Journey.ShipmentOutcome -> C -> C) via p n :
  (forall c s, body c s =
               bind (Journey.journey G via p) (fun o => ret (fold o c)) s) ->
  (forall k o c, Journey.on_time_spec o -> I k c -> I (S k) (fold o c)) ->
  forall c s, I O c -> returns (for_range n body c) s (fun c' _ => I n c').
Proof.
  intros Hbody Hfold. apply returns_for_range.
  intros k c s _ Hc. unfold returns. rewrite Hbody.
  apply returns_bind.
  eapply returns_weaken; [apply journey_returns |].
  intros o s' Ho. apply returns_ret. now apply Hfold.
Qed.

Lemma fold_unified_punctual k o c :
  Journey.on_time_spec o ->
  punctual_inv k c -> punctual_inv (S k) (Journey.fold_unified o c).
Proof.
  intros Ho [Hm H]. unfold punctual_inv.
  destruct (fold_unified_counts o c) as (_ & _ & -> & -> & ->).
  unfold Journey.is_on_time.
  destruct (Journey.status o) eqn:Es; try (split; [lia | intros; lia]).
  split; [lia |]. intros Hz.
  destruct H as (Ha & Hle & Hlt); [lia |].
  destruct (proj1 Ho Es) as [Harr Ht]. rewrite Harr.
  rewrite Nat2Z.inj_succ. unfold Z.succ. rewrite inject_Z_plus.
  change (inject_Z 1) with 1%Q.
  repeat split; [lia | lra | intros _; lra].
Qed.

Lemma punctual_average c k :
  punctual_inv k c ->
  Regression.final_missing c = 0 ->
  (Regression.r_avg_transit_time (Regression.compile_results c) < 7)%Q.
Proof.
  intros [_ H] Hz. destruct (H Hz) as (Ha & _ & Hlt).
  unfold Regression.compile_results. cbn [Regression.r_avg_transit_time].
  destruct (Z.gtb_spec (Regression.arrived_shipments c) 0) as [Hpos | Hle].
  - apply Qlt_shift_div_r.
    + change 0%Q with (inject_Z 0). now rewrite <- Zlt_Qlt.
    + rewrite Ha. apply Hlt. lia.
  - reflexivity.
Qed.

Lemma punctual_start : punctual_inv O Regression.zero_counters.
Proof.
  unfold punctual_inv. simpl. split; [lia |]. intros _.
  repeat split; [discriminate | lia].
Qed.

Lemma reg_imported_run_punctual N s :
  returns (Regression.simulate_imported_drugs G N) s
    (fun r _ =>
       Regression.r_final_missing (Regression.i_results r) = 0 ->
       (Regression.r_avg_transit_time (Regression.i_results r) < 7)%Q).
Proof.
  unfold Regression.simulate_imported_drugs. apply returns_bind.
  eapply returns_weaken; [apply draw_probs_returns |].
  intros p s1 _. apply returns_bind.
  eapply returns_weaken.
  - apply (journey_loop_spec punctual_inv _ Journey.fold_unified
             Journey.imported p).
    + apply reg_imported_journey.
    + apply fold_unified_punctual.
    + apply punctual_start.
  - intros c s2 Hc. apply returns_ret. cbn [Regression.i_results].
    intros Hz. now apply punctual_average with (Z.to_nat N).
Qed.

Lemma reg_local_run_punctual N s :
  returns (Regression.simulate_local_drugs G N) s
    (fun r _ =>
       Regression.r_final_missing (Regression.l_results r) = 0 ->
       (Regression.r_avg_transit_time (Regression.l_results r) < 7)%Q).
Proof.
  unfold Regression.simulate_local_drugs.
  do 3 apply returns_bind, returns_draw. apply returns_bind.
  eapply returns_weaken.
  - eapply (journey_loop_spec punctual_inv _ Journey.fold_unified
              Journey.local).
    + apply reg_local_journey.
    + apply fold_unified_punctual.
    + apply punctual_start.
  - intros c s2 Hc. apply returns_ret. cbn [Regression.l_results].
    intros Hz. now apply punctual_average with (Z.to_nat N).
Qed.

End Punctual.

(** X6.  In [distribution_regression.py], a run that reports no missing
    shipment reports an average transit time strictly below seven days, on
    both paths: every shipment then arrived, each in less than seven days. *)
Theorem nothing_missing_means_average_under_seven
  (G : Generator) (N : Z) (s : rng G) :
  (exists r s', Regression.simulate_imported_drugs G N s = (Ok r, s') /\
     (Regression.r_final_missing (Regression.i_results r) = 0 ->
      (Regression.r_avg_transit_time (Regression.i_results r) < 7)%Q)) /\
  (exists r s', Regression.simulate_local_drugs G N s = (Ok r, s') /\
     (Regression.r_final_missing (Regression.l_results r) = 0 ->
      (Regression.r_avg_transit_time (Regression.l_results r) < 7)%Q)).
Proof.
  split; apply returns_iff;
    [apply reg_imported_run_punctual | apply reg_local_run_punctual].
Qed.

Lemma nothing_missing_means_average_under_seven_witness :
  exists r s',
    Regression.simulate_imported_drugs Tape.generator 1 Tape.sample
      = (Ok r, s') /\
    Regression.r_final_missing (Regression.i_results r) = 0 /\
    (Regression.r_avg_transit_time (Regression.i_results r) < 7)%Q.
Proof.
  destruct (nothing_missing_means_average_under_seven Tape.generator 1
              Tape.sample) as [(r & s' & E & H) _].
  exists r, s'. split; [exact E |].
  assert (Hz : Regression.r_final_missing (Regression.i_results r) = 0).
  { vm_compute in E. inversion E. reflexivity. }
  split; [exact Hz | exact (H Hz)].
Defined.

Section BatchSummary.
Variable G : Generator.
Hypothesis laws : GeneratorLaws G.

Lemma Qsum_counts_bounds (N : Z) (l : list Z) :
  Forall (fun t => 0 <= t <= N) l ->
  (0 <= Qsum (map inject_Z l))%Q /\
  (Qsum (map inject_Z l) <= inject_Z N * inject_Z (Z.of_nat (length l)))%Q.
Proof.
  induction 1 as [| t l [Ht0 Ht1] _ [IH0 IH1]]; simpl Qsum.
  - simpl. split; [apply Qle_refl | rewrite Qmult_0_r; apply Qle_refl].
  - change (length (t :: l)) with (S (length l)).
    rewrite Nat2Z.inj_succ. unfold Z.succ. rewrite inject_Z_plus.
    change (inject_Z 1) with 1%Q.
    rewrite Zle_Qle in Ht0, Ht1. change (inject_Z 0) with 0%Q in Ht0.
    split; [lra |]. rewrite Qmult_plus_distr_r, Qmult_1_r. lra.
Qed.

Lemma batch_iteration_series N n acc s :
  1 <= N < 2 ^ 53 -> batch_series_ok N n acc ->
  returns (Batch.batch_iteration G N acc) s
    (fun acc' _ => batch_series_ok N (S n) acc').
Proof.
  intros HN (L1 & L2 & L3 & F1 & F2 & F3 & F4 & F5).
  unfold Batch.batch_iteration. apply returns_bind.
  eapply returns_weaken; [now apply batch_run |].
  intros r s1 (Hsum & Hl & Hc). cbv zeta.
  apply returns_bind, (batch_arrived_fraction_range G); [exact Hl |].
  intros fl Hfl.
  apply returns_bind, (batch_arrived_fraction_range G); [exact Hc |].
  intros fc Hfc.
  apply returns_ret. unfold batch_series_ok. simpl.
  rewrite !length_app. simpl.
  repeat split; try lia;
    try (apply Forall_app; split; [assumption | constructor; [| constructor]]);
    try assumption; try lia.
  apply Forall2_app; [assumption | constructor; [exact Hsum | constructor]].
Qed.

Lemma batch_loop_series N n s :
  1 <= N < 2 ^ 53 ->
  returns (for_range n (Batch.batch_iteration G N) Batch.empty_series) s
    (fun acc _ => batch_series_ok N n acc).
Proof.
  intros HN. apply (returns_for_range (batch_series_ok N)).
  - intros k acc s0 _ Hacc. now apply batch_iteration_series.
  - unfold batch_series_ok. simpl. repeat split; constructor.
Qed.

Lemma np_mean_counts (l : list Z) :
  l <> [] ->
  np_mean (map inject_Z l)
  = Fin (Qsum (map inject_Z l) / inject_Z (Z.of_nat (length l)))%Q.
Proof.
  intros Hl. destruct l; [congruence |]. unfold np_mean.
  now rewrite length_map.
Qed.

Lemma np_divide_finite (q : Q) (N : Z) :
  N <> 0 -> np_divide (Fin q) N = Fin (q / inject_Z N)%Q.
Proof.
  intros HN. unfold np_divide.
  now replace (N =? 0) with false by (symmetry; now apply Z.eqb_neq).
Qed.

Lemma batch_summary_fractions num_sims N s :
  1 <= N < 2 ^ 53 -> 1 <= num_sims ->
  returns (Batch.batch_simulation G num_sims N) s
    (fun r _ =>
       finite_fraction (Batch.imported_mean_legit_fraction r) /\
       finite_fraction (Batch.imported_mean_counterfeit_fraction r) /\
       finite_fraction (Batch.imported_legit_on_time r) /\
       finite_fraction (Batch.imported_counterfeit_on_time r)).
Proof.
  intros HN Hn. unfold Batch.batch_simulation. apply returns_bind.
  eapply returns_weaken; [now apply batch_loop_series |].
  intros acc s' (L1 & L2 & L3 & F1 & F2 & F3 & F4 & F5).
  apply returns_ret. unfold Batch.summarise. simpl.
  assert (L4 : length (Batch.imported_counterfeit_total acc)
               = length (Batch.imported_legit_total acc)).
  { symmetry. exact (Forall2_length F5). }
  destruct (Qsum_counts_bounds N _ F3) as [Hl0 Hl1].
  destruct (Qsum_counts_bounds N _ F4) as [Hc0 Hc1].
  assert (Hne : forall A (l : list A), length l = Z.to_nat num_sims -> l <> []).
  { intros A l Hl ->. simpl in Hl. lia. }
  rewrite L4 in *.
  rewrite (np_mean_counts (Batch.imported_legit_total acc)) by now apply Hne.
  rewrite (np_mean_counts (Batch.imported_counterfeit_total acc))
    by (apply Hne; congruence).
  rewrite !np_divide_finite by lia. rewrite L4.
  set (len := inject_Z (Z.of_nat (length (Batch.imported_legit_total acc)))) in *.
  assert (Hlen : (0 < len)%Q).
  { unfold len. apply length_pos_Q. now apply Hne. }
  assert (HNq : (0 < inject_Z N)%Q).
  { change 0%Q with (inject_Z 0). rewrite <- Zlt_Qlt. lia. }
  assert (Hfrac : forall S : Q, (0 <= S)%Q -> (S <= inject_Z N * len)%Q ->
            in_unit_interval (S / len / inject_Z N)).
  { intros S HS0 HS1. split.
    - apply Qle_shift_div_l; [exact HNq |]. rewrite Qmult_0_l.
      apply Qle_shift_div_l; [exact Hlen |]. lra.
    - apply Qle_shift_div_r; [exact HNq |]. rewrite Qmult_1_l.
      apply Qle_shift_div_r; [exact Hlen |]. exact HS1. }
  split; [eexists; split; [reflexivity | now apply Hfrac] |].
  split; [eexists; split; [reflexivity | now apply Hfrac] |].
  split; apply np_mean_fraction; (now apply Hne) || assumption.
Qed.

End BatchSummary.

(** X7.  When the generator keeps to the support of its distributions,
    [N >= 1], [num_sims >= 1] and [num_sims * N < 2 ^ 53] (a double then
    holds every count of the run and every sum of class totals),
    [batch_simulation] returns four means that are finite, not NaN, and lie
    in [0,1]. *)
Theorem batch_summary_means_are_fractions
  (G : Generator) (num_sims N : Z) (s : rng G) :
  GeneratorLaws G -> 1 <= N -> 1 <= num_sims -> num_sims * N < 2 ^ 53 ->
  exists r s',
    Batch.batch_simulation G num_sims N s = (Ok r, s') /\
    finite_fraction (Batch.imported_mean_legit_fraction r) /\
    finite_fraction (Batch.imported_mean_counterfeit_fraction r) /\
    finite_fraction (Batch.imported_legit_on_time r) /\
    finite_fraction (Batch.imported_counterfeit_on_time r).
Proof.
  intros L HN Hn Hb. apply returns_iff.
  apply batch_summary_fractions; [exact L | nia | exact Hn].
Qed.

Lemma batch_summary_means_are_fractions_witness :
  GeneratorLaws Tape.generator /\ 1 <= 3 /\ 1 <= 2 /\ 2 * 3 < 2 ^ 53 /\
  exists r s',
    Batch.batch_simulation Tape.generator 2 3 Tape.sample = (Ok r, s') /\
    finite_fraction (Batch.imported_mean_legit_fraction r) /\
    finite_fraction (Batch.imported_mean_counterfeit_fraction r) /\
    finite_fraction (Batch.imported_legit_on_time r) /\
    finite_fraction (Batch.imported_counterfeit_on_time r).
Proof.
  split; [exact tape_laws |]. split; [lia |]. split; [lia |]. split; [lia |].
  apply (batch_summary_means_are_fractions Tape.generator 2 3 Tape.sample);
    [exact tape_laws | lia | lia | lia].
Defined.

Section TheftSensitivity.
Variable G : Generator.

Lemma fold_basic_on_time o' o c :
  (Journey.is_on_time o' = true -> Journey.is_on_time o = true) ->
  (Journey.is_on_time o' = true ->
   Journey.is_counterfeit o = Journey.is_counterfeit o') ->
  MC.final_legit_on_time (Journey.fold_basic o' c)
    <= MC.final_legit_on_time (Journey.fold_basic o c) /\
  MC.final_counterfeit_on_time (Journey.fold_basic o' c)
    <= MC.final_counterfeit_on_time (Journey.fold_basic o c).
Proof.
  intros Hon Hcls.
  destruct (fold_basic_counts o c) as [-> ->].
  destruct (fold_basic_counts o' c) as [-> ->].
  unfold Journey.on_time_count.
  destruct (Journey.is_on_time o').
  - rewrite (Hon eq_refl), (Hcls eq_refl).
    destruct (Journey.is_counterfeit o'); simpl; lia.
  - simpl. destruct (Journey.is_on_time o), (Journey.is_counterfeit o);
      simpl; lia.
Qed.

Lemma fold_unified_on_time o' o c :
  (Journey.is_on_time o' = true -> Journey.is_on_time o = true) ->
  (Journey.is_on_time o' = true ->
   Journey.is_counterfeit o = Journey.is_counterfeit o') ->
  Regression.final_legit_on_time (Journey.fold_unified o' c)
    <= Regression.final_legit_on_time (Journey.fold_unified o c) /\
  Regression.final_counterfeit_on_time (Journey.fold_unified o' c)
    <= Regression.final_counterfeit_on_time (Journey.fold_unified o c) /\
  Regression.final_missing (Journey.fold_unified o c)
    <= Regression.final_missing (Journey.fold_unified o' c).
Proof.
  intros Hon Hcls.
  destruct (fold_unified_counts o c) as (-> & -> & -> & _).
  destruct (fold_unified_counts o' c) as (-> & -> & -> & _).
  unfold Journey.on_time_count.
  destruct (Journey.is_on_time o').
  - rewrite (Hon eq_refl), (Hcls eq_refl).
    destruct (Journey.is_counterfeit o'); simpl; lia.
  - simpl. destruct (Journey.is_on_time o), (Journey.is_counterfeit o);
      simpl; lia.
Qed.

(** The shipment bodies under a larger warehouse-theft probability. *)
Lemma body_warehouse_coupling {C} (body body' : C -> M G C)
  (fold : Journey.ShipmentOutcome -> C -> C) (R : C -> C -> Prop) via p q :
  (forall c s, body c s =
     bind (Journey.journey G via p) (fun o => ret (fold o c)) s) ->
  (forall c s, body' c s =
     bind (Journey.journey G via (Journey.with_warehouse_theft p q))
          (fun o => ret (fold o c)) s) ->
  (forall o' o c,
     (Journey.is_on_time o' = true -> Journey.is_on_time o = true) ->
     (Journey.is_on_time o' = true ->
      Journey.is_counterfeit o = Journey.is_counterfeit o') ->
     R (fold o' c) (fold o c)) ->
  (MC.p_warehouse_theft p <= q)%Q ->
  forall c s c' s',
    body' c s = (Ok c', s') ->
    exists d t', body c s = (Ok d, t') /\ R c' d.
Proof.
  intros Hb Hb' HR Hq c s c' s' E'.
  rewrite Hb' in E'. apply bind_ok_inv in E'.
  destruct E' as (o' & s1 & Eo' & E'). inversion E'; subst. clear E'.
  destruct (Journey.is_on_time o') eqn:Hon.
  - assert (Es : Journey.status o' = Journey.on_time).
    { unfold Journey.is_on_time in Hon.
      destruct (Journey.status o'); (reflexivity || discriminate). }
    exists (fold o' c), s'. split.
    + rewrite Hb.
      now rewrite (bind_ok G _ _ _ _ _ (journey_coupling G via p q s o' s' Hq Eo' Es)).
    + apply HR; trivial.
  - destruct (journey_outcome G via p s) as (o & t' & E & _).
    exists (fold o c), t'. split.
    + rewrite Hb. now rewrite (bind_ok G _ _ _ _ _ E).
    + apply HR; intros; congruence.
Qed.

End TheftSensitivity.

(** X8.  For a single shipment read from an unchanged stream of draws,
    raising the warehouse-theft probability never adds to an on-time counter,
    in either per-shipment script and on either path; in the regression
    variant it never takes the shipment out of [final_missing]. *)
Theorem warehouse_theft_never_helps_a_shipment
  (G : Generator) (p : MC.Probs) (q : Q) (s : rng G) :
  (MC.p_warehouse_theft p <= q)%Q ->
  (forall c c' s',
     MC.imported_shipment G (Journey.with_warehouse_theft p q) c s
       = (Ok c', s') ->
     exists d t',
       MC.imported_shipment G p c s = (Ok d, t') /\
       MC.final_legit_on_time c' <= MC.final_legit_on_time d /\
       MC.final_counterfeit_on_time c' <= MC.final_counterfeit_on_time d) /\
  (forall c c' s',
     MC.local_shipment G (MC.p_counterfeit p) q (MC.p_last_mile_theft p) c s
       = (Ok c', s') ->
     exists d t',
       MC.local_shipment G (MC.p_counterfeit p) (MC.p_warehouse_theft p)
                         (MC.p_last_mile_theft p) c s = (Ok d, t') /\
       MC.final_legit_on_time c' <= MC.final_legit_on_time d /\
       MC.final_counterfeit_on_time c' <= MC.final_counterfeit_on_time d) /\
  (forall c c' s',
     Regression.imported_shipment G (Journey.with_warehouse_theft p q) c s
       = (Ok c', s') ->
     exists d t',
       Regression.imported_shipment G p c s = (Ok d, t') /\
       Regression.final_legit_on_time c' <= Regression.final_legit_on_time d /\
       Regression.final_counterfeit_on_time c'
         <= Regression.final_counterfeit_on_time d /\
       Regression.final_missing d <= Regression.final_missing c') /\
  (forall c c' s',
     Regression.local_shipment G (MC.p_counterfeit p) q
                               (MC.p_last_mile_theft p) c s = (Ok c', s') ->
     exists d t',
       Regression.local_shipment G (MC.p_counterfeit p)
         (MC.p_warehouse_theft p) (MC.p_last_mile_theft p) c s = (Ok d, t') /\
       Regression.final_legit_on_time c' <= Regression.final_legit_on_time d /\
       Regression.final_counterfeit_on_time c'
         <= Regression.final_counterfeit_on_time d /\
       Regression.final_missing d <= Regression.final_missing c').
Proof.
  intros Hq.
  set (lp := Journey.local_probs (MC.p_counterfeit p) (MC.p_warehouse_theft p)
                                 (MC.p_last_mile_theft p)).
  split; [| split; [| split]]; intros c c' s' E.
  - apply (body_warehouse_coupling G _ _ Journey.fold_basic
             (fun c' d =>
                MC.final_legit_on_time c' <= MC.final_legit_on_time d /\
                MC.final_counterfeit_on_time c'
                  <= MC.final_counterfeit_on_time d)
             Journey.imported p q
             (mc_imported_journey G p)
             (mc_imported_journey G (Journey.with_warehouse_theft p q))
             (fun o' o c => fold_basic_on_time o' o c) Hq c s c' s' E).
  - apply (body_warehouse_coupling G _ _ Journey.fold_basic
             (fun c' d =>
                MC.final_legit_on_time c' <= MC.final_legit_on_time d /\
                MC.final_counterfeit_on_time c'
                  <= MC.final_counterfeit_on_time d)
             Journey.local lp q
             (mc_local_journey G _ _ _)
             (mc_local_journey G (MC.p_counterfeit p) q (MC.p_last_mile_theft p))
             (fun o' o c => fold_basic_on_time o' o c) Hq c s c' s' E).
  - apply (body_warehouse_coupling G _ _ Journey.fold_unified
             (fun c' d =>
                Regression.final_legit_on_time c'
                  <= Regression.final_legit_on_time d /\
                Regression.final_counterfeit_on_time c'
                  <= Regression.final_counterfeit_on_time d /\
                Regression.final_missing d <= Regression.final_missing c')
             Journey.imported p q
             (reg_imported_journey G p)
             (reg_imported_journey G (Journey.with_warehouse_theft p q))
             (fun o' o c => fold_unified_on_time o' o c) Hq c s c' s' E).
  - apply (body_warehouse_coupling G _ _ Journey.fold_unified
             (fun c' d =>
                Regression.final_legit_on_time c'
                  <= Regression.final_legit_on_time d /\
                Regression.final_counterfeit_on_time c'
                  <= Regression.final_counterfeit_on_time d /\
                Regression.final_missing d <= Regression.final_missing c')
             Journey.local lp q
             (reg_local_journey G _ _ _)
             (reg_local_journey G (MC.p_counterfeit p) q
                                (MC.p_last_mile_theft p))
             (fun o' o c => fold_unified_on_time o' o c) Hq c s c' s' E).
Qed.

Lemma warehouse_theft_never_helps_a_shipment_witness :
  (MC.p_warehouse_theft Tape.probs_lo <= 0.000009)%Q /\
  (forall c c' s',
     MC.imported_shipment Tape.generator
       (Journey.with_warehouse_theft Tape.probs_lo 0.000009) c Tape.shifted
       = (Ok c', s') ->
     exists d t',
       MC.imported_shipment Tape.generator Tape.probs_lo c Tape.shifted
         = (Ok d, t') /\
       MC.final_legit_on_time c' <= MC.final_legit_on_time d /\
       MC.final_counterfeit_on_time c' <= MC.final_counterfeit_on_time d).
Proof.
  assert (H : (MC.p_warehouse_theft Tape.probs_lo <= 0.000009)%Q)
    by (apply Qle_bool_imp_le; reflexivity).
  split; [exact H |].
  apply (warehouse_theft_never_helps_a_shipment Tape.generator Tape.probs_lo
           0.000009 Tape.shifted H).
Defined.

Section LastMile.
Variable G : Generator.

(** The last-mile check is the last draw of a journey: with a larger
    last-mile theft probability the journey reads the same draws, keeps its
    class, and is on time only if it was. *)
Lemma stops_to_arrival_last_mile lam p q c t s o' s' :
  (MC.p_last_mile_theft p <= q)%Q ->
  Journey.stops_to_arrival G lam (with_last_mile_theft p q) c t s
    = (Ok o', s') ->
  exists o,
    Journey.stops_to_arrival G lam p c t s = (Ok o, s') /\
    Journey.is_counterfeit o = Journey.is_counterfeit o' /\
    (Journey.is_on_time o' = true -> Journey.is_on_time o = true).
Proof.
  intros Hq H. unfold Journey.stops_to_arrival in *.
  apply bind_ok_inv in H. destruct H as (k & s1 & E1 & H).
  apply bind_ok_inv in H. destruct H as ([t1 stolen] & s2 & E2 & H).
  cbn [MC.p_warehouse_theft MC.p_last_mile_theft with_last_mile_theft] in *.
  rewrite (bind_ok G _ _ _ _ _ E1), (bind_ok G _ _ _ _ _ E2).
  destruct stolen; [exists o'; now split |].
  apply bind_ok_inv in H. destruct H as (u & s3 & E3 & H).
  rewrite (bind_ok G _ _ _ _ _ E3).
  destruct (Qltb u q) eqn:Eq.
  - inversion H; subst. clear H.
    destruct (Qltb u (MC.p_last_mile_theft p)).
    + eexists. split; [reflexivity |]. now split.
    + eexists. split; [reflexivity |]. split; [reflexivity | discriminate].
  - replace (Qltb u (MC.p_last_mile_theft p)) with false.
    + exists o'. now split.
    + symmetry. apply Qltb_ge. apply Qltb_ge in Eq.
      now apply Qle_trans with q.
Qed.

Lemma journey_last_mile via p q s o' s' :
  (MC.p_last_mile_theft p <= q)%Q ->
  Journey.journey G via (with_last_mile_theft p q) s = (Ok o', s') ->
  exists o,
    Journey.journey G via p s = (Ok o, s') /\
    Journey.is_counterfeit o = Journey.is_counterfeit o' /\
    (Journey.is_on_time o' = true -> Journey.is_on_time o = true).
Proof.
  intros Hq H. unfold Journey.journey in *.
  apply bind_ok_inv in H. destruct H as (u & s1 & E1 & H).
  rewrite (bind_ok G _ _ _ _ _ E1).
  cbn [MC.p_counterfeit MC.p_seized_export_counterfeit MC.p_seized_export_legit
       MC.p_seized_import_counterfeit MC.p_seized_import_legit
       with_last_mile_theft] in *.
  destruct via; [| now apply stops_to_arrival_last_mile with q].
  apply bind_ok_inv in H. destruct H as (seized & s2 & E2 & H).
  rewrite (bind_ok G _ _ _ _ _ E2).
  destruct seized; [exists o'; now split |].
  apply bind_ok_inv in H. destruct H as (t & s3 & E3 & H).
  rewrite (bind_ok G _ _ _ _ _ E3).
  apply bind_ok_inv in H. destruct H as (seized & s4 & E4 & H).
  rewrite (bind_ok G _ _ _ _ _ E4).
  destruct seized; [exists o'; now split |].
  now apply stops_to_arrival_last_mile with q.
Qed.

Lemma loop_last_mile {C} (body body' : C -> M G C)
  (fold : Journey.ShipmentOutcome -> C -> C) (R : C -> C -> Prop) via p q n :
  (forall c s, body c s =
     bind (Journey.journey G via p) (fun o => ret (fold o c)) s) ->
  (forall c s, body' c s =
     bind (Journey.journey G via (with_last_mile_theft p q))
          (fun o => ret (fold o c)) s) ->
  (forall o' o c' c,
     Journey.is_counterfeit o = Journey.is_counterfeit o' ->
     (Journey.is_on_time o' = true -> Journey.is_on_time o = true) ->
     R c' c -> R (fold o' c') (fold o c)) ->
  (MC.p_last_mile_theft p <= q)%Q ->
  forall c' c s d' s',
    R c' c ->
    for_range n body' c' s = (Ok d', s') ->
    exists d, for_range n body c s = (Ok d, s') /\ R d' d.
Proof.
  intros Hb Hb' HR Hq. induction n as [| n IH]; intros c' c s d' s' Hc E'.
  - simpl in *. inversion E'; subst. now exists c.
  - simpl in *. apply bind_ok_inv in E'.
    destruct E' as (c1' & s1 & Eb' & E').
    rewrite Hb' in Eb'. apply bind_ok_inv in Eb'.
    destruct Eb' as (o' & s2 & Eo' & Eb'). inversion Eb'; subst. clear Eb'.
    destruct (journey_last_mile via p q s o' s1 Hq Eo') as (o & Eo & Hcls & Hon).
    destruct (IH (fold o' c') (fold o c) s1 d' s') as (d & Ed & Hd);
      [now apply HR | exact E' |].
    exists d. split; [| exact Hd].
    assert (Eb : body c s = (Ok (fold o c), s1)).
    { rewrite Hb. now rewrite (bind_ok G _ _ _ _ _ Eo). }
    now rewrite (bind_ok G _ _ _ _ _ Eb).
Qed.

Lemma fold_basic_no_more_on_time o' o c' c :
  Journey.is_counterfeit o = Journey.is_counterfeit o' ->
  (Journey.is_on_time o' = true -> Journey.is_on_time o = true) ->
  no_more_on_time c' c ->
  no_more_on_time (Journey.fold_basic o' c') (Journey.fold_basic o c).
Proof.
  intros Hcls Hon (H1 & H2 & H3 & H4).
  unfold no_more_on_time, Journey.fold_basic, Journey.is_on_time in *.
  rewrite Hcls.
  destruct (Journey.is_counterfeit o');
    destruct (Journey.status o'); destruct (Journey.status o); simpl;
      try lia; specialize (Hon eq_refl); discriminate.
Qed.

Lemma fold_unified_no_fewer_missing o' o c' c :
  Journey.is_counterfeit o = Journey.is_counterfeit o' ->
  (Journey.is_on_time o' = true -> Journey.is_on_time o = true) ->
  no_fewer_missing c' c ->
  no_fewer_missing (Journey.fold_unified o' c') (Journey.fold_unified o c).
Proof.
  intros Hcls Hon (H1 & H2 & H3 & H4 & H5).
  unfold no_fewer_missing, Journey.fold_unified, Journey.is_on_time,
    Journey.arrived in *.
  rewrite Hcls.
  destruct (Journey.is_counterfeit o');
    destruct (Journey.status o'); destruct (Journey.status o); simpl;
      try lia; specialize (Hon eq_refl); discriminate.
Qed.

End LastMile.

(** X9.  Over a whole shipment loop read from an unchanged stream of draws,
    raising the last-mile theft probability leaves the class totals and the
    final generator state as they were, never raises an on-time count and, in
    the regression variant, never lowers [final_missing]: the last-mile check
    is the last draw of a shipment, so the later shipments read the same
    draws. *)
Theorem last_mile_theft_lowers_on_time_counts
  (G : Generator) (p : MC.Probs) (q : Q) (N : Z) (s : rng G) :
  (MC.p_last_mile_theft p <= q)%Q ->
  (forall d' s',
     for_range (Z.to_nat N)
       (MC.imported_shipment G (with_last_mile_theft p q)) MC.zero_counters s
       = (Ok d', s') ->
     exists d,
       for_range (Z.to_nat N) (MC.imported_shipment G p) MC.zero_counters s
         = (Ok d, s') /\
       no_more_on_time d' d) /\
  (forall d' s',
     for_range (Z.to_nat N)
       (MC.local_shipment G (MC.p_counterfeit p) (MC.p_warehouse_theft p) q)
       MC.zero_counters s = (Ok d', s') ->
     exists d,
       for_range (Z.to_nat N)
         (MC.local_shipment G (MC.p_counterfeit p) (MC.p_warehouse_theft p)
                            (MC.p_last_mile_theft p))
         MC.zero_counters s = (Ok d, s') /\
       no_more_on_time d' d) /\
  (forall d' s',
     for_range (Z.to_nat N)
       (Regression.imported_shipment G (with_last_mile_theft p q))
       Regression.zero_counters s = (Ok d', s') ->
     exists d,
       for_range (Z.to_nat N) (Regression.imported_shipment G p)
         Regression.zero_counters s = (Ok d, s') /\
       no_fewer_missing d' d) /\
  (forall d' s',
     for_range (Z.to_nat N)
       (Regression.local_shipment G (MC.p_counterfeit p)
                                  (MC.p_warehouse_theft p) q)
       Regression.zero_counters s = (Ok d', s') ->
     exists d,
       for_range (Z.to_nat N)
         (Regression.local_shipment G (MC.p_counterfeit p)
            (MC.p_warehouse_theft p) (MC.p_last_mile_theft p))
         Regression.zero_counters s = (Ok d, s') /\
       no_fewer_missing d' d).
Proof.
  intros Hq.
  set (lp := Journey.local_probs (MC.p_counterfeit p) (MC.p_warehouse_theft p)
                                 (MC.p_last_mile_theft p)).
  assert (R0 : no_more_on_time MC.zero_counters MC.zero_counters)
    by (unfold no_more_on_time; simpl; lia).
  assert (R1 : no_fewer_missing Regression.zero_counters Regression.zero_counters)
    by (unfold no_fewer_missing; simpl; lia).
  split; [| split; [| split]]; intros d' s' E.
  - apply (loop_last_mile G _ _ Journey.fold_basic no_more_on_time
             Journey.imported p q (Z.to_nat N)
             (mc_imported_journey G p)
             (mc_imported_journey G (with_last_mile_theft p q))
             fold_basic_no_more_on_time Hq _ _ s d' s' R0 E).
  - apply (loop_last_mile G _ _ Journey.fold_basic no_more_on_time
             Journey.local lp q (Z.to_nat N)
             (mc_local_journey G _ _ _)
             (mc_local_journey G (MC.p_counterfeit p) (MC.p_warehouse_theft p) q)
             fold_basic_no_more_on_time Hq _ _ s d' s' R0 E).
  - apply (loop_last_mile G _ _ Journey.fold_unified no_fewer_missing
             Journey.imported p q (Z.to_nat N)
             (reg_imported_journey G p)
             (reg_imported_journey G (with_last_mile_theft p q))
             fold_unified_no_fewer_missing Hq _ _ s d' s' R1 E).
  - apply (loop_last_mile G _ _ Journey.fold_unified no_fewer_missing
             Journey.local lp q (Z.to_nat N)
             (reg_local_journey G _ _ _)
             (reg_local_journey G (MC.p_counterfeit p)
                                (MC.p_warehouse_theft p) q)
             fold_unified_no_fewer_missing Hq _ _ s d' s' R1 E).
Qed.

Lemma last_mile_theft_lowers_on_time_counts_witness :
  (MC.p_last_mile_theft Tape.probs_lo <= 0.9)%Q /\
  (forall d' s',
     for_range (Z.to_nat 2)
       (MC.imported_shipment Tape.generator
          (with_last_mile_theft Tape.probs_lo 0.9))
       MC.zero_counters Tape.shifted = (Ok d', s') ->
     exists d,
       for_range (Z.to_nat 2)
         (MC.imported_shipment Tape.generator Tape.probs_lo)
         MC.zero_counters Tape.shifted = (Ok d, s') /\
       no_more_on_time d' d).
Proof.
  assert (H : (MC.p_last_mile_theft Tape.probs_lo <= 0.9)%Q)
    by (apply Qle_bool_imp_le; reflexivity).
  split; [exact H |].
  apply (last_mile_theft_lowers_on_time_counts Tape.generator Tape.probs_lo
           0.9 2 Tape.shifted H).
Defined.

Section SameRuns.
Variable G : Generator.

(** What the regression simulators count as missing is what the basic ones
    do not count as surviving. *)
Lemma runs_missing_share N s :
  0 <= N ->
  exists rm rr lm lr s1 s2,
    MC.simulate_imported_drugs G N s = (Ok rm, s1) /\
    Regression.simulate_imported_drugs G N s = (Ok rr, s1) /\
    MC.simulate_local_drugs G N s1 = (Ok lm, s2) /\
    Regression.simulate_local_drugs G N s1 = (Ok lr, s2) /\
    Regression.r_final_missing (Regression.i_results rr)
      + MC.r_total_surviving rm = N /\
    Regression.r_final_missing (Regression.l_results lr)
      + MC.r_total_surviving (MC.l_results lm) = N.
Proof.
  intros HN. assert (E : Z.of_nat (Z.to_nat N) = N) by (apply Z2Nat.id; lia).
  destruct (imported_runs_agree G N s)
    as (rm & rr & s1 & Em & Er & A1 & A2 & _).
  destruct (local_runs_agree G N s1)
    as (lm & lr & s2 & Elm & Elr & B1 & B2 & _).
  pose proof (mc_imported_run_bounds G N s) as Hm.
  unfold returns in Hm. rewrite Em in Hm.
  destruct Hm as (_ & _ & _ & Hm).
  pose proof (mc_local_run_bounds G N s1) as Hl.
  unfold returns in Hl. rewrite Elm in Hl.
  destruct Hl as (_ & _ & _ & Hl).
  pose proof (reg_imported_run G N s) as Hr.
  unfold returns in Hr. rewrite Er in Hr. destruct Hr as (_ & Hr & _).
  pose proof (reg_local_run G N s1) as Hlr.
  unfold returns in Hlr. rewrite Elr in Hlr. destruct Hlr as (_ & Hlr & _).
  rewrite E in *.
  exists rm, rr, lm, lr, s1, s2. repeat split; try assumption; lia.
Qed.

(** One iteration of both aggregators from the same generator state. *)
Lemma iterations_agree N acc dfs s :
  N <> 0 ->
  exists s' row lrow al ac ll lc fl fc gl gc,
    MC.main_iteration G N acc s
      = (Ok {| MC.imported_legit_arrivals :=
                 MC.imported_legit_arrivals acc ++ [al];
               MC.imported_counterfeit_arrivals :=
                 MC.imported_counterfeit_arrivals acc ++ [ac];
               MC.local_legit_arrivals := MC.local_legit_arrivals acc ++ [ll];
               MC.local_counterfeit_arrivals :=
                 MC.local_counterfeit_arrivals acc ++ [lc];
               MC.imported_legit_fraction :=
                 MC.imported_legit_fraction acc ++ [fl];
               MC.imported_counterfeit_fraction :=
                 MC.imported_counterfeit_fraction acc ++ [fc];
               MC.local_legit_fraction := MC.local_legit_fraction acc ++ [gl];
               MC.local_counterfeit_fraction :=
                 MC.local_counterfeit_fraction acc ++ [gc] |}, s') /\
    Regression.main_iteration G N dfs s
      = (Ok (fst dfs ++ [row], snd dfs ++ [lrow]), s').
Proof.
  intros HN.
  destruct (imported_runs_agree G N s) as (rm & rr & s1 & Em & Er & _).
  destruct (local_runs_agree G N s1) as (lm & lr & s2 & Elm & Elr & _).
  assert (Hfr : forall on_time total,
            exists q, MC.arrived_fraction G on_time total s2 = (Ok q, s2)).
  { intros on_time total. unfold MC.arrived_fraction.
    destruct (Z.gtb_spec total 0) as [Hpos | Hle].
    - rewrite truediv_ok by lia. now eexists.
    - now exists 0%Q. }
  destruct (Hfr (MC.r_final_legit_on_time rm) (MC.r_final_legit_total rm))
    as (al & Eal).
  destruct (Hfr (MC.r_final_counterfeit_on_time rm)
                (MC.r_final_counterfeit_total rm)) as (ac & Eac).
  destruct (Hfr (MC.r_final_legit_on_time (MC.l_results lm))
                (MC.r_final_legit_total (MC.l_results lm))) as (ll & Ell).
  destruct (Hfr (MC.r_final_counterfeit_on_time (MC.l_results lm))
                (MC.r_final_counterfeit_total (MC.l_results lm)))
    as (lc & Elc).
  eexists s2, _, _, al, ac, ll, lc, _, _, _, _.
  split.
  - unfold MC.main_iteration.
    rewrite (bind_ok G _ _ _ _ _ Em), (bind_ok G _ _ _ _ _ Elm). cbv zeta.
    unfold bind. rewrite !truediv_ok by lia. rewrite Eal, Eac.
    rewrite !truediv_ok by lia. rewrite Ell, Elc. reflexivity.
  - destruct dfs as [imported_data local_data].
    unfold Regression.main_iteration.
    rewrite (bind_ok G _ _ _ _ _ Er), (bind_ok G _ _ _ _ _ Elr).
    unfold bind. rewrite !truediv_ok by lia. reflexivity.
Qed.

Lemma aggregator_loops_agree N n acc dfs s :
  N <> 0 ->
  exists acc' dfs' s',
    for_range n (MC.main_iteration G N) acc s = (Ok acc', s') /\
    for_range n (Regression.main_iteration G N) dfs s = (Ok dfs', s').
Proof.
  intros HN. revert acc dfs s.
  induction n as [| n IH]; intros acc dfs s; simpl.
  - now exists acc, dfs, s.
  - destruct (iterations_agree N acc dfs s HN)
      as (s1 & row & lrow & al & ac & ll & lc & fl & fc & gl & gc
          & Em & Er).
    rewrite (bind_ok G _ _ _ _ _ Em), (bind_ok G _ _ _ _ _ Er).
    apply IH.
Qed.

End SameRuns.

(** X10.  For [N >= 1] the two per-shipment aggregators describe the same
    runs.  From the same generator state the simulators of both scripts end
    in the same state, and the shipments that [distribution_regression.py]
    counts as missing are those that [distribution_mc.py] does not count as
    surviving: [final_missing + total_surviving = N], on each path.  One
    iteration of each aggregator appends one entry to each of its lists and
    ends in the same state, and so do the two [main_simulation]
    functions. *)
Theorem aggregators_describe_the_same_runs
  (G : Generator) (num_sims N : Z) (s : rng G) :
  1 <= N ->
  (exists rm rr lm lr s1 s2,
     MC.simulate_imported_drugs G N s = (Ok rm, s1) /\
     Regression.simulate_imported_drugs G N s = (Ok rr, s1) /\
     MC.simulate_local_drugs G N s1 = (Ok lm, s2) /\
     Regression.simulate_local_drugs G N s1 = (Ok lr, s2) /\
     Regression.r_final_missing (Regression.i_results rr)
       + MC.r_total_surviving rm = N /\
     Regression.r_final_missing (Regression.l_results lr)
       + MC.r_total_surviving (MC.l_results lm) = N) /\
  (forall acc dfs, exists s' row lrow al ac ll lc fl fc gl gc,
     MC.main_iteration G N acc s
       = (Ok {| MC.imported_legit_arrivals :=
                  MC.imported_legit_arrivals acc ++ [al];
                MC.imported_counterfeit_arrivals :=
                  MC.imported_counterfeit_arrivals acc ++ [ac];
                MC.local_legit_arrivals := MC.local_legit_arrivals acc ++ [ll];
                MC.local_counterfeit_arrivals :=
                  MC.local_counterfeit_arrivals acc ++ [lc];
                MC.imported_legit_fraction :=
                  MC.imported_legit_fraction acc ++ [fl];
                MC.imported_counterfeit_fraction :=
                  MC.imported_counterfeit_fraction acc ++ [fc];
                MC.local_legit_fraction := MC.local_legit_fraction acc ++ [gl];
                MC.local_counterfeit_fraction :=
                  MC.local_counterfeit_fraction acc ++ [gc] |}, s') /\
     Regression.main_iteration G N dfs s
       = (Ok (fst dfs ++ [row], snd dfs ++ [lrow]), s')) /\
  (exists r t s',
     MC.main_simulation G num_sims N s = (Ok r, s') /\
     Regression.main_simulation G num_sims N s = (Ok t, s')).
Proof.
  intros HN. split; [| split].
  - apply runs_missing_share. lia.
  - intros acc dfs. apply iterations_agree. lia.
  - destruct (aggregator_loops_agree G N (Z.to_nat num_sims)
                MC.empty_series ([], []) s ltac:(lia))
      as (acc & dfs & s' & Em & Er).
    exists (MC.summarise acc), dfs, s'. split; [| exact Er].
    unfold MC.main_simulation. now rewrite (bind_ok G _ _ _ _ _ Em).
Qed.

Lemma aggregators_describe_the_same_runs_witness :
  1 <= 1 /\
  (exists rm rr lm lr s1 s2,
     MC.simulate_imported_drugs Tape.generator 1 Tape.sample = (Ok rm, s1) /\
     Regression.simulate_imported_drugs Tape.generator 1 Tape.sample
       = (Ok rr, s1) /\
     MC.simulate_local_drugs Tape.generator 1 s1 = (Ok lm, s2) /\
     Regression.simulate_local_drugs Tape.generator 1 s1 = (Ok lr, s2) /\
     Regression.r_final_missing (Regression.i_results rr)
       + MC.r_total_surviving rm = 1 /\
     Regression.r_final_missing (Regression.l_results lr)
       + MC.r_total_surviving (MC.l_results lm) = 1) /\
  (exists r t s',
     MC.main_simulation Tape.generator 2 1 Tape.sample = (Ok r, s') /\
     Regression.main_simulation Tape.generator 2 1 Tape.sample = (Ok t, s')).
Proof.
  split; [lia |].
  destruct (aggregators_describe_the_same_runs Tape.generator 2 1 Tape.sample)
    as (H1 & _ & H3); [lia |].
  split; [exact H1 | exact H3].
Defined.
